(** * Talemate: generation-request pipeline and revision engine

    A shallow embedding of
    - [talemate/client/base.py]   (rate-limit gate, cancellable dispatch,
      repetition-break loop, randomness jiggle, parameter cleaning,
      request records),
    - [talemate/client/tabbyapi.py] (the TabbyAPI jiggle),
    - [talemate/client/openai.py] (the parameters of a request),
    - [talemate/agents/editor/revision.py] (issue collection, the regex
      bad-prose detector, the three revision methods and the automatic
      revision of generated text),
    - [talemate/agents/creator/assistant.py] (generation contexts), and
    - [talemate/agents/director/generate_choices.py] (the choices offered
      to the player),
    followed by the properties established about them.

    Conventions.  A Python [str] is a [string] whose characters are the code
    points below 256, so [len] is [String.length].  A Python [float] is an
    exact rational ([Q]): rounding error of the binary representation is
    not modelled.  Time is a natural number of tenths of a second. *)

From Stdlib Require Import String Ascii ZArith QArith Qround Lqa Lia Bool.
From stdpp Require Import base option list gmap strings.
From Equations Require Import Equations.

Local Open Scope string_scope.

(** ** Python string primitives *)

Module Py.

(** [s.startswith(p)] *)
Definition startswith (s p : string) : bool := String.prefix p s.

(** [s.find(pat)]: index of the first occurrence. *)
Fixpoint find (pat s : string) : option nat :=
  if String.prefix pat s then Some 0%nat
  else match s with
       | EmptyString => None
       | String _ s' => S <$> find pat s'
       end.

(** [pat in s] *)
Definition contains (pat s : string) : bool :=
  match find pat s with Some _ => true | None => false end.

(** [s[n:]] and [s[:n]] for [0 <= n]. *)
Fixpoint drop (n : nat) (s : string) : string :=
  match n, s with
  | O, _ => s
  | S _, EmptyString => EmptyString
  | S k, String _ s' => drop k s'
  end.

Fixpoint take (n : nat) (s : string) : string :=
  match n, s with
  | O, _ => EmptyString
  | S _, EmptyString => EmptyString
  | S k, String c s' => String c (take k s')
  end.

(** [s.split(pat, 1)]: [None] stands for the one-element list [[s]],
    [Some (a, b)] for the two-element list [[a, b]]. *)
Definition split1 (pat s : string) : option (string * string) :=
  match find pat s with
  | Some i => Some (take i s, drop (i + String.length pat) s)
  | None => None
  end.

(** [s.split(pat)[0]] *)
Definition split_head (pat s : string) : string :=
  match split1 pat s with Some (a, _) => a | None => s end.

(** [s.split(sep)] for a one-character separator. *)
Fixpoint split_chr (sep : ascii) (s : string) : list string :=
  match s with
  | EmptyString => [EmptyString]
  | String c s' =>
      if Ascii.eqb c sep then EmptyString :: split_chr sep s'
      else match split_chr sep s' with
           | [] => [String c EmptyString]
           | w :: ws => String c w :: ws
           end
  end.

(** [sep.join(parts)] *)
Fixpoint join (sep : string) (parts : list string) : string :=
  match parts with
  | [] => EmptyString
  | [p] => p
  | p :: ps => p ++ sep ++ join sep ps
  end.

(** [s[:-1]] *)
Definition drop_last (s : string) : string := take (String.length s - 1) s.

(** [c.isspace()] on the code points below 256. *)
Definition isspace (c : ascii) : bool :=
  let n := nat_of_ascii c in
  (((9 <=? n) && (n <=? 13)) || ((28 <=? n) && (n <=? 32))
   || (n =? 133) || (n =? 160))%nat.

Fixpoint lstrip (s : string) : string :=
  match s with
  | EmptyString => EmptyString
  | String c s' => if isspace c then lstrip s' else s
  end.

Fixpoint rstrip (s : string) : string :=
  match s with
  | EmptyString => EmptyString
  | String c s' =>
      match rstrip s' with
      | EmptyString => if isspace c then EmptyString else String c EmptyString
      | r => String c r
      end
  end.

(** [s.strip()] *)
Definition strip (s : string) : string := rstrip (lstrip s).

(** [s.replace(pat, rep)] for a non-empty [pat]: non-overlapping
    occurrences, left to right.  [skip] counts the characters of a matched
    occurrence that are still to be consumed. *)
Fixpoint replace_go (pat rep : string) (skip : nat) (s : string) : string :=
  match s with
  | EmptyString => EmptyString
  | String c s' =>
      match skip with
      | S k => replace_go pat rep k s'
      | O =>
          if String.prefix pat s
          then rep ++ replace_go pat rep (String.length pat - 1) s'
          else String c (replace_go pat rep 0 s')
      end
  end.

Definition replace (pat rep s : string) : string := replace_go pat rep 0 s.

(** [c.lower()] on the code points below 256. *)
Definition lower_chr (c : ascii) : ascii :=
  let n := nat_of_ascii c in
  if (((65 <=? n) && (n <=? 90))
      || ((192 <=? n) && (n <=? 222) && negb (n =? 215)))%nat
  then ascii_of_nat (n + 32) else c.

Fixpoint lower (s : string) : string :=
  match s with
  | EmptyString => EmptyString
  | String c s' => String (lower_chr c) (lower s')
  end.

(** Truthiness of a [str]. *)
Definition truthy (s : string) : bool :=
  match s with EmptyString => false | _ => true end.

End Py.

(** ** Exceptions and results *)

Inductive exn :=
| GenerationCancelled
| SceneInactiveError
| ClientDisabledError
| KeyError (key : string)
| TypeError
| IndexError
| ZeroDivisionError
| ReError
| Exception (msg : string).

Inductive result (A : Type) :=
| Ok (a : A)
| Raise (e : exn).
Arguments Ok {A} a.
Arguments Raise {A} e.

Definition rbind {A B} (m : result A) (k : A -> result B) : result B :=
  match m with
  | Ok a => k a
  | Raise e => Raise e
  end.

Declare Scope result_scope.
Delimit Scope result_scope with result.
Notation "'let!' x ':=' m 'in' k" := (rbind m (fun x => k))
  (at level 10, x pattern, m at level 100, k at level 200) : result_scope.

(** ** Python numbers *)

Module Num.

Definition of_Z (n : Z) : Q := inject_Z n.

Definition ltb (x y : Q) : bool :=
  match (x ?= y)%Q with Lt => true | _ => false end.

Definition floor (x : Q) : Z := Qfloor x.

(** Round to the nearest integer, ties to the even one. *)
Definition round_half_even (x : Q) : Z :=
  let f := floor x in
  let r := (x - of_Z f)%Q in
  if ltb r (1 # 2) then f
  else if ltb (1 # 2) r then (f + 1)%Z
  else if Z.even f then f else (f + 1)%Z.

(** [round(x, ndigits)] for [0 <= ndigits]. *)
Definition round (x : Q) (ndigits : nat) : Q :=
  let scale := of_Z (10 ^ Z.of_nat ndigits) in
  (of_Z (round_half_even (x * scale)) / scale)%Q.

(** [a / b] on integers (true division). *)
Definition truediv (a b : Z) : result Q :=
  if (b =? 0)%Z then Raise ZeroDivisionError
  else Ok (of_Z a / of_Z b)%Q.

(** [min(x, y)] and [max(x, y)]: the first argument wins a tie. *)
Definition min (x y : Q) : Q := if ltb y x then y else x.
Definition max (x y : Q) : Q := if ltb x y then y else x.

End Num.

(** ** Regular expressions: the fragment of [re] used by phrase patterns *)

Module Rx.

Inductive regex :=
| Void
| Eps
| Chr (c : ascii)
| AnyChr
| Cat (r1 r2 : regex)
| Alt (r1 r2 : regex)
| Star (r : regex).

Fixpoint nullable (r : regex) : bool :=
  match r with
  | Void => false
  | Eps => true
  | Chr _ => false
  | AnyChr => false
  | Cat r1 r2 => nullable r1 && nullable r2
  | Alt r1 r2 => nullable r1 || nullable r2
  | Star _ => true
  end.

(** Character test: with [ignorecase] both sides are case-folded. *)
Definition chr_eqb (ignorecase : bool) (a b : ascii) : bool :=
  if ignorecase then Ascii.eqb (Py.lower_chr a) (Py.lower_chr b)
  else Ascii.eqb a b.

Fixpoint deriv (ignorecase : bool) (a : ascii) (r : regex) : regex :=
  match r with
  | Void => Void
  | Eps => Void
  | Chr c => if chr_eqb ignorecase c a then Eps else Void
  | AnyChr => if Ascii.eqb a (ascii_of_nat 10) then Void else Eps
  | Cat r1 r2 =>
      if nullable r1
      then Alt (Cat (deriv ignorecase a r1) r2) (deriv ignorecase a r2)
      else Cat (deriv ignorecase a r1) r2
  | Alt r1 r2 => Alt (deriv ignorecase a r1) (deriv ignorecase a r2)
  | Star r1 => Cat (deriv ignorecase a r1) (Star r1)
  end.

(** Does [r] match some prefix of [s]? *)
Fixpoint match_here (ignorecase : bool) (r : regex) (s : string) : bool :=
  nullable r ||
  match s with
  | EmptyString => false
  | String a s' => match_here ignorecase (deriv ignorecase a r) s'
  end.

(** Leftmost start index of a match in [s], counted from [base]. *)
Fixpoint search_from (ignorecase : bool) (r : regex) (base : nat) (s : string)
  : option nat :=
  if match_here ignorecase r s then Some base
  else match s with
       | EmptyString => None
       | String _ s' => search_from ignorecase r (S base) s'
       end.

(** [pattern.search(s, pos)] for a pattern compiled with or without
    [re.IGNORECASE]: the scan starts at index [pos] (clamped to [len(s)]). *)
Definition search (ignorecase : bool) (r : regex) (s : string) (pos : nat)
  : option nat :=
  let pos := Nat.min pos (String.length s) in
  search_from ignorecase r pos (Py.drop pos s).

(** The pattern denoted by a string without metacharacters. *)
Fixpoint literal (s : string) : regex :=
  match s with
  | EmptyString => Eps
  | String c s' => Cat (Chr c) (literal s')
  end.

(** The value of the flag constant [re.IGNORECASE]. *)
Definition IGNORECASE : nat := 2.

End Rx.

(** ** The editor agent's revision mixin ([revision.py]) *)

Module Revision.

Local Open Scope result_scope.

Record Character := { name : string }.

(** [talemate.util.dedupe.SimilarityMatch] *)
Record SimilarityMatch := {
  original : string;
  matched : string;
  similarity : Q;
  left_neighbor : option string;
  right_neighbor : option string }.

(** [talemate.world_state.templates.content.PhraseDetection] *)
Record PhraseDetection := {
  phrase : string;
  instructions : string;
  classification : string;
  match_method : string;
  active : bool }.

(** An element of the sentence list handed to the detectors: a [str], or
    the pair that [compile_text_to_sentences] yields. *)
Inductive sentence :=
| SStr (s : string)
| STuple (s0 s1 : string).

(** The [dict] describing one bad-prose finding. *)
Record Finding := {
  f_phrase : sentence;
  f_instructions : string;
  f_reason : string;
  f_matched : string;
  f_method : string;
  f_similarity : option Q }.

(** The [dict] describing one repetition. *)
Record Repetition := {
  text_a : string;
  text_b : string;
  rep_similarity : Q }.

Record Issues := {
  repetition : list Repetition;
  repetition_matches : list SimilarityMatch;
  bad_prose : list Finding;
  repetition_log : list string;
  bad_prose_log : list string }.

(** [Issues.log] *)
Definition log (i : Issues) : list string :=
  (repetition_log i ++ bad_prose_log i)%list.

Inductive Method := dedupe | rewrite | unslop.
Inductive DetectionMethod := fuzzy | semantic_similarity.

Record RevisionInformation := {
  text : string;
  character : option Character;
  context_type : option string;
  context_name : option string;
  summarization_history : option (list string) }.

(** The editor agent ([self]): its revision settings, the scene's writing
    style, and the collaborators the mixin calls.  The collaborators live
    outside [revision.py]; each is a function of what the mixin passes it. *)
Record Editor := {
  revision_method : Method;
  revision_repetition_detection_method : DetectionMethod;
  revision_min_issues : Z;
  revision_split_on_comma : bool;
  revision_detect_bad_prose_enabled : bool;
  revision_detect_bad_prose_threshold : Q;
  (** [scene.writing_style], reduced to its phrase list *)
  writing_style : option (list PhraseDetection);
  (** repetition detection against the scene history *)
  _revision_evaluate_fuzzy_similarity :
    string -> option Character -> result (list SimilarityMatch);
  _revision_evaluate_semantic_similarity :
    string -> option Character -> result (list SimilarityMatch);
  (** [talemate.util.dedupe] *)
  compile_text_to_sentences : string -> list (string * string);
  split_sentences_on_comma : list string -> list string;
  dedupe_sentences_from_matches : string -> list SimilarityMatch -> string;
  (** [get_agent("memory")] and its [compare_string_lists], reduced to the
      [similarity_matches] entry of the answer *)
  memory_agent :
    option (list sentence -> list string -> Q -> result (list (Z * Z * Q)));
  (** [re.compile] *)
  re_compile : string -> result Rx.regex;
  (** listeners of [agent.editor.revision-revise.after] and
      [agent.editor.revision-analysis.after], as they act on
      [emission.response] *)
  revise_after : string -> string;
  analysis_after : string -> string;
  (** [Prompt.request("editor.revision-analysis", ...)] *)
  analysis_request : string -> Issues -> result string;
  (** [focal_handler.request("editor.revision-rewrite")]: the results of
      the calls recorded in [focal_handler.state.calls] *)
  focal_request : string -> string -> result (list string);
  (** [summarizer.get_cached_analysis(...)] *)
  get_cached_analysis : bool -> result unit;
  (** [Prompt.request(template, ...)] of the unslop method *)
  unslop_request : string -> string -> Issues -> result string;
  (** [str] of a [float], for log lines *)
  float_str : Q -> string }.

Section Mixin.

Context (self : Editor).

(** [text.startswith(f"{character.name}: ")] and the stripped text *)
Definition name_prefix (c : Character) : string := name c ++ ": ".

Definition character_name_prefix (text : string) (character : option Character)
  : bool :=
  match character with
  | Some c => Py.startswith text (name_prefix c)
  | None => false
  end.

Definition strip_character_name (text : string) (character : option Character)
  : string :=
  match character with
  | Some c =>
      if Py.startswith text (name_prefix c)
      then Py.drop (String.length (name c) + 2) text
      else text
  | None => text
  end.

(** [sentences[i]] with Python's negative indices *)
Definition py_index {A} (l : list A) (i : Z) : result A :=
  let n := Z.of_nat (length l) in
  let j := if (i <? 0)%Z then (i + n)%Z else i in
  if ((j <? 0) || (n <=? j))%Z then Raise IndexError
  else match l !! Z.to_nat j with
       | Some a => Ok a
       | None => Raise IndexError
       end.

Fixpoint mapM {A B} (f : A -> result B) (l : list A) : result (list B) :=
  match l with
  | [] => Ok []
  | a :: l' =>
      let! b := f a in
      let! bs := mapM f l' in
      Ok (b :: bs)
  end.

Definition _revision_detect_bad_prose_semantic_similarity
  (sentences : list sentence) (phrases : list PhraseDetection)
  : result (list Finding) :=
  match memory_agent self with
  | None => Ok []
  | Some compare_string_lists =>
      let threshold := revision_detect_bad_prose_threshold self in
      let phrase_strings := map phrase phrases in
      let! result_matrix :=
        compare_string_lists sentences phrase_strings threshold in
      mapM (fun m : Z * Z * Q =>
              let '(i, j, score) := m in
              let! sentence := py_index sentences i in
              let! ph := py_index phrases j in
              Ok {| f_phrase := sentence;
                    f_instructions := instructions ph;
                    f_reason := "Unwanted phrase found";
                    f_matched := phrase ph;
                    f_method := "semantic_similarity";
                    f_similarity := Some score |})
           result_matrix
  end.

(** The compiled pattern carries no flag; [re.IGNORECASE] is passed as the
    second positional argument of [pattern.search], which is [pos]. *)
Definition _revision_detect_bad_prose_regex
  (sen : sentence) (ph : PhraseDetection) : result (list Finding) :=
  if negb (String.eqb (Py.lower (classification ph)) "unwanted") then Ok []
  else
    let! pattern := re_compile self (phrase ph) in
    match sen with
    | STuple _ _ => Raise TypeError
    | SStr s =>
        match Rx.search false pattern s Rx.IGNORECASE with
        | None => Ok []
        | Some _ =>
            Ok [ {| f_phrase := sen;
                    f_instructions := instructions ph;
                    f_reason := "Unwanted phrase found";
                    f_matched := phrase ph;
                    f_method := "regex";
                    f_similarity := None |} ]
        end
    end.

Definition phrase_usable (ph : PhraseDetection) : bool :=
  Py.truthy (phrase ph) && Py.truthy (instructions ph) && active ph.

Definition revision_detect_bad_prose_body (text : string)
  : result (list Finding) :=
  let sentences := map (fun p => STuple (fst p) (snd p))
                       (compile_text_to_sentences self text) in
  match writing_style self with
  | None => Ok []
  | Some [] => Ok []
  | Some phrases =>
      let sentences :=
        if revision_split_on_comma self
        then map SStr (split_sentences_on_comma self
                         (map fst (compile_text_to_sentences self text)))
        else sentences in
      let usable := filter (fun ph => phrase_usable ph = true) phrases in
      let semantic_similarity_phrases :=
        filter (fun ph => match_method ph = "semantic_similarity") usable in
      let regex_phrases :=
        filter (fun ph => match_method ph = "regex") usable in
      let! by_regex :=
        mapM (fun ph => mapM (fun sen => _revision_detect_bad_prose_regex sen ph)
                             sentences)
             regex_phrases in
      let! by_similarity :=
        _revision_detect_bad_prose_semantic_similarity
          sentences semantic_similarity_phrases in
      Ok (concat (concat by_regex) ++ by_similarity)%list
  end.

(** Any exception of the body is logged and an empty list returned. *)
Definition revision_detect_bad_prose (text : string) : list Finding :=
  match revision_detect_bad_prose_body text with
  | Ok identified => identified
  | Raise _ => []
  end.

Definition sentence_str (s : sentence) : string :=
  match s with
  | SStr s => s
  | STuple s0 s1 => "('" ++ s0 ++ "', '" ++ s1 ++ "')"
  end.

Definition repetition_of (m : SimilarityMatch) : Repetition :=
  {| text_a := original m; text_b := matched m; rep_similarity := similarity m |}.

Definition repetition_line (m : SimilarityMatch) : string :=
  "Repetition: `" ++ original m ++ "` -> `" ++ matched m
  ++ "` (similarity: " ++ float_str self (similarity m) ++ ")".

Definition bad_prose_line (f : Finding) : string :=
  "Bad prose: `" ++ sentence_str (f_phrase f) ++ "` (reason: " ++ f_reason f
  ++ ", matched: " ++ f_matched f ++ ", instructions: " ++ f_instructions f ++ ")".

Definition revision_collect_issues
  (text : string) (character : option Character) (detect_bad_prose : bool)
  : result Issues :=
  let detect_bad_prose :=
    revision_detect_bad_prose_enabled self
    && (match writing_style self with Some _ => true | None => false end)
    && detect_bad_prose in
  let! repetition_matches :=
    match revision_repetition_detection_method self with
    | fuzzy => _revision_evaluate_fuzzy_similarity self text character
    | semantic_similarity =>
        _revision_evaluate_semantic_similarity self text character
    end in
  let bad_prose :=
    if detect_bad_prose then revision_detect_bad_prose text else [] in
  Ok {| repetition := map repetition_of repetition_matches;
        repetition_matches := repetition_matches;
        bad_prose := bad_prose;
        repetition_log := map repetition_line repetition_matches;
        bad_prose_log := map bad_prose_line bad_prose |}.

(** The two-character string made of two double quotes. *)
Definition empty_quotes : string :=
  String (ascii_of_nat 34) (String (ascii_of_nat 34) EmptyString).

(** [f"{character.name}: {text}"] when the prefix was stripped *)
Definition reattach (prefixed : bool) (character : option Character)
  (text : string) : string :=
  match character with
  | Some c => if prefixed then name_prefix c ++ text else text
  | None => text
  end.

(** [f"{character.name}: {revision}"] unless the revision already has it *)
Definition reattach_if_missing (prefixed : bool) (character : option Character)
  (revision : string) : string :=
  match character with
  | Some c =>
      if prefixed && negb (Py.startswith revision (name_prefix c))
      then name_prefix c ++ revision else revision
  | None => revision
  end.

(** [round((original_length - deduped_length) / original_length * 100, 2)] *)
Definition reduction (original_length deduped_length : Z) : result Q :=
  let! ratio := Num.truediv (original_length - deduped_length) original_length in
  Ok (Num.round (ratio * Num.of_Z 100)%Q 2).

Definition len (s : string) : Z := Z.of_nat (String.length s).

Definition revision_dedupe (info : RevisionInformation) : result string :=
  let text := text info in
  let character := character info in
  let original_text := text in
  let prefixed := character_name_prefix text character in
  let text := strip_character_name text character in
  let original_length := len text in
  let! issues := revision_collect_issues text character false in
  match repetition_matches issues with
  | [] => Ok original_text
  | _ =>
      let response :=
        revise_after self
          (dedupe_sentences_from_matches self text (repetition_matches issues)) in
      let text := Py.replace "**" "" (Py.replace empty_quotes "" response) in
      let deduped_length := len text in
      let! reduction := reduction original_length deduped_length in
      if Num.ltb (Num.of_Z 90) reduction then Ok original_text
      else Ok (reattach prefixed character text)
  end.

Definition revision_rewrite (info : RevisionInformation) : result string :=
  let text := text info in
  let character := character info in
  let original_text := text in
  let prefixed := character_name_prefix text character in
  let text := strip_character_name text character in
  let! issues := revision_collect_issues text character true in
  let num_issues := Z.of_nat (length (log issues)) in
  if (num_issues =? 0)%Z then Ok original_text
  else if (num_issues <? revision_min_issues self)%Z then Ok original_text
  else
    let! analysis := analysis_request self text issues in
    let analysis := analysis_after self analysis in
    let! calls := focal_request self analysis text in
    match calls with
    | [] => Ok original_text
    | revision :: _ =>
        let revision := revise_after self revision in
        Ok (reattach_if_missing prefixed character revision)
    end.

Definition unslop_template (info : RevisionInformation) : string :=
  match context_type info with
  | Some (String _ _) => "editor.unslop-contextual-generation"
  | _ =>
      match summarization_history info with
      | Some _ => "editor.unslop-summarization"
      | None => "editor.unslop"
      end
  end.

(** [response.split("<FIX>", 1)[1]] *)
Definition after_open_tag (response : string) : string :=
  match Py.split1 "<FIX>" response with
  | Some (_, fix') => fix'
  | None => EmptyString
  end.

Definition revision_unslop (info : RevisionInformation) : result string :=
  let text := text info in
  let character := character info in
  let original_text := text in
  let prefixed := character_name_prefix text character in
  let text := strip_character_name text character in
  let! issues := revision_collect_issues text character true in
  let! _ := get_cached_analysis self
              (match character with Some _ => true | None => false end) in
  let template := unslop_template info in
  let! response := unslop_request self template text issues in
  if negb (Py.contains "<FIX>" response) then Ok original_text
  else
    let fix' := after_open_tag response in
    let continue (fix' : string) :=
      if negb (Py.truthy fix') then Ok original_text
      else
        let fix' := Py.strip fix' in
        let fix' := revise_after self fix' in
        Ok (reattach_if_missing prefixed character fix') in
    if Py.contains "</FIX>" fix' then continue (Py.split_head "</FIX>" fix')
    else if Py.contains "<" fix' then Ok original_text
    else continue fix'.

(** The [try] body of [revision_revise]. *)
Definition revision_revise_body (info : RevisionInformation) : result string :=
  match revision_method self with
  | dedupe => revision_dedupe info
  | rewrite => revision_rewrite info
  | unslop => revision_unslop info
  end.

(** Cancellation and every other exception of a method are logged and the
    text of [info] is returned. *)
Definition revision_revise (info : RevisionInformation) : string :=
  match revision_revise_body info with
  | Ok revised => revised
  | Raise GenerationCancelled => text info
  | Raise _ => text info
  end.

End Mixin.

End Revision.

(** ** The client ([client/base.py], [client/tabbyapi.py]) *)

Module Client.

(** A value held by a sampling-parameter [dict]. *)
Inductive pyval :=
| VInt (n : Z)
| VFloat (q : Q)
| VStr (s : string)
| VList (l : list string)
| VDict (entries : list (string * string)).

(** A [dict] object lives in the heap and is passed around by reference. *)
Definition loc := nat.
Abbreviation dict := (gmap string pyval).

(** What [active_scene.get()] yields. *)
Inductive scene_view :=
| NoScene
| Scene (active cancel_requested : bool).

(** [not scene or not scene.active or scene.cancel_requested] *)
Definition interrupted (scene : scene_view) : bool :=
  match scene with
  | NoScene => true
  | Scene active cancel_requested => negb active || cancel_requested
  end.

(** Notifications the client hands to [emit].  What
    [instance.emit_agent_status_by_client] sends when the status of the
    base client changes is not part of this log. *)
Inductive event :=
| rate_limited (reset_time : nat)
| rate_limit_reset
| status_error (message : string)
| client_status (processing : bool)
| prompt_sent (prompt response : string).

Inductive task := task_poll | task_generate.

(** Modelled from the spec: [talemate.client.ratelimit.CounterRateLimiter]
    is not among the sources.  Section 4.1 and the data model describe a
    counter bound to a one-minute window and a maximum of requests per
    window; [increment] is the spec's [admit]: it resets the counter once
    the window has elapsed, then grants a slot if one is left. *)
Record CounterRateLimiter := {
  rate_per_minute : Z;
  count : Z;
  window_start : nat }.

(** One minute, in tenths of a second. *)
Definition window : nat := 600.

(** Modelled from the spec: [reset_time()] reports when the window
    resets. *)
Definition reset_time (l : CounterRateLimiter) : nat := window_start l + window.

(** Modelled from the spec: [increment()] attempts to consume one slot of
    the current window and returns whether the slot was granted; a denied
    call consumes nothing, and after the window has elapsed slots are
    granted again. *)
Definition increment (now : nat) (l : CounterRateLimiter)
  : bool * CounterRateLimiter :=
  let l :=
    if (reset_time l <=? now)%nat
    then {| rate_per_minute := rate_per_minute l; count := 0; window_start := now |}
    else l in
  if (count l <? rate_per_minute l)%Z
  then (true, {| rate_per_minute := rate_per_minute l;
                 count := count l + 1;
                 window_start := window_start l |})
  else (false, l).

(** One provider call: how long it takes and how it ends. *)
Record generation := {
  duration : nat;
  outcome : result string }.

(** [RequestInformation], reduced to its two timestamps. *)
Record RequestInformation := {
  start_time : nat;
  end_time : option nat }.

Inductive ClientType := base | tabbyapi.

(** The client object's settings. *)
Record ClientBase := {
  client_type : ClientType;
  enabled : bool;
  auto_break_repetition_enabled : bool;
  max_tokens_param_name : string }.

(** What lies outside the client: the scene over time, the provider, the
    random generator, and the helpers of [talemate.util], the agent context
    and the prompt preparation, none of which is among the sources. *)
Record Env := {
  (** [active_scene.get()] at each instant *)
  scene_at : nat -> scene_view;
  (** the provider's answer to the k-th [generate] call *)
  provider : nat -> string -> dict -> generation;
  (** the k-th [random.random()] draw *)
  random : nat -> Q;
  (** whether [done.pop()] yields the poll task when both tasks are done *)
  pop_poll_first : bool;
  (** [util.similarity_score(text, lines, similarity_threshold)] *)
  similarity_score : string -> list string -> Z -> bool * Q * string;
  (** [util.dedupe_sentences(text, line, similarity_threshold)] *)
  dedupe_sentences : string -> string -> Z -> string;
  (** [util.strip_partial_sentences(text)] *)
  strip_partial_sentences : string -> string;
  (** [agent.allow_repetition_break(kind, action, auto=True)] *)
  jiggle_enabled_for : string -> bool;
  (** the steps of [_send_prompt] from [generate_prompt_parameters] to
      [clean_prompt_parameters]: the finalized prompt, the content of the
      parameter [dict] they build, and the extra stopping strings *)
  prepare : string -> string -> result (string * dict * list string) }.

(** The mutable state a dispatch acts on. *)
Record World := {
  now : nat;
  heap : gmap loc dict;
  next_loc : loc;
  rate_limit_counter : option CounterRateLimiter;
  request_information : option RequestInformation;
  emitted : list event;
  calls : nat;
  dispatched : list (string * loc * dict);
  cancelled : list task;
  draws : nat }.

Definition set_now (t : nat) (w : World) : World :=
  {| now := t; heap := heap w; next_loc := next_loc w;
     rate_limit_counter := rate_limit_counter w;
     request_information := request_information w; emitted := emitted w;
     calls := calls w; dispatched := dispatched w; cancelled := cancelled w;
     draws := draws w |}.

Definition set_heap (h : gmap loc dict) (n : loc) (w : World) : World :=
  {| now := now w; heap := h; next_loc := n;
     rate_limit_counter := rate_limit_counter w;
     request_information := request_information w; emitted := emitted w;
     calls := calls w; dispatched := dispatched w; cancelled := cancelled w;
     draws := draws w |}.

Definition set_rate_limit_counter (l : option CounterRateLimiter) (w : World)
  : World :=
  {| now := now w; heap := heap w; next_loc := next_loc w;
     rate_limit_counter := l;
     request_information := request_information w; emitted := emitted w;
     calls := calls w; dispatched := dispatched w; cancelled := cancelled w;
     draws := draws w |}.

Definition set_request_information (r : option RequestInformation) (w : World)
  : World :=
  {| now := now w; heap := heap w; next_loc := next_loc w;
     rate_limit_counter := rate_limit_counter w;
     request_information := r; emitted := emitted w;
     calls := calls w; dispatched := dispatched w; cancelled := cancelled w;
     draws := draws w |}.

Definition add_emitted (e : event) (w : World) : World :=
  {| now := now w; heap := heap w; next_loc := next_loc w;
     rate_limit_counter := rate_limit_counter w;
     request_information := request_information w;
     emitted := (emitted w ++ [e])%list;
     calls := calls w; dispatched := dispatched w; cancelled := cancelled w;
     draws := draws w |}.

Definition add_dispatch (d : string * loc * dict) (w : World) : World :=
  {| now := now w; heap := heap w; next_loc := next_loc w;
     rate_limit_counter := rate_limit_counter w;
     request_information := request_information w; emitted := emitted w;
     calls := S (calls w); dispatched := (dispatched w ++ [d])%list;
     cancelled := cancelled w; draws := draws w |}.

Definition add_cancelled (ts : list task) (w : World) : World :=
  {| now := now w; heap := heap w; next_loc := next_loc w;
     rate_limit_counter := rate_limit_counter w;
     request_information := request_information w; emitted := emitted w;
     calls := calls w; dispatched := dispatched w;
     cancelled := (cancelled w ++ ts)%list; draws := draws w |}.

Definition add_draw (w : World) : World :=
  {| now := now w; heap := heap w; next_loc := next_loc w;
     rate_limit_counter := rate_limit_counter w;
     request_information := request_information w; emitted := emitted w;
     calls := calls w; dispatched := dispatched w; cancelled := cancelled w;
     draws := S (draws w) |}.

(** Computations that act on the world and may raise. *)
Definition M (A : Type) : Type := World -> result A * World.

Definition ret {A} (a : A) : M A := fun w => (Ok a, w).
Definition raise {A} (e : exn) : M A := fun w => (Raise e, w).
Definition bind {A B} (m : M A) (k : A -> M B) : M B :=
  fun w =>
    match m w with
    | (Ok a, w') => k a w'
    | (Raise e, w') => (Raise e, w')
    end.
Definition lift {A} (r : result A) : M A := fun w => (r, w).
Definition modify (f : World -> World) : M unit := fun w => (Ok tt, f w).

Declare Scope world_scope.
Delimit Scope world_scope with world.
Notation "'let!' x ':=' m 'in' k" := (bind m (fun x => k))
  (at level 10, x pattern, m at level 100, k at level 200) : world_scope.
Notation "m ';;' k" := (bind m (fun _ => k))
  (at level 100, k at level 200, right associativity) : world_scope.

Local Open Scope world_scope.

(** [try: m  except GenerationCancelled: raise  except Exception: handler] *)
Definition try_except {A} (m : M A) (handler : M A) : M A :=
  fun w =>
    match m w with
    | (Ok a, w') => (Ok a, w')
    | (Raise GenerationCancelled, w') => (Raise GenerationCancelled, w')
    | (Raise _, w') => handler w'
    end.

(** [try: m  except KeyError: pass] *)
Definition except_KeyError (m : M unit) : M unit :=
  fun w =>
    match m w with
    | (Raise (KeyError _), w') => (Ok tt, w')
    | other => other
    end.

(** [try: m  finally: cleanup], for a cleanup that does not raise. *)
Definition try_finally {A} (m : M A) (cleanup : World -> World) : M A :=
  fun w => let '(r, w') := m w in (r, cleanup w').

Definition emit (e : event) : M unit := modify (add_emitted e).

(** [asyncio.sleep(d)] *)
Definition sleep (d : nat) : M unit := modify (fun w => set_now (now w + d) w).

(** [prompt_config[key]] *)
Definition getitem (l : loc) (key : string) : M pyval :=
  fun w =>
    match heap w !! l with
    | Some d =>
        match d !! key with
        | Some v => (Ok v, w)
        | None => (Raise (KeyError key), w)
        end
    | None => (Raise (Exception "no such object"), w)
    end.

(** [prompt_config[key] = v]: the object at [l] is edited in place. *)
Definition setitem (l : loc) (key : string) (v : pyval) : M unit :=
  fun w =>
    match heap w !! l with
    | Some d => (Ok tt, set_heap (<[l := <[key := v]> d]> (heap w)) (next_loc w) w)
    | None => (Raise (Exception "no such object"), w)
    end.

(** A new [dict] object. *)
Definition alloc (d : dict) : M loc :=
  fun w => (Ok (next_loc w), set_heap (<[next_loc w := d]> (heap w)) (S (next_loc w)) w).

(** The number denoted by a value, for arithmetic with a [float]. *)
Definition as_float (v : pyval) : result Q :=
  match v with
  | VInt n => Ok (Num.of_Z n)
  | VFloat q => Ok q
  | _ => Raise TypeError
  end.

(** [v + n] for an [int] [n]. *)
Definition add_int (v : pyval) (n : Z) : result pyval :=
  match v with
  | VInt m => Ok (VInt (m + n))
  | VFloat q => Ok (VFloat (q + Num.of_Z n))
  | _ => Raise TypeError
  end.

Section Dispatch.

Context (E : Env) (self : ClientBase).

(** [random.uniform(a, b)] *)
Definition uniform (a b : Q) : M Q :=
  fun w => (Ok (a + (b - a) * random E (draws w))%Q, add_draw w).

(** [ClientBase.jiggle_randomness] *)
Definition base_jiggle_randomness (prompt_config : loc) (offset : Q) : M unit :=
  let! temp := getitem prompt_config "temperature" in
  let! temp := lift (as_float temp) in
  let min_offset := (offset * (3 # 10))%Q in
  let! t := uniform (temp + min_offset) (temp + offset) in
  setitem prompt_config "temperature" (VFloat t).

(** [TabbyAPIClient.jiggle_randomness] *)
Definition tabbyapi_jiggle_randomness (prompt_config : loc) (offset : Q) : M unit :=
  let! temp := getitem prompt_config "temperature" in
  let! temp := lift (as_float temp) in
  let min_offset := (offset * (3 # 10))%Q in
  let! t := uniform (temp + min_offset) (temp + offset) in
  setitem prompt_config "temperature" (VFloat t) ;;
  let! p := uniform (5 # 100) (15 # 100) in
  setitem prompt_config "min_p" (VFloat p) ;;
  except_KeyError
    (let! presence_penalty := getitem prompt_config "presence_penalty" in
     let! presence_penalty := lift (as_float presence_penalty) in
     let! u := uniform (presence_penalty + (1 # 10)) (presence_penalty + offset) in
     let adjusted_presence_penalty := Num.round u 1 in
     setitem prompt_config "presence_penalty"
       (VFloat (Num.min (5 # 10) (Num.max (1 # 10) adjusted_presence_penalty)))).

Definition jiggle_randomness (prompt_config : loc) (offset : Q) : M unit :=
  match client_type self with
  | base => base_jiggle_randomness prompt_config offset
  | tabbyapi => tabbyapi_jiggle_randomness prompt_config offset
  end.

Definition newline : string := String (ascii_of_nat 10) EmptyString.

(** [prompt.split("\n")] *)
Definition lines (prompt : string) : list string :=
  Py.split_chr (ascii_of_nat 10) prompt.

Definition repetition_adjustment (prompt : string) (is_repetitive : bool) : string :=
  let new_lines :=
    map (fun line =>
           if Py.startswith line "[$REPETITION|"
           then if is_repetitive
                then Py.drop_last (nth 1 (Py.split_chr "|" line) EmptyString)
                else EmptyString
           else line)
        (lines prompt) in
  Py.join newline new_lines.

(** The content of the [dict] object at [parameters]. *)
Definition content_of (parameters : loc) (w : World) : dict :=
  default ∅ (heap w !! parameters).

(** The provider's answer to the call issued next. *)
Definition reply (prompt : string) (parameters : loc) (w : World) : generation :=
  provider E (calls w) prompt (content_of parameters w).

(** [await self.generate(prompt, parameters, kind)]: the call is logged with
    the object it was handed and that object's content at that moment. *)
Definition generate (prompt : string) (parameters : loc) (kind : string) : M string :=
  fun w =>
    let g := reply prompt parameters w in
    (outcome g,
     set_now (now w + duration g)
       (add_dispatch (prompt, parameters, content_of parameters w) w)).

(** The poll task looks at the scene when it starts and then every 0.3 s;
    [poll_scan n t] is its completion time when that is one of the [S n]
    instants [t], [t + 3], ... *)
Fixpoint poll_scan (n : nat) (t : nat) : option nat :=
  if interrupted (scene_at E t) then Some t
  else match n with
       | O => None
       | S n' => poll_scan n' (t + 3)
       end.

(** [asyncio.wait([task_poll, task_generate], return_when=FIRST_COMPLETED)]
    for tasks started at [t0], generation taking [d]: the instant it
    returns, and the sets [done] and [pending]. *)
Definition asyncio_wait (t0 d : nat) : nat * list task * list task :=
  match poll_scan (d / 3) t0 with
  | Some t_poll =>
      if (t_poll <? t0 + d)%nat then (t_poll, [task_poll], [task_generate])
      else (t_poll, [task_poll; task_generate], [])
  | None => (t0 + d, [task_generate], [task_poll])
  end.

(** The poll task completes at [tp]: the first of the instants [t0],
    [t0 + 3], ... at which the scene is found interrupted. *)
Definition poll_completes_at (t0 tp : nat) : Prop :=
  exists k, tp = t0 + 3 * k
            /\ interrupted (scene_at E tp) = true
            /\ forall j, j < k -> interrupted (scene_at E (t0 + 3 * j)) = false.

(** The poll task is still running when generation, started at [t0],
    completes after [d]. *)
Definition poll_pending_through (t0 d : nat) : Prop :=
  forall k, 3 * k <= d -> interrupted (scene_at E (t0 + 3 * k)) = false.

(** What [_cancelable_generate] returns: [str | GenerationCancelled]. *)
Inductive response :=
| Text (s : string)
| Cancelled.

(** [done.pop()]: any element of [done]. *)
Definition pop (done : list task) : task :=
  match done with
  | [t] => t
  | _ => if pop_poll_first E then task_poll else task_generate
  end.

Definition _cancelable_generate (prompt : string) (parameters : loc) (kind : string)
  : M response :=
  fun w =>
    let g := reply prompt parameters w in
    let '(t, done, pending) := asyncio_wait (now w) (duration g) in
    let w := set_now t
               (add_dispatch (prompt, parameters, content_of parameters w) w) in
    let w := add_cancelled pending w in
    match pop done with
    | task_poll => (Ok Cancelled, w)
    | task_generate =>
        match outcome g with
        | Ok text => (Ok (Text text), w)
        | Raise e => (Raise e, w)
        end
    end.

(** The state carried round the retry loop of [auto_break_repetition]. *)
Record retry_state := {
  st_is_repetition : bool;
  st_matched_line : string;
  st_response : string;
  st_finalized_prompt : string }.

(** One iteration of [while is_repetition and retries > 0]. *)
Definition retry_iteration (prompt_param : loc) (kind : string)
  (pad_max_tokens : Z) (st : retry_state) : M retry_state :=
  jiggle_randomness prompt_param (5 # 10) ;;
  let! max_tokens := getitem prompt_param (max_tokens_param_name self) in
  let! padded := lift (add_int max_tokens pad_max_tokens) in
  setitem prompt_param (max_tokens_param_name self) padded ;;
  let finalized_prompt := repetition_adjustment (st_finalized_prompt st) true in
  let! retried_response := generate finalized_prompt prompt_param kind in
  let response :=
    dedupe_sentences E retried_response (st_matched_line st) 85 in
  let response :=
    if negb (Py.truthy (Py.strip (strip_partial_sentences E response)))
    then retried_response else response in
  let '(is_repetition, _, matched_line) :=
    similarity_score E response (lines finalized_prompt) 80 in
  ret {| st_is_repetition := is_repetition;
         st_matched_line := matched_line;
         st_response := response;
         st_finalized_prompt := finalized_prompt |}.

Equations? retry_loop (prompt_param : loc) (kind : string) (pad_max_tokens : Z)
  (retries : Z) (st : retry_state) (w : World)
  : result retry_state * World by wf (Z.to_nat retries) lt :=
retry_loop prompt_param kind pad_max_tokens retries st w
  with Logic.inspect (st_is_repetition st && (0 <? retries)%Z) => {
  | exist _ false _ => (Ok st, w);
  | exist _ true Hcond =>
      match retry_iteration prompt_param kind pad_max_tokens st w with
      | (Ok st', w') =>
          retry_loop prompt_param kind pad_max_tokens (retries - 1) st' w'
      | (Raise e, w') => (Raise e, w')
      end }.
Proof.
  apply andb_true_iff in Hcond as [_ Hr]. apply Z.ltb_lt in Hr. lia.
Qed.

Definition auto_break_repetition (finalized_prompt : string) (prompt_param : loc)
  (response : string) (kind : string) (retries : Z) (pad_max_tokens : Z)
  : M (string * string) :=
  if negb (auto_break_repetition_enabled self) || negb (Py.truthy (Py.strip response))
  then ret (response, finalized_prompt)
  else if jiggle_enabled_for E kind then
    let '(is_repetition, _, matched_line) :=
      similarity_score E response (lines finalized_prompt) 80 in
    if negb is_repetition
    then ret (response, repetition_adjustment finalized_prompt false)
    else
      let! st := retry_loop prompt_param kind pad_max_tokens retries
                   {| st_is_repetition := is_repetition;
                      st_matched_line := matched_line;
                      st_response := response;
                      st_finalized_prompt := finalized_prompt |} in
      ret (st_response st, st_finalized_prompt st)
  else ret (response, finalized_prompt).

(** The wait loop of the rate-limit gate, [while not increment(): ...],
    entered with a limiter [l].  It yields [aborted]; [None] when [fuel]
    iterations were not enough. *)
Fixpoint rate_limit_wait (fuel : nat) (l : CounterRateLimiter) (w : World)
  : option (bool * World) :=
  match fuel with
  | O => None
  | S fuel' =>
      let '(admitted, l) := increment (now w) l in
      let w := set_rate_limit_counter (Some l) w in
      if admitted then Some (false, w)
      else
        let w := add_emitted (rate_limited (reset_time l)) w in
        if interrupted (scene_at E (now w)) then Some (true, w)
        else rate_limit_wait fuel' l (set_now (now w + 10) w)
  end.

(** The first [try] block of [_send_prompt]. *)
Definition rate_limit_gate (fuel : nat) (w : World) : option (result unit * World) :=
  match rate_limit_counter w with
  | None => Some (Ok tt, w)
  | Some l =>
      match rate_limit_wait fuel l w with
      | None => None
      | Some (aborted, w) =>
          let w := add_emitted rate_limit_reset w in
          Some (if aborted then Raise GenerationCancelled else Ok tt, w)
      end
  end.

Definition STOPPING_STRINGS : list string := ["<|im_end|>"; "</s>"].

(** The response up to the first stopping string it contains. *)
Fixpoint cut_at_stopping_string (stops : list string) (response : string)
  : result string :=
  match stops with
  | [] => Ok response
  | stopping_string :: stops' =>
      if Py.contains stopping_string response
      then match stopping_string with
           | EmptyString => Raise (Exception "empty separator")
           | _ => Ok (Py.split_head stopping_string response)
           end
      else cut_at_stopping_string stops' response
  end.

Definition new_request : M unit :=
  modify (fun w =>
    set_request_information
      (Some {| start_time := now w; end_time := None |}) w).

Definition end_request : M unit :=
  modify (fun w =>
    set_request_information
      (match request_information w with
       | Some r => Some {| start_time := start_time r; end_time := Some (now w) |}
       | None => None
       end) w).

(** The cancellable dispatch inside [_send_prompt]: a request record is
    opened, the race is run, the record is closed, and a
    [GenerationCancelled] that came back as a value is raised. *)
Definition dispatch (prompt_sent : string) (prompt_param : loc) (kind : string)
  : M string :=
  new_request ;;
  let! response := _cancelable_generate prompt_sent prompt_param kind in
  end_request ;;
  match response with
  | Cancelled => raise GenerationCancelled
  | Text response => ret response
  end.

(** The body of the second [try] block of [_send_prompt].  After
    [emit_status(processing=True)] the client is processing, so
    [await self.status()] emits the status once more and returns.  The
    replacement of the typographic quotes U+201C and U+201D is the identity
    on the strings modelled here, whose characters lie below U+0100. *)
Definition attempt (prompt kind : string) (retries : Z) : M string :=
  emit (client_status true) ;;
  emit (client_status true) ;;
  let! (finalized_prompt, content, extra_stopping_strings) :=
    lift (prepare E kind prompt) in
  let! prompt_param := alloc content in
  let prompt_sent := repetition_adjustment finalized_prompt false in
  let! response := dispatch prompt_sent prompt_param kind in
  let! (response, finalized_prompt) :=
    auto_break_repetition finalized_prompt prompt_param response kind retries 32 in
  let! response :=
    lift (cut_at_stopping_string
            (STOPPING_STRINGS ++ extra_stopping_strings)%list response) in
  emit (Client.prompt_sent prompt_sent response) ;;
  ret response.

(** The [finally] clause of [_send_prompt]. *)
Definition cleanup (w : World) : World :=
  let w := add_emitted (client_status false) w in
  match rate_limit_counter w with
  | Some l => set_rate_limit_counter (Some (snd (increment (now w) l))) w
  | None => w
  end.

Definition _send_prompt (fuel : nat) (prompt kind : string) (retries : Z)
  (w : World) : option (result string * World) :=
  match rate_limit_gate fuel w with
  | None => None
  | Some (Raise GenerationCancelled, w) => Some (Raise GenerationCancelled, w)
  | Some (_, w) =>
      Some
        match scene_at E (now w) with
        | NoScene => (Raise SceneInactiveError, w)
        | Scene false _ => (Raise SceneInactiveError, w)
        | Scene true _ =>
            if negb (enabled self) then (Raise ClientDisabledError, w)
            else
              try_finally
                (try_except (attempt prompt kind retries)
                   (emit (status_error "Error during generation (check logs)") ;;
                    ret EmptyString))
                cleanup w
        end
  end.

(** [send_prompt]: on cancellation [abort_generation] (a no-op here) runs
    and the exception is raised again. *)
Definition send_prompt (fuel : nat) (prompt kind : string) (retries : Z)
  (w : World) : option (result string * World) :=
  _send_prompt fuel prompt kind retries w.

End Dispatch.

End Client.

(** ** Concrete editors, clients and worlds used below *)

Module Samples.

Import Revision.

Definition no_issue_report : Issues :=
  {| repetition := []; repetition_matches := []; bad_prose := [];
     repetition_log := []; bad_prose_log := [] |}.

Definition one_match (sentence : string) : SimilarityMatch :=
  {| original := sentence; matched := sentence; similarity := 100;
     left_neighbor := None; right_neighbor := None |}.

(** An editor whose scene has no writing style and whose history holds the
    sentences [history]; the model answers every unslop request with
    [reply], every rewrite tool call with [rewritten], and mechanical
    dedupe keeps the first [keep] characters. *)
Definition editor (method : Method) (history : list string) (reply : string)
  (rewritten : list string) (keep : nat) : Editor :=
  {| revision_method := method;
     revision_repetition_detection_method := fuzzy;
     revision_min_issues := 1;
     revision_split_on_comma := true;
     revision_detect_bad_prose_enabled := true;
     revision_detect_bad_prose_threshold := 7 # 10;
     writing_style := None;
     _revision_evaluate_fuzzy_similarity := fun _ _ => Ok (map one_match history);
     _revision_evaluate_semantic_similarity := fun _ _ => Ok (map one_match history);
     compile_text_to_sentences := fun t => [(t, t)];
     split_sentences_on_comma := fun l => l;
     dedupe_sentences_from_matches := fun t _ => Py.take keep t;
     memory_agent := None;
     re_compile := fun p => Ok (Rx.literal p);
     revise_after := fun r => r;
     analysis_after := fun r => r;
     analysis_request := fun _ _ => Ok "analysis";
     focal_request := fun _ _ => Ok rewritten;
     get_cached_analysis := fun _ => Ok tt;
     unslop_request := fun _ _ _ => Ok reply;
     float_str := fun _ => "100.0" |}.

Definition narration (t : string) : RevisionInformation :=
  {| text := t; character := None; context_type := None;
     context_name := None; summarization_history := None |}.

Definition unwanted (pattern : string) : PhraseDetection :=
  {| phrase := pattern; instructions := "Avoid this phrase.";
     classification := "unwanted"; match_method := "regex"; active := true |}.

(** [n] copies of the letter a. *)
Fixpoint letters (n : nat) : string :=
  match n with
  | O => EmptyString
  | S k => String "a" (letters k)
  end.

Import Client.

(** A scene that stays active until the instant [stop], at which
    cancellation is requested; a provider that takes two seconds and echoes
    one sentence; a similarity check that calls every response a
    repetition. *)
Definition env (stop : nat) : Env :=
  {| scene_at := fun t => Scene true (stop <=? t)%nat;
     provider := fun _ _ _ =>
       {| duration := 20%nat; outcome := Ok "The hero drew his sword." |};
     random := fun _ => 1 # 2;
     pop_poll_first := true;
     similarity_score := fun _ _ _ => (true, 100%Q, "The hero drew his sword.");
     dedupe_sentences := fun t _ _ => t;
     strip_partial_sentences := fun t => t;
     jiggle_enabled_for := fun _ => true;
     prepare := fun _ p =>
       Ok (p, {[ "temperature" := VFloat (7 # 10); "max_tokens" := VInt 100 ]}, []) |}.

Definition client : ClientBase :=
  {| client_type := base; enabled := true;
     auto_break_repetition_enabled := true;
     max_tokens_param_name := "max_tokens" |}.

(** A fresh world at time 0 whose limiter allows [limit] requests per
    minute, [used] of which are taken. *)
Definition world (limit used : Z) : World :=
  {| now := 0%nat; heap := ∅; next_loc := 0%nat;
     rate_limit_counter :=
       Some {| rate_per_minute := limit; count := used; window_start := 0%nat |};
     request_information := None; emitted := []; calls := 0%nat;
     dispatched := []; cancelled := []; draws := 0%nat |}.

(** The same world once the parameter object 0 exists. *)
Definition world_with_parameters : World :=
  {| now := 0%nat;
     heap := {[ 0%nat := {[ "temperature" := VFloat (7 # 10);
                            "max_tokens" := VInt 100 ]} ]};
     next_loc := 1%nat;
     rate_limit_counter := None;
     request_information := None; emitted := []; calls := 1%nat;
     dispatched := []; cancelled := []; draws := 0%nat |}.

Definition repeating : retry_state :=
  {| st_is_repetition := true;
     st_matched_line := "The hero drew his sword.";
     st_response := "The hero drew his sword.";
     st_finalized_prompt := "The hero drew his sword." |}.

(** [world 2 0] once the gate has admitted the request. *)
Definition admitted_world : World :=
  add_emitted rate_limit_reset
    (set_rate_limit_counter
       (Some {| rate_per_minute := 2; count := 1; window_start := 0%nat |})
       (world 2 0)).

(** The world in which an outcome of [_send_prompt] ends. *)
Definition final {A} (o : option (result A * World)) : option World :=
  match o with Some (_, w) => Some w | None => None end.

End Samples.

(** ** Sampling parameters ([client/base.py], [client/openai.py],
       [client/tabbyapi.py]) *)

Module Parameters.

Import Client.

(** An element of a client's [supported_parameters]: a parameter name, or
    a [ParameterReroute]. *)
Inductive parameter :=
| Name (name : string)
| ParameterReroute (talemate_parameter client_parameter : string).

(** [str(param)] *)
Definition str (param : parameter) : string :=
  match param with
  | Name name => name
  | ParameterReroute _ client_parameter => client_parameter
  end.

(** [ParameterReroute.reroute]: the content of the [dict] afterwards. *)
Definition reroute (talemate_parameter client_parameter : string)
  (parameters : dict) : dict :=
  match parameters !! talemate_parameter with
  | Some v => delete talemate_parameter (<[client_parameter := v]> parameters)
  | None => parameters
  end.

(** [key in supported_parameters]: membership compares with [==], and a
    reroute equals whatever has its string form. *)
Definition is_supported (supported_parameters : list parameter) (key : string)
  : bool :=
  existsb (fun param => String.eqb (str param) key) supported_parameters.

(** The first loop of [clean_prompt_parameters]. *)
Definition apply_reroutes (supported_parameters : list parameter)
  (parameters : dict) : dict :=
  fold_left (fun parameters param =>
               match param with
               | ParameterReroute talemate_parameter client_parameter =>
                   reroute talemate_parameter client_parameter parameters
               | Name _ => parameters
               end)
            supported_parameters parameters.

(** [ClientBase.clean_prompt_parameters]: the content of the [dict]
    afterwards. *)
Definition clean_prompt_parameters (supported_parameters : list parameter)
  (parameters : dict) : dict :=
  let rerouted := apply_reroutes supported_parameters parameters in
  filter (fun kv => is_supported supported_parameters (fst kv) = true) rerouted.

(** [ClientBase.supported_parameters] *)
Definition base_supported_parameters : list parameter :=
  [Name "temperature"; Name "max_tokens"].

(** [OpenAIClient.supported_parameters] *)
Definition openai_supported_parameters : list parameter :=
  [Name "temperature"; Name "top_p"; Name "presence_penalty"; Name "max_tokens"].

(** [TabbyAPIClient.supported_parameters] *)
Definition tabbyapi_supported_parameters : list parameter :=
  [Name "max_tokens"; Name "presence_penalty"; Name "frequency_penalty";
   Name "repetition_penalty_range"; Name "min_p"; Name "top_p";
   Name "xtc_threshold"; Name "xtc_probability"; Name "dry_multiplier";
   Name "dry_base"; Name "dry_allowed_length"; Name "dry_sequence_breakers";
   Name "smoothing_factor"; Name "temperature_last"; Name "temperature"].

(** Whether [OpenAIClient.generate] treats the model as one that takes
    no system message: ["o1" in model_name or "o3" in model_name]. *)
Definition is_reasoning_model (model_name : string) : bool :=
  Py.contains "o1" model_name || Py.contains "o3" model_name.

(** What [OpenAIClient.generate] does to the parameter [dict] for such a
    model: [max_tokens] becomes [max_completion_tokens], a temperature is
    forced to 1, and [presence_penalty] and [top_p] are removed. *)
Definition reasoning_model_parameters (parameters : dict) : dict :=
  let parameters :=
    match parameters !! "max_tokens" with
    | Some v => <["max_completion_tokens" := v]> (delete "max_tokens" parameters)
    | None => parameters
    end in
  let parameters :=
    match parameters !! "temperature" with
    | Some _ => <["temperature" := VInt 1]> parameters
    | None => parameters
    end in
  fold_left (fun parameters param => delete param parameters)
            ["presence_penalty"; "top_p"] parameters.

(** [JSON_OBJECT_RESPONSE_MODELS] *)
Definition JSON_OBJECT_RESPONSE_MODELS : list string :=
  ["gpt-4o-2024-08-06"; "gpt-4o-2024-11-20"; "gpt-4o-realtime-preview";
   "gpt-4o-mini-realtime-preview"; "gpt-4o"; "gpt-4o-mini";
   "gpt-3.5-turbo-0125"].

(** [self.model_name.startswith("gpt-4-") or self.model_name in
    JSON_OBJECT_RESPONSE_MODELS] *)
Definition supports_json_object (model_name : string) : bool :=
  Py.startswith model_name "gpt-4-"
  || existsb (String.eqb model_name) JSON_OBJECT_RESPONSE_MODELS.

Definition response_marker : string :=
  String (ascii_of_nat 10) "Start your response with: ".

(** [_, right = prompt.split(marker)] and [right.strip()]: the unpacking
    raises [ValueError], which [generate] passes over, unless the marker
    occurs exactly once. *)
Definition expected_response (prompt : string) : option string :=
  match Py.split1 response_marker prompt with
  | Some (_, right') =>
      if Py.contains response_marker right' then None else Some (Py.strip right')
  | None => None
  end.

(** The [dict] that asks the API for a JSON object. *)
Definition json_object : pyval := VDict [("type", "json_object")].

(** The first step of [OpenAIClient.generate] on the parameter [dict]:
    [response_format] is set when the prompt asks for a response that
    starts with a brace and the model can be held to a JSON object. *)
Definition response_format_parameters (model_name prompt : string)
  (parameters : dict) : dict :=
  match expected_response prompt with
  | Some expected =>
      if Py.startswith expected "{" && supports_json_object model_name
      then <["response_format" := json_object]> parameters
      else parameters
  | None => parameters
  end.

(** The parameters that [OpenAIClient.generate] passes to the API, from
    the prompt and the parameters [_send_prompt] hands it, once an API key
    or an endpoint override is configured. *)
Definition openai_request_parameters (model_name prompt : string)
  (parameters : dict) : dict :=
  let parameters := response_format_parameters model_name prompt parameters in
  if is_reasoning_model model_name then reasoning_model_parameters parameters
  else parameters.

End Parameters.

(** ** The creator agent's assistant ([agents/creator/assistant.py]) *)

Module Assistant.

(** [ContentGenerationContext.computed_context]:
    [typ, context = self.context.split(":", 1)].  Without a colon the
    unpacking raises [ValueError], a subclass of [Exception]. *)
Definition computed_context (context : string) : result (string * string) :=
  match Py.split1 ":" context with
  | Some (typ, context) => Ok (typ, context)
  | None => Raise (Exception "ValueError: not enough values to unpack")
  end.

(** The [context] that [generate_character_attribute] passes on. *)
Definition character_attribute_context (attribute_name : string) : string :=
  "character attribute:" ++ attribute_name.

(** The [context] that [generate_character_detail] passes on. *)
Definition character_detail_context (detail_name : string) : string :=
  "character detail:" ++ detail_name.

(** The [context] that [generate_thematic_list] passes on. *)
Definition thematic_list_context : string := "list:".

End Assistant.

(** ** Automatic revision ([revision_on_generation] in [revision.py]) *)

Module Automatic.

Import Revision.

Local Open Scope result_scope.

Inductive emission_class :=
| ConversationAgentEmission
| NarratorAgentEmission
| ContextualGenerateEmission
| SummarizeEmission
| LayeredHistoryFinalizeEmission.

(** An emission, as far as [revision_on_generation] looks at it. *)
Record Emission := {
  class : emission_class;
  response : string;
  (** [getattr(emission, "character", None)] *)
  emission_character : option Character;
  (** [content_generation_context.context] of a
      [ContextualGenerateEmission] *)
  context : string;
  (** [getattr(emission, "context_type", None)] and
      [getattr(emission, "context_name", None)] of the other classes *)
  context_type_attribute : option string;
  context_name_attribute : option string;
  (** of a [SummarizeEmission] *)
  summarization_type : string;
  (** of a [SummarizeEmission] or a [LayeredHistoryFinalizeEmission] *)
  emission_summarization_history : option (list string) }.

(** The settings of the revision action that the handler reads, and the
    value of [revision_disabled_context]. *)
Record Settings := {
  revision_enabled : bool;
  revision_automatic_enabled : bool;
  revision_automatic_targets : list string;
  revision_disabled : bool }.

Definition CONTEXTUAL_GENERATION_TYPES : list string :=
  ["character attribute"; "character detail"; "world context"; "scene intro"].

(** [x in l] for a list of strings *)
Definition mem (x : string) (l : list string) : bool :=
  existsb (String.eqb x) l.

Definition is_class (c : emission_class) (emission : Emission) : bool :=
  match class emission, c with
  | ConversationAgentEmission, ConversationAgentEmission => true
  | NarratorAgentEmission, NarratorAgentEmission => true
  | ContextualGenerateEmission, ContextualGenerateEmission => true
  | SummarizeEmission, SummarizeEmission => true
  | LayeredHistoryFinalizeEmission, LayeredHistoryFinalizeEmission => true
  | _, _ => false
  end.

(** [emission.context_type] and [emission.context_name]: computed
    properties of a [ContextualGenerateEmission], plain attributes
    otherwise. *)
Definition context_of (emission : Emission)
  : result (option string * option string) :=
  if is_class ContextualGenerateEmission emission
  then let! (typ, context) := Assistant.computed_context (context emission) in
       Ok (Some typ, Some context)
  else Ok (context_type_attribute emission, context_name_attribute emission).

(** [revision_on_generation]: the value of [emission.response] when the
    handler returns. *)
Definition revision_on_generation (self : Editor) (settings : Settings)
  (emission : Emission) : result string :=
  let targets := revision_automatic_targets settings in
  if negb (revision_enabled settings) || negb (revision_automatic_enabled settings)
  then Ok (response emission)
  else if is_class ContextualGenerateEmission emission
          && negb (mem "contextual_generation" targets)
  then Ok (response emission)
  else if is_class ConversationAgentEmission emission
          && negb (mem "character" targets)
  then Ok (response emission)
  else if is_class NarratorAgentEmission emission
          && negb (mem "narrator" targets)
  then Ok (response emission)
  else if is_class SummarizeEmission emission
          && ((String.eqb (summarization_type emission) "dialogue"
               && negb (mem "summarization" targets))
              || String.eqb (summarization_type emission) "events")
  then Ok (response emission)
  else if is_class LayeredHistoryFinalizeEmission emission
          && negb (mem "summarization" targets)
  then Ok (response emission)
  else if revision_disabled settings then Ok (response emission)
  else
    let! (context_type, context_name) := context_of emission in
    let info :=
      {| text := response emission;
         character := emission_character emission;
         context_type := context_type;
         context_name := context_name;
         summarization_history :=
           if is_class SummarizeEmission emission
              || is_class LayeredHistoryFinalizeEmission emission
           then Some (default [] (emission_summarization_history emission))
           else None |} in
    if is_class ContextualGenerateEmission emission
       && negb (match context_type with
                | Some typ => mem typ CONTEXTUAL_GENERATION_TYPES
                | None => false
                end)
    then Ok (response emission)
    else Ok (revision_revise self info).

End Automatic.

(** ** The director's dynamic actions ([agents/director/generate_choices.py]) *)

Module Director.

(** A message of the scene history, as far as the director looks at it:
    a [NarratorMessage], a [CharacterMessage] with its [source], or a
    message of another class. *)
Inductive message :=
| NarratorMessage
| CharacterMessage (source : string)
| OtherMessage.

(** The loop of [on_player_turn_start] over the history from its last
    message backwards: [true] when it ends in [return]. *)
Fixpoint scan_backwards (reversed : list message) : bool :=
  match reversed with
  | [] => false
  | NarratorMessage :: _ => false
  | CharacterMessage source :: _ => String.eqb source "player"
  | OtherMessage :: earlier => scan_backwards earlier
  end.

(** [on_player_turn_start]: whether [generate_choices] is called, for a
    draw [random.random()]. *)
Definition on_player_turn_start (enabled generate_choices_enabled : bool)
  (history : list message) (generate_choices_chance draw : Q) : bool :=
  if negb enabled then false
  else if generate_choices_enabled
       then if scan_backwards (rev history) then false
            else Num.ltb draw generate_choices_chance
       else false.

(** [s.lstrip(c)], [s.rstrip(c)] and [s.strip(c)] for one character. *)
Fixpoint lstrip_chr (c : ascii) (s : string) : string :=
  match s with
  | EmptyString => EmptyString
  | String x s' => if Ascii.eqb x c then lstrip_chr c s' else s
  end.

Fixpoint rstrip_chr (c : ascii) (s : string) : string :=
  match s with
  | EmptyString => EmptyString
  | String x s' =>
      match rstrip_chr c s' with
      | EmptyString => if Ascii.eqb x c then EmptyString else String x EmptyString
      | r => String x r
      end
  end.

Definition strip_chr (c : ascii) (s : string) : string :=
  rstrip_chr c (lstrip_chr c s).

(** [l[:n]] *)
Definition slice_to {A} (l : list A) (n : Z) : list A :=
  if (n <? 0)%Z then take (length l - Z.to_nat (- n)) l
  else take (Z.to_nat n) l.

(** The double quote. *)
Definition quote : ascii := ascii_of_nat 34.

(** The [try] block of [generate_choices] and what follows it: the choices
    handed to [emit("player_choice", ...)], or [None] when the method
    returns without emitting.  [extract_list] is [util.extract_list]. *)
Definition generate_choices (extract_list : string -> result (list string))
  (generate_choices_num_choices : Z) (response : string)
  : option (list string) :=
  match Py.split1 "ACTIONS:" response with
  | None => None
  | Some (_, choice_text) =>
      match extract_list choice_text with
      | Raise _ => None
      | Ok choices =>
          let choices := map (fun choice => strip_chr quote (Py.strip choice))
                             choices in
          Some (slice_to choices generate_choices_num_choices)
      end
  end.

End Director.

(** ** Request records ([RequestInformation] in [client/base.py]) *)

Module Telemetry.

(** [RequestInformation] with all its fields.  The computed fields read
    the clock; [now] is what [time.time()] returns. *)
Record RequestInformation := {
  start_time : Q;
  end_time : option Q;
  tokens : Z }.

(** Truthiness of a [float] and of a [float | None]. *)
Definition truthy (x : Q) : bool := negb (Qeq_bool x 0).

Definition truthy_opt (x : option Q) : bool :=
  match x with
  | Some x => truthy x
  | None => false
  end.

(** [self.end_time or time.time()] *)
Definition end_time_or (r : RequestInformation) (now : Q) : Q :=
  match end_time r with
  | Some e => if truthy e then e else now
  | None => now
  end.

Definition duration (r : RequestInformation) (now : Q) : Q :=
  (end_time_or r now - start_time r)%Q.

(** [rate]: the division raises [ZeroDivisionError] on a zero divisor,
    which the [except] clause turns into the result 0. *)
Definition rate (r : RequestInformation) (now : Q) : Q :=
  let elapsed := (end_time_or r now - start_time r)%Q in
  if Qeq_bool elapsed 0 then 0%Q else (inject_Z (tokens r) / elapsed)%Q.

Definition status (r : RequestInformation) (now : Q) : string :=
  if truthy_opt (end_time r) then "completed"
  else if truthy (start_time r)
       then if Num.ltb 1 (duration r now) && Qeq_bool (rate r now) 0
            then "stopped" else "in progress"
       else "pending".

Definition age (r : RequestInformation) (now : Q) : Q :=
  if negb (truthy_opt (end_time r)) then (-1)%Q
  else match end_time r with
       | Some e => (now - e)%Q
       | None => (-1)%Q
       end.

(** [ClientBase.update_request_tokens]: the record afterwards. *)
Definition update_request_tokens (request_information : option RequestInformation)
  (count : Z) (replace : bool) : option RequestInformation :=
  match request_information with
  | Some r =>
      Some {| start_time := start_time r;
              end_time := end_time r;
              tokens := if replace then count else (tokens r + count)%Z |}
  | None => None
  end.

End Telemetry.

(** ** Further scenarios *)

Module Scenarios.

Import Revision Client Samples.

(** A scene that is never interrupted and a request whose preparation
    fails: the conversation context holds no [other_characters] for
    [tune_prompt_parameters_conversation]. *)
Definition failing_env : Env :=
  {| scene_at := fun _ => Scene true false;
     provider := fun _ _ _ =>
       {| duration := 20%nat; outcome := Ok "The hero drew his sword." |};
     random := fun _ => 1 # 2;
     pop_poll_first := true;
     similarity_score := fun _ _ _ => (false, 0%Q, EmptyString);
     dedupe_sentences := fun t _ _ => t;
     strip_partial_sentences := fun t => t;
     jiggle_enabled_for := fun _ => true;
     prepare := fun _ _ => Raise (KeyError "other_characters") |}.

(** The sample client, switched off. *)
Definition disabled_client : ClientBase :=
  {| client_type := base; enabled := false;
     auto_break_repetition_enabled := true;
     max_tokens_param_name := "max_tokens" |}.

(** Sampling parameters of a TabbyAPI request. *)
Definition tabby_parameters : dict :=
  {[ "temperature" := VFloat (7 # 10);
     "presence_penalty" := VFloat (2 # 10);
     "max_tokens" := VInt 100 ]}.

(** A prompt that asks for a JSON object. *)
Definition json_prompt : string :=
  "Describe the room." ++ Parameters.response_marker ++ "{".

(** A world in which the parameter object 0 holds them. *)
Definition tabby_world : World :=
  {| now := 0%nat; heap := {[ 0%nat := tabby_parameters ]}; next_loc := 1%nat;
     rate_limit_counter := None; request_information := None; emitted := [];
     calls := 1%nat; dispatched := []; cancelled := []; draws := 0%nat |}.

(** A world whose parameter object 0 has no temperature. *)
Definition bare_world : World :=
  {| now := 0%nat; heap := {[ 0%nat := {[ "max_tokens" := VInt 100 ]} ]};
     next_loc := 1%nat;
     rate_limit_counter := None; request_information := None; emitted := [];
     calls := 1%nat; dispatched := []; cancelled := []; draws := 0%nat |}.



(** An editor that does not split sentences on commas and whose scene has
    a writing style with one unwanted phrase. *)
Definition strict_editor : Editor :=
  {| revision_method := rewrite;
     revision_repetition_detection_method := fuzzy;
     revision_min_issues := 1;
     revision_split_on_comma := false;
     revision_detect_bad_prose_enabled := true;
     revision_detect_bad_prose_threshold := 7 # 10;
     writing_style := Some [unwanted "sword"];
     _revision_evaluate_fuzzy_similarity := fun _ _ => Ok [];
     _revision_evaluate_semantic_similarity := fun _ _ => Ok [];
     compile_text_to_sentences := fun t => [(t, t)];
     split_sentences_on_comma := fun l => l;
     dedupe_sentences_from_matches := fun t _ => t;
     memory_agent := None;
     re_compile := fun p => Ok (Rx.literal p);
     revise_after := fun r => r;
     analysis_after := fun r => r;
     analysis_request := fun _ _ => Ok "analysis";
     focal_request := fun _ _ => Ok [];
     get_cached_analysis := fun _ => Ok tt;
     unslop_request := fun _ _ _ => Ok EmptyString;
     float_str := fun _ => "100.0" |}.

(** The supported parameters of a client that takes the token limit
    under another name. *)
Definition rerouting_supported_parameters : list Parameters.parameter :=
  [Parameters.Name "temperature";
   Parameters.ParameterReroute "max_tokens" "max_new_tokens"].

(** Automatic revision switched on for every target. *)
Definition revise_everything : Automatic.Settings :=
  {| Automatic.revision_enabled := true;
     Automatic.revision_automatic_enabled := true;
     Automatic.revision_automatic_targets :=
       ["character"; "narrator"; "contextual_generation"; "summarization"];
     Automatic.revision_disabled := false |}.

Definition contextual_emission (context response : string) : Automatic.Emission :=
  {| Automatic.class := Automatic.ContextualGenerateEmission;
     Automatic.response := response;
     Automatic.emission_character := None;
     Automatic.context := context;
     Automatic.context_type_attribute := None;
     Automatic.context_name_attribute := None;
     Automatic.summarization_type := EmptyString;
     Automatic.emission_summarization_history := None |}.

(** What the contextual generator emits for a thematic list. *)
Definition thematic_list_emission : Automatic.Emission :=
  contextual_emission Assistant.thematic_list_context "Swords, shields, spears".

(** What it emits for the attribute named [eyes: colour]. *)
Definition eye_colour_emission : Automatic.Emission :=
  contextual_emission (Assistant.character_attribute_context "eyes: colour")
    "Green".

(** What the summarizer emits for a summary of events. *)
Definition events_summary_emission : Automatic.Emission :=
  {| Automatic.class := Automatic.SummarizeEmission;
     Automatic.response := "They met at dawn.";
     Automatic.emission_character := None;
     Automatic.context := EmptyString;
     Automatic.context_type_attribute := None;
     Automatic.context_name_attribute := None;
     Automatic.summarization_type := "events";
     Automatic.emission_summarization_history := Some [] |}.

End Scenarios.

(** * Properties *)

Example py_split1_fix :
  Py.split1 "<FIX>" "ok <FIX>new text</FIX> bye" = Some ("ok ", "new text</FIX> bye").
Proof. reflexivity. Qed.

Example py_strip_ex : Py.strip (String (ascii_of_nat 10) "  a b  ") = "a b".
Proof. reflexivity. Qed.

Example py_replace_ex : Py.replace "**" "" "a****b***c" = "ab*c".
Proof. reflexivity. Qed.

Example py_split_chr_ex : Py.split_chr "|" "[$REPETITION|abc]" = ["[$REPETITION"; "abc]"].
Proof. reflexivity. Qed.

Example py_lower_ex : Py.lower "UnWanted" = "unwanted".
Proof. reflexivity. Qed.

Example rx_search_from_offset :
  Rx.search false (Rx.literal "hello") "Hello hello" Rx.IGNORECASE = Some 6%nat
  /\ Rx.search false (Rx.literal "hello") "hello" Rx.IGNORECASE = None.
Proof. split; reflexivity. Qed.

Example repetition_adjustment_marks :
  Client.repetition_adjustment
    ("a" ++ Client.newline ++ "[$REPETITION|Do not repeat x]" ++ Client.newline ++ "b")
    true
  = "a" ++ Client.newline ++ "Do not repeat x" ++ Client.newline ++ "b".
Proof. reflexivity. Qed.

Example repetition_adjustment_clears :
  Client.repetition_adjustment
    ("a" ++ Client.newline ++ "[$REPETITION|Do not repeat x]" ++ Client.newline ++ "b")
    false
  = "a" ++ Client.newline ++ Client.newline ++ "b".
Proof. reflexivity. Qed.

(** Two requests per minute: the third [increment] of a window is denied,
    and one made after the window has elapsed is granted. *)
Example limiter_two_per_minute :
  let l0 := {| Client.rate_per_minute := 2; Client.count := 0;
               Client.window_start := 0%nat |} in
  let l1 := snd (Client.increment 0 l0) in
  let l2 := snd (Client.increment 10 l1) in
  fst (Client.increment 0 l0) = true
  /\ fst (Client.increment 10 l1) = true
  /\ fst (Client.increment 20 l2) = false
  /\ fst (Client.increment 600 l2) = true.
Proof. repeat split; reflexivity. Qed.

(** ** Numbers *)

Lemma ltb_lt (x y : Q) : Num.ltb x y = true <-> (x < y)%Q.
Proof.
  unfold Num.ltb. rewrite Qlt_alt. destruct (x ?= y)%Q; split; congruence.
Qed.

Lemma ltb_ge (x y : Q) : Num.ltb x y = false <-> (y <= x)%Q.
Proof.
  unfold Num.ltb. rewrite Qge_alt. destruct (x ?= y)%Q; split; congruence.
Qed.

(** Rounding half-to-even sends everything above [n + 1/2] above [n]. *)
Lemma round_half_even_gt (x : Q) (n : Z) :
  (inject_Z n + (1 # 2) < x)%Q -> (n < Num.round_half_even x)%Z.
Proof.
  intros H. unfold Num.round_half_even, Num.floor, Num.of_Z.
  pose proof (Qfloor_le x) as H1. pose proof (Qlt_floor x) as H2.
  set (f := Qfloor x) in *. rewrite inject_Z_plus in H2.
  assert (Hnf : (n < f + 1)%Z).
  { rewrite Zlt_Qlt, inject_Z_plus. lra. }
  destruct (Num.ltb (x - inject_Z f) (1 # 2)) eqn:Ha.
  - apply ltb_lt in Ha. rewrite Zlt_Qlt. lra.
  - destruct (Num.ltb (1 # 2) (x - inject_Z f)) eqn:Hb; [lia|].
    apply ltb_ge in Ha, Hb.
    assert (Hlt : (n < f)%Z) by (rewrite Zlt_Qlt; lra).
    destruct (Z.even f); lia.
Qed.

(** ** Revision *)

Section RevisionFacts.

Import Revision.

Context (self : Editor).

(** A shrink beyond 90.005 % is a rounded reduction above 90. *)
Lemma reduction_above (original_length deduped_length : Z) :
  (0 < original_length)%Z ->
  (18001 * original_length < 20000 * (original_length - deduped_length))%Z ->
  exists r, reduction original_length deduped_length = Ok r
            /\ Num.ltb (Num.of_Z 90) r = true.
Proof.
  intros Hpos H. unfold reduction, Num.truediv.
  destruct (original_length =? 0)%Z eqn:Hz; [apply Z.eqb_eq in Hz; lia|].
  cbn [rbind]. eexists; split; [reflexivity|].
  apply ltb_lt. unfold Num.round, Num.of_Z.
  change (10 ^ Z.of_nat 2)%Z with 100%Z.
  apply Qlt_shift_div_l; [reflexivity|].
  change (inject_Z 90 * inject_Z 100)%Q with (inject_Z 9000).
  rewrite <- Zlt_Qlt. apply round_half_even_gt.
  rewrite Zlt_Qlt in Hpos, H. rewrite !inject_Z_mult in H.
  set (a := inject_Z (original_length - deduped_length)) in *.
  set (b := inject_Z original_length) in *.
  change (inject_Z 0) with 0%Q in Hpos.
  assert (Hb : ~ b == 0) by lra.
  assert (Heq : (a / b * inject_Z 100 * inject_Z 100 == (a * 10000) / b)%Q).
  { change (inject_Z 100) with (100 # 1). field. exact Hb. }
  rewrite Heq. apply Qlt_shift_div_l; [lra|].
  change (inject_Z 9000) with (9000 # 1).
  change (inject_Z 18001) with (18001 # 1) in H.
  change (inject_Z 20000) with (20000 # 1) in H. lra.
Qed.


Lemma len_nonneg (s : string) : (0 <= len s)%Z.
Proof. unfold len. lia. Qed.

Lemma len_zero (s : string) : len s = 0%Z -> s = EmptyString.
Proof. destruct s; [reflexivity|]. unfold len. cbn. lia. Qed.

(** Repetition detection does not depend on the bad-prose flag. *)
Lemma collect_issues_matches (t : string) (c : option Character)
  (flag : bool) (issues : Issues) :
  revision_collect_issues self t c flag = Ok issues ->
  forall flag', exists issues',
    revision_collect_issues self t c flag' = Ok issues'
    /\ repetition_matches issues' = repetition_matches issues.
Proof.
  unfold revision_collect_issues. intros H flag'.
  destruct (match revision_repetition_detection_method self with
            | fuzzy => _ | semantic_similarity => _ end) as [ms|e];
    cbn [rbind] in *; [|discriminate].
  injection H as <-. eexists; split; reflexivity.
Qed.

(** The log holds one line per repetition match and per finding. *)
Lemma collect_issues_log (t : string) (c : option Character)
  (flag : bool) (issues : Issues) :
  revision_collect_issues self t c flag = Ok issues ->
  length (log issues)
  = (length (repetition_matches issues) + length (bad_prose issues))%nat.
Proof.
  unfold revision_collect_issues. intros H.
  destruct (match revision_repetition_detection_method self with
            | fuzzy => _ | semantic_similarity => _ end) as [ms|e];
    cbn [rbind] in *; [|discriminate].
  injection H as <-. unfold log. cbn.
  rewrite length_app, !length_map. reflexivity.
Qed.

End RevisionFacts.

Section RevisionMethods.

Import Revision.

Context (self : Editor) (info : RevisionInformation).

Let stripped : string := strip_character_name (text info) (character info).

(** [dedupe] hands the text back when no repetition was matched. *)
Lemma dedupe_without_matches (issues : Issues) :
  revision_collect_issues self stripped (character info) false = Ok issues ->
  repetition_matches issues = [] ->
  revision_dedupe self info = Ok (text info).
Proof.
  intros Hc Hm. unfold revision_dedupe. fold stripped.
  rewrite Hc. cbn [rbind]. rewrite Hm. reflexivity.
Qed.

(** [rewrite] hands the text back when the issue log is empty. *)
Lemma rewrite_without_issues (issues : Issues) :
  revision_collect_issues self stripped (character info) true = Ok issues ->
  repetition_matches issues = [] -> bad_prose issues = [] ->
  revision_rewrite self info = Ok (text info).
Proof.
  intros Hc Hm Hb. unfold revision_rewrite. fold stripped.
  rewrite Hc. cbn [rbind].
  rewrite (collect_issues_log _ _ _ _ _ Hc), Hm, Hb. reflexivity.
Qed.

(** [rewrite] hands the text back when fewer issues than the configured
    minimum were found. *)
Lemma rewrite_below_minimum (issues : Issues) :
  revision_collect_issues self stripped (character info) true = Ok issues ->
  (Z.of_nat (length (log issues)) < revision_min_issues self)%Z ->
  revision_rewrite self info = Ok (text info).
Proof.
  intros Hc Hlt. unfold revision_rewrite. fold stripped.
  rewrite Hc. cbn [rbind].
  destruct (Z.of_nat (length (log issues)) =? 0)%Z; [reflexivity|].
  apply Z.ltb_lt in Hlt. rewrite Hlt. reflexivity.
Qed.


(** How [unslop] treats the response [response] of the model. *)
Definition unslop_answer (response : string) : Prop :=
  exists issues,
    revision_collect_issues self stripped (character info) true = Ok issues
    /\ get_cached_analysis self
         (match character info with Some _ => true | None => false end) = Ok tt
    /\ unslop_request self (unslop_template info) stripped issues = Ok response.

Lemma unslop_unfold (response : string) :
  unslop_answer response ->
  revision_unslop self info =
    if negb (Py.contains "<FIX>" response) then Ok (text info)
    else
      let fix' := after_open_tag response in
      let continue (fix' : string) :=
        if negb (Py.truthy fix') then Ok (text info)
        else Ok (reattach_if_missing
                   (character_name_prefix (text info) (character info))
                   (character info) (revise_after self (Py.strip fix'))) in
      if Py.contains "</FIX>" fix' then continue (Py.split_head "</FIX>" fix')
      else if Py.contains "<" fix' then Ok (text info)
      else continue fix'.
Proof.
  intros (issues & Hc & Hs & Hr). unfold revision_unslop. fold stripped.
  rewrite Hc. cbn [rbind]. rewrite Hs. cbn [rbind]. rewrite Hr. reflexivity.
Qed.





(** The patch that [unslop] finds in a response: what lies between the
    first [<FIX>] and the [</FIX>] that follows it, or all that follows
    [<FIX>] when neither [</FIX>] nor another tag does; none when the
    response has no [<FIX>], when another tag follows an unclosed [<FIX>],
    or when nothing is left. *)
Definition extracted_patch (response : string) : option string :=
  let nonempty (fix' : string) :=
    if Py.truthy fix' then Some fix' else None in
  if Py.contains "<FIX>" response
  then if Py.contains "</FIX>" (after_open_tag response)
       then nonempty (Py.split_head "</FIX>" (after_open_tag response))
       else if Py.contains "<" (after_open_tag response) then None
            else nonempty (after_open_tag response)
  else None.

(** [unslop] decides on the response alone: the original text without a
    patch, the patch otherwise. *)
Lemma unslop_by_patch (response : string) :
  unslop_answer response ->
  revision_unslop self info
  = Ok match extracted_patch response with
       | None => text info
       | Some patch =>
           reattach_if_missing
             (character_name_prefix (text info) (character info))
             (character info) (revise_after self (Py.strip patch))
       end.
Proof.
  intros Ha. rewrite (unslop_unfold _ Ha). unfold extracted_patch.
  destruct (Py.contains "<FIX>" response); cbn [negb]; [|reflexivity].
  cbv zeta.
  destruct (Py.contains "</FIX>" (after_open_tag response)).
  - destruct (Py.truthy (Py.split_head "</FIX>" (after_open_tag response)));
      reflexivity.
  - destruct (Py.contains "<" (after_open_tag response)); [reflexivity|].
    destruct (Py.truthy (after_open_tag response)); reflexivity.
Qed.




End RevisionMethods.

Import Revision Samples.

(** C2 (as amended).  On a text for which issue collection finds no
    repetition match and no bad-prose finding, the dedupe and the rewrite
    method return the text unchanged.  The unslop method has no such
    guard: it requests a patch all the same and decides on the response
    alone.  It returns the text unchanged when the response holds no patch
    (no opening delimiter, another tag after an unclosed opening delimiter,
    nothing between the two delimiters, or nothing after an unclosed
    opening delimiter), and when the response holds a patch that is not
    blank it returns that patch instead of the text: trimmed, passed to the
    listeners of the revision, and with the speaker prefix put back. *)
Theorem zero_issues_revision_methods
  (self : Editor) (info : RevisionInformation) (issues : Issues) :
  revision_collect_issues self
    (strip_character_name (text info) (character info)) (character info) true
    = Ok issues ->
  repetition_matches issues = [] ->
  bad_prose issues = [] ->
  revision_dedupe self info = Ok (text info)
  /\ revision_rewrite self info = Ok (text info)
  /\ forall response,
       get_cached_analysis self
         (match character info with Some _ => true | None => false end) = Ok tt ->
       unslop_request self (unslop_template info)
         (strip_character_name (text info) (character info)) issues
       = Ok response ->
       (extracted_patch response = None ->
        revision_unslop self info = Ok (text info))
       /\ (forall patch,
             extracted_patch response = Some patch ->
             Py.strip patch <> EmptyString ->
             revision_unslop self info
             = Ok (reattach_if_missing
                     (character_name_prefix (text info) (character info))
                     (character info) (revise_after self (Py.strip patch)))).
Proof.
  intros Hc Hm Hb. split; [|split].
  - destruct (collect_issues_matches _ _ _ _ _ Hc false) as (issues' & Hc' & Hm').
    apply (dedupe_without_matches self info issues' Hc'). congruence.
  - exact (rewrite_without_issues self info issues Hc Hm Hb).
  - intros response Hs Hr.
    assert (Ha : unslop_answer self info response)
      by (exists issues; repeat split; assumption).
    rewrite (unslop_by_patch self info response Ha).
    split.
    + intros ->. reflexivity.
    + intros patch -> _. reflexivity.
Qed.

Lemma zero_issues_revision_methods_witness :
  revision_dedupe (editor unslop [] "<FIX>Bye.</FIX>" [] 0)
    (narration "Hello there.") = Ok "Hello there."
  /\ revision_rewrite (editor unslop [] "<FIX>Bye.</FIX>" [] 0)
       (narration "Hello there.") = Ok "Hello there."
  /\ revision_unslop (editor unslop [] "<FIX>Bye.</FIX>" [] 0)
       (narration "Hello there.") = Ok "Bye.".
Proof.
  destruct (zero_issues_revision_methods
              (editor unslop [] "<FIX>Bye.</FIX>" [] 0) (narration "Hello there.")
              no_issue_report eq_refl eq_refl eq_refl) as (Hd & Hr & Hu).
  split; [exact Hd|]. split; [exact Hr|].
  apply (proj2 (Hu "<FIX>Bye.</FIX>" eq_refl eq_refl) "Bye.").
  - reflexivity.
  - discriminate.
Defined.

(** C2 (as stated) fails for unslop: no issue is found in the text, yet the
    patch of the model replaces it. *)
Lemma unslop_rewrites_issue_free_text :
  revision_collect_issues (editor unslop [] "<FIX>Bye.</FIX>" [] 0)
    "Hello there." None true = Ok no_issue_report
  /\ revision_unslop (editor unslop [] "<FIX>Bye.</FIX>" [] 0)
       (narration "Hello there.") = Ok "Bye."
  /\ revision_revise (editor unslop [] "<FIX>Bye.</FIX>" [] 0)
       (narration "Hello there.") <> "Hello there.".
Proof. split; [reflexivity|split; [reflexivity|discriminate]]. Qed.

(** C3 (what the code does).  A patch made of blanks only passes the
    emptiness test, which comes before the trimming, and the revision
    answers with the empty string instead of the original text. *)
Theorem unslop_blank_patch_yields_empty_text :
  revision_revise (editor unslop [] "<FIX>   </FIX>" [] 0)
    (narration "Hello there.") = EmptyString
  /\ revision_revise
       (editor unslop [] ("<FIX>" ++ String (ascii_of_nat 10) EmptyString) [] 0)
       (narration "Hello there.") = EmptyString.
Proof. split; reflexivity. Qed.

(** What the regex detector does: a sentence is flagged exactly when the
    phrase is classified unwanted and its pattern, taken case-sensitively,
    matches somewhere from index 2 on. *)
Lemma bad_prose_regex_flags (self : Editor) (s : string) (ph : PhraseDetection)
  (pattern : Rx.regex) :
  re_compile self (phrase ph) = Ok pattern ->
  _revision_detect_bad_prose_regex self (SStr s) ph <> Ok []
  <-> Py.lower (classification ph) = "unwanted"
      /\ Rx.search false pattern s 2 <> None.
Proof.
  intros Hc. unfold _revision_detect_bad_prose_regex.
  destruct (String.eqb_spec (Py.lower (classification ph)) "unwanted") as [He|He];
    cbn [negb].
  - rewrite Hc. cbn [rbind]. change Rx.IGNORECASE with 2%nat.
    destruct (Rx.search false pattern s 2).
    + split; [intros _; split; [exact He|discriminate]|intros _; discriminate].
    + split; [intros H; contradiction|intros [_ H]; contradiction].
  - split; [intros H; contradiction|intros [H _]; contradiction].
Qed.

(** C5 (what the code does).  The pattern is compiled without a flag and
    [re.IGNORECASE] (2) is taken as the start index of the search: a match
    that differs in letter case is missed, and so is a match that starts
    in the first two characters, although a case-insensitive search over the
    whole sentence finds both. *)
Theorem bad_prose_regex_case_and_offset :
  _revision_detect_bad_prose_regex (editor rewrite [] "" [] 0)
    (SStr "He gave a Knowing Smile.") (unwanted "knowing smile") = Ok []
  /\ Rx.search true (Rx.literal "knowing smile") "He gave a Knowing Smile." 0
     = Some 10%nat
  /\ _revision_detect_bad_prose_regex (editor rewrite [] "" [] 0)
       (SStr "Suddenly it rained.") (unwanted "Suddenly") = Ok []
  /\ Rx.search true (Rx.literal "Suddenly") "Suddenly it rained." 0 = Some 0%nat.
Proof. repeat split; reflexivity. Qed.

(** C7 (as amended).  When the text left by dedupe (after the empty quote
    and emphasis markers are removed) is shorter than the prefix-stripped
    text by more than 90.005 % of its length, so that the reduction rounded
    to two decimals is above 90, the revision returns the original input
    text. *)
Theorem dedupe_reverts_above_threshold
  (self : Editor) (info : RevisionInformation) (issues : Issues) :
  revision_collect_issues self
    (strip_character_name (text info) (character info)) (character info) false
    = Ok issues ->
  repetition_matches issues <> [] ->
  (18001 * len (strip_character_name (text info) (character info))
   < 20000 * (len (strip_character_name (text info) (character info))
              - len (Py.replace "**" ""
                       (Py.replace empty_quotes ""
                          (revise_after self
                             (dedupe_sentences_from_matches self
                                (strip_character_name (text info) (character info))
                                (repetition_matches issues)))))))%Z ->
  revision_dedupe self info = Ok (text info).
Proof.
  intros Hc Hm H. unfold revision_dedupe. rewrite Hc. cbn [rbind].
  destruct (repetition_matches issues) as [|m ms] eqn:Hms; [contradiction|].
  rewrite <- Hms in *. clear Hms m ms Hm.
  set (stripped := strip_character_name (text info) (character info)) in *.
  set (cleaned := Py.replace "**" "" _) in *.
  pose proof (len_nonneg stripped). pose proof (len_nonneg cleaned).
  destruct (reduction_above (len stripped) (len cleaned)) as (r & Hr & Hlt);
    [lia|exact H|].
  rewrite Hr. cbn [rbind]. rewrite Hlt. reflexivity.
Qed.

Lemma dedupe_reverts_above_threshold_witness :
  revision_dedupe (editor dedupe ["a"] "" [] 1) (narration (letters 20))
  = Ok (letters 20).
Proof.
  apply (dedupe_reverts_above_threshold
           (editor dedupe ["a"] "" [] 1) (narration (letters 20))
           {| repetition := [repetition_of (one_match "a")];
              repetition_matches := [one_match "a"];
              bad_prose := [];
              repetition_log := [repetition_line (editor dedupe ["a"] "" [] 1)
                                   (one_match "a")];
              bad_prose_log := [] |}).
  - reflexivity.
  - discriminate.
  - vm_compute. reflexivity.
Defined.

(** C7 (as stated) fails just above 90 %: 2001 characters cut down to 200 is
    a reduction by 90.005 %, which rounds to 90.0, and the deduped text is
    returned. *)
Lemma dedupe_keeps_reduction_just_above_ninety :
  String.length (letters 2001) = 2001%nat
  /\ String.length (letters 200) = 200%nat
  /\ (90 * 2001 < 100 * (2001 - 200))%Z
  /\ revision_dedupe (editor dedupe ["a"] "" [] 200) (narration (letters 2001))
     = Ok (letters 200)
  /\ letters 200 <> letters 2001.
Proof.
  split; [vm_compute; reflexivity|].
  split; [vm_compute; reflexivity|].
  split; [lia|].
  split; [vm_compute; reflexivity|].
  intros H. apply (f_equal String.length) in H. vm_compute in H. discriminate.
Qed.




(** ** The cancellable dispatch *)

Section Race.

Import Client.

Context (E : Env).

Lemma poll_scan_first (n t0 k : nat) :
  k <= n ->
  interrupted (scene_at E (t0 + 3 * k)) = true ->
  (forall j, j < k -> interrupted (scene_at E (t0 + 3 * j)) = false) ->
  poll_scan E n t0 = Some (t0 + 3 * k).
Proof.
  revert t0 k. induction n as [|n IH]; intros t0 k Hk Hi Hfirst.
  - assert (k = 0) as -> by lia. cbn. rewrite Nat.add_0_r in Hi. rewrite Hi.
    f_equal. lia.
  - destruct k as [|k].
    + cbn [poll_scan]. rewrite Nat.add_0_r in Hi. rewrite Hi. f_equal. lia.
    + cbn [poll_scan]. pose proof (Hfirst 0 ltac:(lia)) as H0.
      rewrite Nat.add_0_r in H0. rewrite H0.
      replace (t0 + 3 * S k) with (t0 + 3 + 3 * k) in * by lia.
      apply IH; [lia|exact Hi|].
      intros j Hj. replace (t0 + 3 + 3 * j) with (t0 + 3 * S j) by lia.
      apply Hfirst. lia.
Qed.

Lemma poll_scan_none (n t0 : nat) :
  (forall k, k <= n -> interrupted (scene_at E (t0 + 3 * k)) = false) ->
  poll_scan E n t0 = None.
Proof.
  revert t0. induction n as [|n IH]; intros t0 H.
  - cbn. pose proof (H 0 ltac:(lia)) as H0. rewrite Nat.add_0_r in H0.
    rewrite H0. reflexivity.
  - cbn [poll_scan]. pose proof (H 0 ltac:(lia)) as H0.
    rewrite Nat.add_0_r in H0. rewrite H0. apply IH.
    intros k Hk. replace (t0 + 3 + 3 * k) with (t0 + 3 * S k) by lia.
    apply H. lia.
Qed.

(** The watch completes strictly first: it alone is done. *)
Lemma asyncio_wait_poll_first (t0 d tp : nat) :
  poll_completes_at E t0 tp -> tp < t0 + d ->
  asyncio_wait E t0 d = (tp, [task_poll], [task_generate]).
Proof.
  intros (k & -> & Hi & Hfirst) Hlt. unfold asyncio_wait.
  rewrite (poll_scan_first (d / 3) t0 k); [| |exact Hi|exact Hfirst].
  - apply Nat.ltb_lt in Hlt. rewrite Hlt. reflexivity.
  - apply Nat.div_le_lower_bound; lia.
Qed.

(** Generation completes strictly first: it alone is done. *)
Lemma asyncio_wait_generate_first (t0 d : nat) :
  poll_pending_through E t0 d ->
  asyncio_wait E t0 d = (t0 + d, [task_generate], [task_poll]).
Proof.
  intros H. unfold asyncio_wait. rewrite poll_scan_none; [reflexivity|].
  intros k Hk. apply H.
  pose proof (Nat.Div0.mul_div_le d 3). nia.
Qed.

End Race.

Import Client.

(** C1.  When the cancellation watch completes before generation does, the
    dispatch raises [GenerationCancelled], at the instant the watch
    completed, the generation task is cancelled and its result reaches no
    one.  When generation completes while the watch is still pending, the
    dispatch ends the way generation ended, at that instant, and the watch
    is cancelled. *)
Theorem cancellation_race (E : Env) (prompt_sent : string) (prompt_param : loc)
  (kind : string) (w : World) :
  (forall tp,
      poll_completes_at E (now w) tp ->
      tp < now w + duration (reply E prompt_sent prompt_param w) ->
      fst (dispatch E prompt_sent prompt_param kind w) = Raise GenerationCancelled
      /\ now (snd (dispatch E prompt_sent prompt_param kind w)) = tp
      /\ cancelled (snd (dispatch E prompt_sent prompt_param kind w))
         = (cancelled w ++ [task_generate])%list)
  /\ (poll_pending_through E (now w)
        (duration (reply E prompt_sent prompt_param w)) ->
      fst (dispatch E prompt_sent prompt_param kind w)
        = outcome (reply E prompt_sent prompt_param w)
      /\ now (snd (dispatch E prompt_sent prompt_param kind w))
         = now w + duration (reply E prompt_sent prompt_param w)
      /\ cancelled (snd (dispatch E prompt_sent prompt_param kind w))
         = (cancelled w ++ [task_poll])%list).
Proof.
  split.
  - intros tp Hp Hlt.
    unfold dispatch, bind, new_request, modify, _cancelable_generate.
    change (reply E prompt_sent prompt_param (set_request_information _ w))
      with (reply E prompt_sent prompt_param w).
    cbn [now set_request_information].
    rewrite (asyncio_wait_poll_first E _ _ tp Hp Hlt).
    cbn. split; [reflexivity|]. split; reflexivity.
  - intros Hp.
    unfold dispatch, bind, new_request, modify, _cancelable_generate.
    change (reply E prompt_sent prompt_param (set_request_information _ w))
      with (reply E prompt_sent prompt_param w).
    cbn [now set_request_information].
    rewrite (asyncio_wait_generate_first E _ _ Hp).
    cbn. destruct (outcome (reply E prompt_sent prompt_param w)); cbn;
      repeat split; reflexivity.
Qed.

Lemma cancellation_race_witness :
  (fst (dispatch (env 5) "Once upon a time" 0 "conversation" (world 2 0))
     = Raise GenerationCancelled
   /\ now (snd (dispatch (env 5) "Once upon a time" 0 "conversation" (world 2 0)))
      = 6
   /\ cancelled (snd (dispatch (env 5) "Once upon a time" 0 "conversation" (world 2 0)))
      = [task_generate])
  /\ (fst (dispatch (env 50) "Once upon a time" 0 "conversation" (world 2 0))
        = Ok "The hero drew his sword."
      /\ now (snd (dispatch (env 50) "Once upon a time" 0 "conversation" (world 2 0)))
         = 20
      /\ cancelled (snd (dispatch (env 50) "Once upon a time" 0 "conversation" (world 2 0)))
         = [task_poll]).
Proof.
  split.
  - apply (proj1 (cancellation_race (env 5) "Once upon a time" 0 "conversation"
                    (world 2 0)) 6).
    + exists 2. split; [reflexivity|]. split; [reflexivity|].
      intros [|[|j]] Hj; [reflexivity|reflexivity|lia].
    + cbn. lia.
  - apply (proj2 (cancellation_race (env 50) "Once upon a time" 0 "conversation"
                    (world 2 0))).
    intros k Hk. change (3 * k <= 20) in Hk.
    change (false || (50 <=? 0 + 3 * k)%nat = false).
    apply Nat.leb_gt. lia.
Defined.

(** ** The repetition-break loop *)

Local Open Scope world_scope.

Lemma retry_loop_unfold (E : Env) (self : ClientBase) (prompt_param : loc)
  (kind : string) (pad_max_tokens retries : Z) (st : retry_state) (w : World) :
  retry_loop E self prompt_param kind pad_max_tokens retries st w =
  if st_is_repetition st && (0 <? retries)%Z
  then match retry_iteration E self prompt_param kind pad_max_tokens st w with
       | (Ok st', w') =>
           retry_loop E self prompt_param kind pad_max_tokens (retries - 1) st' w'
       | (Raise e, w') => (Raise e, w')
       end
  else (Ok st, w).
Proof.
  rewrite retry_loop_equation_1.
  destruct (Logic.inspect (st_is_repetition st && (0 <? retries)%Z)) as [b Hb].
  destruct b; simp retry_loop; rewrite Hb.
  - destruct (retry_iteration E self prompt_param kind pad_max_tokens st w)
      as [[st'|e] w']; reflexivity.
  - reflexivity.
Qed.


(** Relations between the world before and after a computation. *)
Section Frames.

Context (R : World -> World -> Prop).
Hypothesis R_refl : forall w, R w w.
Hypothesis R_trans : forall w1 w2 w3, R w1 w2 -> R w2 w3 -> R w1 w3.

Definition respects {A} (m : M A) : Prop := forall w, R w (snd (m w)).

Lemma respects_ret {A} (a : A) : respects (ret a).
Proof. intros w. apply R_refl. Qed.

Lemma respects_raise {A} (e : exn) : respects (@raise A e).
Proof. intros w. apply R_refl. Qed.

Lemma respects_lift {A} (r : result A) : respects (lift r).
Proof. intros w. apply R_refl. Qed.

Lemma respects_modify (f : World -> World) :
  (forall w, R w (f w)) -> respects (modify f).
Proof. intros H w. apply H. Qed.

Lemma respects_bind {A B} (m : M A) (k : A -> M B) :
  respects m -> (forall a, respects (k a)) -> respects (bind m k).
Proof.
  intros Hm Hk w. unfold bind. specialize (Hm w).
  destruct (m w) as [[a|e] w']; cbn in *; [|exact Hm].
  eapply R_trans; [exact Hm|apply Hk].
Qed.

Lemma respects_try_except {A} (m h : M A) :
  respects m -> respects h -> respects (try_except m h).
Proof.
  intros Hm Hh w. unfold try_except. specialize (Hm w).
  destruct (m w) as [[a|e] w']; cbn in *; [exact Hm|].
  destruct e; try exact Hm; (eapply R_trans; [exact Hm|apply Hh]).
Qed.

Lemma respects_except_KeyError (m : M unit) :
  respects m -> respects (except_KeyError m).
Proof.
  intros Hm w. unfold except_KeyError. specialize (Hm w).
  destruct (m w) as [[a|e] w']; [exact Hm|]. destruct e; exact Hm.
Qed.

Lemma respects_getitem (l : loc) (key : string) : respects (getitem l key).
Proof.
  intros w. unfold getitem.
  destruct (heap w !! l) as [d|]; [destruct (d !! key)|]; apply R_refl.
Qed.

Lemma respects_setitem (l : loc) (key : string) (v : pyval) :
  (forall w d, heap w !! l = Some d ->
               R w (set_heap (<[l := <[key := v]> d]> (heap w)) (next_loc w) w)) ->
  respects (setitem l key v).
Proof.
  intros H w. unfold setitem. destruct (heap w !! l) as [d|] eqn:Hd; cbn.
  - apply H, Hd.
  - apply R_refl.
Qed.



(** What a relation must allow for the retry loop on the object [L] to
    respect it. *)
Context (self : ClientBase) (E : Env) (L : loc) (touched : string -> Prop).
Hypothesis touched_temperature : touched "temperature".
Hypothesis touched_min_p : touched "min_p".
Hypothesis touched_presence_penalty : touched "presence_penalty".
Hypothesis touched_max_tokens : touched (max_tokens_param_name self).
Hypothesis R_now : forall w t, R w (set_now t w).
Hypothesis R_draw : forall w, R w (add_draw w).
Hypothesis R_store : forall w d key v,
  touched key ->
  heap w !! L = Some d ->
  R w (set_heap (<[L := <[key := v]> d]> (heap w)) (next_loc w) w).
Hypothesis R_dispatch : forall w prompt,
  R w (add_dispatch (prompt, L, content_of L w) w).

Lemma respects_uniform (a b : Q) : respects (uniform E a b).
Proof. intros w. apply R_draw. Qed.

Lemma respects_setitem_L (key : string) (v : pyval) :
  touched key -> respects (setitem L key v).
Proof. intros Hk. apply respects_setitem. intros w d. apply R_store, Hk. Qed.

Ltac frame :=
  repeat first
    [ apply respects_bind; [|intros ?]
    | apply respects_except_KeyError
    | apply respects_getitem
    | apply respects_lift
    | apply respects_ret
    | apply respects_raise
    | apply respects_uniform
    | apply respects_setitem_L; assumption ].

Lemma respects_jiggle_randomness (offset : Q) :
  respects (jiggle_randomness E self L offset).
Proof.
  unfold jiggle_randomness, base_jiggle_randomness, tabbyapi_jiggle_randomness.
  destruct (client_type self); frame.
Qed.

Lemma respects_generate (prompt kind : string) :
  respects (generate E prompt L kind).
Proof.
  intros w. unfold generate. cbn [snd].
  eapply R_trans; [apply R_dispatch|apply R_now].
Qed.

Lemma respects_retry_iteration (kind : string) (pad_max_tokens : Z)
  (st : retry_state) :
  respects (retry_iteration E self L kind pad_max_tokens st).
Proof.
  unfold retry_iteration.
  repeat first
    [ apply respects_bind; [|intros ?]
    | apply respects_jiggle_randomness
    | apply respects_generate
    | apply respects_getitem
    | apply respects_lift
    | apply respects_setitem_L; assumption ].
  destruct (similarity_score E _ _ _) as [[? ?] ?]. apply respects_ret.
Qed.

Lemma respects_retry_loop (kind : string) (pad_max_tokens retries : Z)
  (st : retry_state) :
  respects (retry_loop E self L kind pad_max_tokens retries st).
Proof.
  remember (Z.to_nat retries) as n eqn:Hn.
  revert retries st Hn. induction n as [|n IH]; intros retries st Hn w;
    rewrite retry_loop_unfold.
  - replace (0 <? retries)%Z with false by (symmetry; apply Z.ltb_ge; lia).
    rewrite andb_false_r. apply R_refl.
  - destruct (st_is_repetition st && (0 <? retries)%Z); [|apply R_refl].
    pose proof (respects_retry_iteration kind pad_max_tokens st w) as Hi.
    destruct (retry_iteration E self L kind pad_max_tokens st w) as [[st'|e] w'];
      cbn [snd] in Hi; [|exact Hi].
    eapply R_trans; [exact Hi|]. apply IH. lia.
Qed.

Lemma respects_auto_break_repetition (finalized_prompt response kind : string)
  (retries pad_max_tokens : Z) :
  respects (auto_break_repetition E self finalized_prompt L response kind
              retries pad_max_tokens).
Proof.
  unfold auto_break_repetition.
  destruct (_ || _); [apply respects_ret|].
  destruct (jiggle_enabled_for E kind); [|apply respects_ret].
  destruct (similarity_score E _ _ _) as [[is_repetition ?] ?].
  destruct (negb is_repetition); [apply respects_ret|].
  apply respects_bind; [|intros ?; apply respects_ret].
  intros w. apply respects_retry_loop.
Qed.

End Frames.

Section Budget.

Context (E : Env) (self : ClientBase) (L : loc).

(** The number of provider calls stays the same. *)
Definition same_calls (w w' : World) : Prop := calls w' = calls w.

Lemma jiggle_same_calls (offset : Q) :
  respects same_calls (jiggle_randomness E self L offset).
Proof.
  apply (respects_jiggle_randomness same_calls) with (touched := fun _ => True);
    unfold same_calls; first [exact I | congruence | reflexivity].
Qed.

(** One iteration of the loop calls the provider at most once. *)
Lemma retry_iteration_calls (kind : string) (pad_max_tokens : Z)
  (st : retry_state) (w : World) :
  calls (snd (retry_iteration E self L kind pad_max_tokens st w)) <= S (calls w).
Proof.
  unfold retry_iteration, bind.
  pose proof (jiggle_same_calls (5 # 10) w) as Hj. unfold same_calls in Hj.
  destruct (jiggle_randomness E self L (5 # 10) w) as [[[]|e] w1];
    cbn [snd] in Hj; [|cbn; lia].
  unfold getitem at 1.
  destruct (heap w1 !! L) as [d|] eqn:Hd; [|cbn; lia].
  destruct (d !! max_tokens_param_name self) as [v|]; [|cbn; lia].
  unfold lift. destruct (add_int v pad_max_tokens) as [padded|e]; [|cbn; lia].
  unfold setitem. rewrite Hd. unfold generate.
  match goal with
  | |- context [outcome ?g] => destruct (outcome g) as [retried|e]
  end; [|cbn; lia].
  destruct (similarity_score E _ _ _) as [[? ?] ?]. cbn. lia.
Qed.

(** The loop calls the provider at most [retries] times. *)
Lemma retry_loop_calls (kind : string) (pad_max_tokens retries : Z)
  (st : retry_state) (w : World) :
  calls (snd (retry_loop E self L kind pad_max_tokens retries st w))
  <= calls w + Z.to_nat retries.
Proof.
  remember (Z.to_nat retries) as n eqn:Hn.
  revert retries st w Hn. induction n as [|n IH]; intros retries st w Hn;
    rewrite retry_loop_unfold.
  - replace (0 <? retries)%Z with false by (symmetry; apply Z.ltb_ge; lia).
    rewrite andb_false_r. cbn. lia.
  - destruct (st_is_repetition st && (0 <? retries)%Z); [|cbn; lia].
    pose proof (retry_iteration_calls kind pad_max_tokens st w) as Hi.
    destruct (retry_iteration E self L kind pad_max_tokens st w) as [[st'|e] w'];
      cbn [snd] in Hi; [|cbn; lia].
    specialize (IH (retries - 1)%Z st' w' ltac:(lia)). lia.
Qed.

End Budget.

(** C6.  Whatever the budget [retries], the provider's answers and the
    similarity verdicts, the repetition-break loop redispatches at most
    [retries] times (not at all for a budget of zero or less): the function
    is total, terminating once the budget, which every iteration lowers by
    one, reaches zero. *)
Theorem retry_budget_bound (E : Env) (self : ClientBase)
  (finalized_prompt : string) (prompt_param : loc) (response kind : string)
  (retries pad_max_tokens : Z) (w : World) :
  calls (snd (auto_break_repetition E self finalized_prompt prompt_param
                response kind retries pad_max_tokens w))
  <= calls w + Z.to_nat retries.
Proof.
  unfold auto_break_repetition.
  destruct (_ || _); [cbn; lia|].
  destruct (jiggle_enabled_for E kind); [|cbn; lia].
  destruct (similarity_score E _ _ _) as [[is_repetition ?] ?].
  destruct (negb is_repetition); [cbn; lia|].
  unfold bind.
  match goal with
  | |- context [retry_loop ?e ?s ?l ?k ?p ?r ?st ?w] =>
      pose proof (retry_loop_calls e s l k p r st w) as H;
      destruct (retry_loop e s l k p r st w) as [[st'|ex] w']
  end; cbn [snd] in *; exact H.
Qed.

Section InPlace.

Context (E : Env) (self : ClientBase) (L : loc).

(** Nothing is allocated, and every new provider call is handed the
    object [L]. *)
Definition in_place (w w' : World) : Prop :=
  next_loc w' = next_loc w
  /\ dom (heap w') = dom (heap w)
  /\ exists new, dispatched w' = (dispatched w ++ new)%list
                 /\ Forall (fun d : string * loc * dict => d.1.2 = L) new.

Lemma in_place_same (w w' : World) :
  next_loc w' = next_loc w -> heap w' = heap w ->
  dispatched w' = dispatched w -> in_place w w'.
Proof.
  intros Hn Hh Hd. split; [exact Hn|]. split; [rewrite Hh; reflexivity|].
  exists []. split; [rewrite Hd; symmetry; apply app_nil_r|constructor].
Qed.

Lemma in_place_refl (w : World) : in_place w w.
Proof. apply in_place_same; reflexivity. Qed.

Lemma in_place_trans (w1 w2 w3 : World) :
  in_place w1 w2 -> in_place w2 w3 -> in_place w1 w3.
Proof.
  intros (Hn1 & Hd1 & n1 & He1 & Hf1) (Hn2 & Hd2 & n2 & He2 & Hf2).
  split; [congruence|]. split; [congruence|].
  exists (n1 ++ n2)%list. split.
  - rewrite He2, He1, app_assoc. reflexivity.
  - apply Forall_app. split; assumption.
Qed.

Lemma in_place_store (w : World) (d : dict) (key : string) (v : pyval) :
  heap w !! L = Some d ->
  in_place w (set_heap (<[L := <[key := v]> d]> (heap w)) (next_loc w) w).
Proof.
  intros Hd. split; [reflexivity|]. split.
  - cbn. rewrite dom_insert_L.
    assert (HL : L ∈ dom (heap w)) by (apply elem_of_dom; eauto).
    apply set_eq. intros x. rewrite elem_of_union, elem_of_singleton.
    split; [intros [->|Hx]; assumption|auto].
  - exists []. split; [symmetry; apply app_nil_r|constructor].
Qed.

Lemma in_place_dispatch (w : World) (prompt : string) :
  in_place w (add_dispatch (prompt, L, content_of L w) w).
Proof.
  split; [reflexivity|]. split; [reflexivity|].
  eexists. split; [reflexivity|]. constructor; [reflexivity|constructor].
Qed.

Lemma auto_break_repetition_in_place (finalized_prompt response kind : string)
  (retries pad_max_tokens : Z) :
  respects in_place
    (auto_break_repetition E self finalized_prompt L response kind
       retries pad_max_tokens).
Proof.
  apply (respects_auto_break_repetition in_place in_place_refl in_place_trans)
    with (touched := fun _ => True); try exact I.
  - intros w t. apply in_place_same; reflexivity.
  - intros w. apply in_place_same; reflexivity.
  - intros w d key v _. apply in_place_store.
  - apply in_place_dispatch.
Qed.

(** The entry of a key of the object [L]. *)
Definition entry (key : string) (w : World) : option pyval :=
  heap w !! L ≫= (.!! key).

(** The entry of [key] and the log of provider calls stay the same. *)
Definition keeps (key : string) (w w' : World) : Prop :=
  entry key w' = entry key w /\ dispatched w' = dispatched w.

Lemma jiggle_keeps (key : string) (offset : Q) :
  key <> "temperature" -> key <> "min_p" -> key <> "presence_penalty" ->
  respects (keeps key) (jiggle_randomness E self L offset).
Proof.
  intros H1 H2 H3.
  apply (respects_jiggle_randomness (keeps key))
    with (touched := fun k => k <> key); try congruence.
  - intros w. split; reflexivity.
  - intros w1 w2 w3 [Ha Hb] [Hc Hd]. split; congruence.
  - intros w. split; reflexivity.
  - intros w d k v Hk Hd. split; [|reflexivity].
    unfold entry. cbn. rewrite lookup_insert_eq, Hd. cbn.
    apply lookup_insert_ne. exact Hk.
Qed.

(** A successful jiggle has read a number from the temperature entry of
    the object and has put a draw of [random.uniform] in its place. *)
Lemma jiggle_temperature (offset : Q) (w w' : World) :
  jiggle_randomness E self L offset w = (Ok tt, w') ->
  exists vt temp,
    entry "temperature" w = Some vt
    /\ as_float vt = Ok temp
    /\ entry "temperature" w'
       = Some (VFloat (temp + offset * (3 # 10)
                       + (temp + offset - (temp + offset * (3 # 10)))
                         * random E (draws w))).
Proof.
  unfold jiggle_randomness, entry.
  destruct (client_type self).
  - unfold base_jiggle_randomness, bind, getitem, lift, uniform, setitem.
    destruct (heap w !! L) as [d|] eqn:Hd; [|discriminate].
    destruct (d !! "temperature") as [vt|] eqn:Hv; [|discriminate].
    destruct (as_float vt) as [temp|e] eqn:Hf; [|discriminate].
    cbn [heap add_draw]. rewrite Hd. intros [= <-].
    exists vt, temp. cbn [heap set_heap option_bind mbind].
    rewrite lookup_insert_eq. cbn. rewrite lookup_insert_eq.
    repeat split; [exact Hv|exact Hf].
  - unfold tabbyapi_jiggle_randomness.
    unfold bind at 1, getitem at 1.
    destruct (heap w !! L) as [d|] eqn:Hd; [|discriminate].
    destruct (d !! "temperature") as [vt|] eqn:Hv; [|discriminate].
    unfold bind at 1, lift at 1.
    destruct (as_float vt) as [temp|e] eqn:Hf; [|discriminate].
    unfold bind at 1, uniform at 1.
    unfold bind at 1, setitem at 1. cbn [heap add_draw]. rewrite Hd.
    unfold bind at 1, uniform at 1.
    unfold bind at 1, setitem at 1. cbn [heap add_draw set_heap draws next_loc].
    rewrite lookup_insert_eq.
    unfold except_KeyError, bind at 1, getitem at 1.
    cbn [heap add_draw set_heap draws next_loc].
    rewrite lookup_insert_eq.
    rewrite lookup_insert_ne by discriminate.
    rewrite lookup_insert_ne by discriminate.
    intros H. exists vt, temp. split; [exact Hv|]. split; [exact Hf|].
    destruct (d !! "presence_penalty") as [vp|].
    + unfold bind at 1, lift at 1 in H.
      destruct (as_float vp) as [pp|e].
      * unfold bind at 1, uniform at 1, setitem in H.
        cbn [heap add_draw set_heap draws next_loc] in H.
        rewrite lookup_insert_eq in H. injection H as <-.
        cbn [heap set_heap]. rewrite lookup_insert_eq. cbn.
        rewrite lookup_insert_ne by discriminate.
        rewrite lookup_insert_ne by discriminate.
        apply lookup_insert_eq.
      * destruct e; try discriminate. injection H as <-.
        cbn [heap set_heap]. rewrite lookup_insert_eq. cbn.
        rewrite lookup_insert_ne by discriminate.
        apply lookup_insert_eq.
    + injection H as <-.
      cbn [heap set_heap]. rewrite lookup_insert_eq. cbn.
      rewrite lookup_insert_ne by discriminate.
      apply lookup_insert_eq.
Qed.

(** A successful iteration has jiggled the temperature entry and padded
    the output-length entry of the very object it was given, and has handed
    that object to the provider. *)
Lemma retry_iteration_edits (kind : string) (pad_max_tokens : Z)
  (st st' : retry_state) (w w' : World) (v : pyval) :
  max_tokens_param_name self <> "temperature" ->
  max_tokens_param_name self <> "min_p" ->
  max_tokens_param_name self <> "presence_penalty" ->
  entry (max_tokens_param_name self) w = Some v ->
  retry_iteration E self L kind pad_max_tokens st w = (Ok st', w') ->
  exists v' vt temp d,
    add_int v pad_max_tokens = Ok v'
    /\ entry "temperature" w = Some vt
    /\ as_float vt = Ok temp
    /\ heap w' !! L = Some d
    /\ d !! max_tokens_param_name self = Some v'
    /\ d !! "temperature"
       = Some (VFloat (temp + (5 # 10) * (3 # 10)
                       + (temp + (5 # 10) - (temp + (5 # 10) * (3 # 10)))
                         * random E (draws w)))
    /\ dispatched w'
       = (dispatched w
          ++ [(repetition_adjustment (st_finalized_prompt st) true, L, d)])%list.
Proof.
  intros H1 H2 H3 Hv. unfold retry_iteration, bind.
  pose proof (jiggle_keeps _ (5 # 10) H1 H2 H3 w) as [Hk Hdisp].
  destruct (jiggle_randomness E self L (5 # 10) w) as [[[]|e] w1] eqn:Hj;
    cbn [snd] in Hk, Hdisp; [|discriminate].
  destruct (jiggle_temperature _ _ _ Hj) as (vt & temp & Hvt & Hf & Ht).
  rewrite Hv in Hk. unfold entry in Hk, Ht. unfold getitem at 1.
  destruct (heap w1 !! L) as [d1|] eqn:Hd1; [|discriminate]. cbn in Hk, Ht.
  rewrite Hk. unfold lift.
  destruct (add_int v pad_max_tokens) as [padded|e] eqn:Hadd; [|discriminate].
  unfold setitem. rewrite Hd1. unfold generate.
  match goal with
  | |- context [outcome ?g] => destruct (outcome g) as [retried|e]
  end; [|discriminate].
  destruct (similarity_score E _ _ _) as [[? ?] ?]. unfold ret.
  intros H; injection H as <- <-.
  exists padded, vt, temp, (<[max_tokens_param_name self := padded]> d1).
  split; [reflexivity|]. split; [exact Hvt|]. split; [exact Hf|].
  split; [apply lookup_insert_eq|].
  split; [apply lookup_insert_eq|].
  split; [rewrite lookup_insert_ne by exact H1; exact Ht|].
  cbn. unfold content_of. cbn. rewrite lookup_insert_eq, Hdisp. reflexivity.
Qed.

End InPlace.

(** C9 (as amended).  The retry loop makes no adjusted copy of the sampling
    parameters: it allocates no object, every redispatch is handed the very
    mapping object that was dispatched before, and each successful iteration
    has edited that object in place before handing it over.  Its
    temperature entry, which held a number, holds the jiggled value instead:
    the draw of [random.uniform] between the former temperature plus 0.15
    and the former temperature plus 0.5, which lies between these two when
    the random number lies in the unit interval.  Its output-length entry
    holds the former value plus the pad. *)
Theorem retry_edits_mapping_in_place (E : Env) (self : ClientBase)
  (prompt_param : loc) (kind : string) (pad_max_tokens : Z) :
  (forall finalized_prompt response retries w,
      in_place prompt_param w
        (snd (auto_break_repetition E self finalized_prompt prompt_param
                response kind retries pad_max_tokens w)))
  /\ (forall st st' w w' v,
         max_tokens_param_name self <> "temperature" ->
         max_tokens_param_name self <> "min_p" ->
         max_tokens_param_name self <> "presence_penalty" ->
         entry prompt_param (max_tokens_param_name self) w = Some v ->
         retry_iteration E self prompt_param kind pad_max_tokens st w = (Ok st', w') ->
         exists v' vt temp t d,
           add_int v pad_max_tokens = Ok v'
           /\ entry prompt_param "temperature" w = Some vt
           /\ as_float vt = Ok temp
           /\ t = (temp + (5 # 10) * (3 # 10)
                   + (temp + (5 # 10) - (temp + (5 # 10) * (3 # 10)))
                     * random E (draws w))%Q
           /\ ((0 <= random E (draws w))%Q -> (random E (draws w) <= 1)%Q ->
               (temp + (15 # 100) <= t)%Q /\ (t <= temp + (5 # 10))%Q)
           /\ heap w' !! prompt_param = Some d
           /\ d !! "temperature" = Some (VFloat t)
           /\ d !! max_tokens_param_name self = Some v'
           /\ dispatched w'
              = (dispatched w
                 ++ [(repetition_adjustment (st_finalized_prompt st) true,
                      prompt_param, d)])%list).
Proof.
  split.
  - intros finalized_prompt response retries w.
    apply auto_break_repetition_in_place.
  - intros st st' w w' v H1 H2 H3 Hv Hrun.
    destruct (retry_iteration_edits E self prompt_param kind pad_max_tokens
                st st' w w' v H1 H2 H3 Hv Hrun)
      as (v' & vt & temp & d & Hadd & Hvt & Hf & Hd & Hmax & Htemp & Hdisp).
    exists v', vt, temp; eexists; exists d.
    split; [exact Hadd|]. split; [exact Hvt|]. split; [exact Hf|].
    split; [reflexivity|].
    split; [intros H0 Hle; split; nra|].
    split; [exact Hd|]. split; [exact Htemp|]. split; [exact Hmax|exact Hdisp].
Qed.

Lemma retry_edits_mapping_in_place_witness :
  exists v' vt temp t d,
    add_int (VInt 100) 32 = Ok v'
    /\ entry 0 "temperature" world_with_parameters = Some vt
    /\ as_float vt = Ok temp
    /\ t = (temp + (5 # 10) * (3 # 10)
            + (temp + (5 # 10) - (temp + (5 # 10) * (3 # 10)))
              * random (env 50) (draws world_with_parameters))%Q
    /\ ((0 <= random (env 50) (draws world_with_parameters))%Q ->
        (random (env 50) (draws world_with_parameters) <= 1)%Q ->
        (temp + (15 # 100) <= t)%Q /\ (t <= temp + (5 # 10))%Q)
    /\ heap (snd (retry_iteration (env 50) client 0 "conversation" 32
                    repeating world_with_parameters)) !! 0%nat = Some d
    /\ d !! "temperature" = Some (VFloat t)
    /\ d !! "max_tokens" = Some v'
    /\ dispatched (snd (retry_iteration (env 50) client 0 "conversation" 32
                          repeating world_with_parameters))
       = ([] ++ [("The hero drew his sword.", 0%nat, d)])%list.
Proof.
  apply (proj2 (retry_edits_mapping_in_place (env 50) client 0 "conversation" 32)
           repeating repeating world_with_parameters _ (VInt 100)).
  - discriminate.
  - discriminate.
  - discriminate.
  - reflexivity.
  - vm_compute. reflexivity.
Defined.

(** C9 (as stated) fails: the first dispatch is handed object 0 with an
    output length of 100; the retry then pads that same object to 132 and
    hands it over again. *)
Lemma dispatched_mapping_is_edited_afterwards :
  (map (fun d : string * loc * dict => (d.1.2, d.2 !! "max_tokens"))
     <$> (dispatched
            <$> final (_send_prompt (env 50) client 1 "The hero drew his sword."
                         "conversation" 1 (world 2 0))))
    = Some [(0%nat, Some (VInt 100)); (0%nat, Some (VInt 132))]
  /\ (final (_send_prompt (env 50) client 1 "The hero drew his sword."
               "conversation" 1 (world 2 0))
        ≫= fun w => heap w !! 0%nat ≫= (.!! "max_tokens"))
     = Some (VInt 132).
Proof. split; vm_compute; reflexivity. Qed.

(** ** The rate-limit gate *)

Section Gate.

Context (E : Env).

Definition is_rate_limited (e : event) : Prop := exists t, e = rate_limited t.

(** The wait loop emits one "rate limited" notification per denial and
    nothing else, and leaves a limiter in place. *)
Lemma rate_limit_wait_emitted (fuel : nat) (l : CounterRateLimiter) (w : World)
  (aborted : bool) (w' : World) :
  rate_limit_wait E fuel l w = Some (aborted, w') ->
  exists denials,
    emitted w' = (emitted w ++ denials)%list
    /\ Forall is_rate_limited denials
    /\ (aborted = true -> denials <> [])
    /\ exists l', rate_limit_counter w' = Some l'.
Proof.
  revert l w. induction fuel as [|fuel IH]; intros l w; [discriminate|].
  cbn [rate_limit_wait].
  destruct (increment (now w) l) as [admitted l1].
  destruct admitted.
  - intros H; injection H as <- <-. exists []. split; [symmetry; apply app_nil_r|].
    split; [constructor|]. split; [discriminate|]. eexists; reflexivity.
  - cbn [now add_emitted set_rate_limit_counter].
    destruct (interrupted (scene_at E (now w))).
    + intros H; injection H as <- <-. exists [rate_limited (reset_time l1)].
      split; [reflexivity|]. split; [repeat constructor; eexists; reflexivity|].
      split; [discriminate|]. eexists; reflexivity.
    + intros H. apply IH in H as (denials & He & Hf & Ha & Hl).
      exists (rate_limited (reset_time l1) :: denials).
      split; [rewrite He; cbn; rewrite <- app_assoc; reflexivity|].
      split; [constructor; [eexists; reflexivity|exact Hf]|].
      split; [discriminate|exact Hl].
Qed.

(** With a positive limit the wait loop ends: the window elapses while it
    sleeps. *)
Lemma rate_limit_wait_terminates (m : nat) :
  forall (l : CounterRateLimiter) (w : World),
    reset_time l - now w <= m ->
    (1 <= rate_per_minute l)%Z ->
    exists fuel outcome, rate_limit_wait E fuel l w = Some outcome.
Proof.
  induction m as [|m IH]; intros l w Hm Hrate.
  - exists 1. cbn [rate_limit_wait]. unfold increment.
    replace (reset_time l <=? now w)%nat with true
      by (symmetry; apply Nat.leb_le; lia).
    cbn [count rate_per_minute].
    replace (0 <? rate_per_minute l)%Z with true
      by (symmetry; apply Z.ltb_lt; lia).
    eexists; reflexivity.
  - destruct (increment (now w) l) as [admitted l1] eqn:Hinc.
    destruct admitted.
    + exists 1. cbn [rate_limit_wait]. rewrite Hinc. eexists; reflexivity.
    + assert (Hl1 : l1 = l /\ now w < reset_time l).
      { unfold increment in Hinc.
        destruct (reset_time l <=? now w)%nat eqn:Hreset.
        - cbn [count rate_per_minute] in Hinc.
          replace (0 <? rate_per_minute l)%Z with true in Hinc
            by (symmetry; apply Z.ltb_lt; lia).
          discriminate.
        - apply Nat.leb_gt in Hreset.
          destruct (count l <? rate_per_minute l)%Z; [discriminate|].
          injection Hinc as <-. split; [reflexivity|exact Hreset]. }
      destruct Hl1 as [-> Hlt].
      destruct (interrupted (scene_at E (now w))) eqn:Hint.
      * exists 1. cbn [rate_limit_wait]. rewrite Hinc.
        cbn [now add_emitted set_rate_limit_counter]. rewrite Hint.
        eexists; reflexivity.
      * destruct (IH l (set_now (now w + 10)
                          (add_emitted (rate_limited (reset_time l))
                             (set_rate_limit_counter (Some l) w))))
          as (fuel & outcome & Hrun); [cbn; lia|exact Hrate|].
        exists (S fuel), outcome. cbn [rate_limit_wait]. rewrite Hinc.
        cbn [now add_emitted set_rate_limit_counter]. rewrite Hint.
        exact Hrun.
Qed.

End Gate.

(** C4 (as amended).  For a dispatch gated by a configured rate limiter,
    whenever the wait loop ends the "rate limit reset" notification is
    emitted exactly once, right after the "rate limited" notifications of
    the denials: on the first attempt without any denial, after denials,
    and also when the loop was aborted, before the cancellation is raised.
    With a positive limit the loop does end. *)
Theorem rate_limit_reset_once (E : Env) (w : World) (l : CounterRateLimiter) :
  rate_limit_counter w = Some l ->
  (forall fuel r w',
      rate_limit_gate E fuel w = Some (r, w') ->
      exists denials,
        emitted w' = (emitted w ++ denials ++ [rate_limit_reset])%list
        /\ Forall is_rate_limited denials
        /\ (r = Ok tt \/ (r = Raise GenerationCancelled /\ denials <> [])))
  /\ ((1 <= rate_per_minute l)%Z ->
      exists fuel r w', rate_limit_gate E fuel w = Some (r, w')).
Proof.
  intros Hl. split.
  - intros fuel r w'. unfold rate_limit_gate. rewrite Hl.
    destruct (rate_limit_wait E fuel l w) as [[aborted w1]|] eqn:Hwait;
      [|discriminate].
    apply rate_limit_wait_emitted in Hwait as (denials & He & Hf & Ha & _).
    intros H; injection H as <- <-. exists denials.
    split; [cbn; rewrite He, <- app_assoc; reflexivity|].
    split; [exact Hf|].
    destruct aborted; [right; split; [reflexivity|apply Ha; reflexivity]|left; reflexivity].
  - intros Hrate. unfold rate_limit_gate. rewrite Hl.
    destruct (rate_limit_wait_terminates E (reset_time l - now w) l w)
      as (fuel & [aborted w1] & Hrun); [lia|exact Hrate|].
    exists fuel. rewrite Hrun. eexists _, _. reflexivity.
Qed.

Lemma rate_limit_reset_once_witness :
  exists denials,
    emitted (default (world 1 1)
               (final (rate_limit_gate (env 50) 7 (world 1 1))))
    = (emitted (world 1 1) ++ denials ++ [rate_limit_reset])%list
    /\ Forall is_rate_limited denials
    /\ (Raise GenerationCancelled = Ok tt
        \/ (@Raise unit GenerationCancelled = Raise GenerationCancelled
            /\ denials <> [])).
Proof.
  apply (proj1 (rate_limit_reset_once (env 50) (world 1 1)
                  {| rate_per_minute := 1; count := 1; window_start := 0%nat |}
                  eq_refl)
           7 (Raise GenerationCancelled)).
  vm_compute. reflexivity.
Defined.

(** C4 (as stated) fails twice: a call admitted on its first attempt emits
    the reset notification although nothing was denied, and a wait loop
    aborted because cancellation was requested emits it before raising. *)
Lemma rate_limit_reset_without_denial_and_on_abort :
  rate_limit_gate (env 50) 1 (world 2 0)
    = Some (Ok tt, admitted_world)
  /\ emitted admitted_world = [rate_limit_reset]
  /\ (fst <$> rate_limit_gate (env 0) 1 (world 1 1))
     = Some (Raise GenerationCancelled)
  /\ (emitted <$> final (rate_limit_gate (env 0) 1 (world 1 1)))
     = Some [rate_limited 600; rate_limit_reset].
Proof. repeat split; reflexivity. Qed.

(** ** The cleanup of [_send_prompt] *)

Section Cleanup.

Context (E : Env) (self : ClientBase).

(** The limiter and the clock of the limiter's owner are left alone. *)
Definition same_limiter (w w' : World) : Prop :=
  rate_limit_counter w' = rate_limit_counter w.

Lemma same_limiter_refl (w : World) : same_limiter w w.
Proof. reflexivity. Qed.

Lemma same_limiter_trans (w1 w2 w3 : World) :
  same_limiter w1 w2 -> same_limiter w2 w3 -> same_limiter w1 w3.
Proof. unfold same_limiter. congruence. Qed.

Lemma auto_break_repetition_same_limiter (finalized_prompt : string) (L : loc)
  (response kind : string) (retries pad_max_tokens : Z) :
  respects same_limiter
    (auto_break_repetition E self finalized_prompt L response kind
       retries pad_max_tokens).
Proof.
  apply (respects_auto_break_repetition same_limiter same_limiter_refl
           same_limiter_trans) with (touched := fun _ => True);
    try exact I; intros; reflexivity.
Qed.

Lemma _cancelable_generate_same_limiter (prompt : string) (L : loc) (kind : string) :
  respects same_limiter (_cancelable_generate E prompt L kind).
Proof.
  intros w. unfold _cancelable_generate.
  destruct (asyncio_wait E (now w) _) as [[t done] pending].
  destruct (pop E done); [reflexivity|].
  destruct (outcome _); reflexivity.
Qed.

Lemma dispatch_same_limiter (prompt : string) (L : loc) (kind : string) :
  respects same_limiter (dispatch E prompt L kind).
Proof.
  unfold dispatch.
  apply (respects_bind _ same_limiter_trans); [intros w; reflexivity|intros _].
  apply (respects_bind _ same_limiter_trans);
    [apply _cancelable_generate_same_limiter|intros response].
  apply (respects_bind _ same_limiter_trans); [intros w; reflexivity|intros _].
  destruct response; intros w; reflexivity.
Qed.

Lemma attempt_same_limiter (prompt kind : string) (retries : Z) :
  respects same_limiter (attempt E self prompt kind retries).
Proof.
  unfold attempt.
  apply (respects_bind _ same_limiter_trans); [intros w; reflexivity|intros _].
  apply (respects_bind _ same_limiter_trans); [intros w; reflexivity|intros _].
  apply (respects_bind _ same_limiter_trans);
    [intros w; reflexivity|intros [[finalized_prompt content] extra]].
  apply (respects_bind _ same_limiter_trans); [intros w; reflexivity|intros L].
  apply (respects_bind _ same_limiter_trans);
    [apply dispatch_same_limiter|intros response].
  apply (respects_bind _ same_limiter_trans);
    [apply auto_break_repetition_same_limiter|intros [response' finalized']].
  apply (respects_bind _ same_limiter_trans); [intros w; reflexivity|intros cut].
  apply (respects_bind _ same_limiter_trans); intros; intros w; reflexivity.
Qed.

(** The guarded attempt, without its [finally] clause. *)
Lemma guarded_attempt_same_limiter (prompt kind : string) (retries : Z) :
  respects same_limiter
    (try_except (attempt E self prompt kind retries)
       (emit (status_error "Error during generation (check logs)") ;;
        ret EmptyString)).
Proof.
  apply (respects_try_except _ same_limiter_trans);
    [apply attempt_same_limiter|].
  apply (respects_bind _ same_limiter_trans); intros; intros w; reflexivity.
Qed.

(** Within its window a limiter grants a slot while one is left, and the
    slot is the only thing that changes. *)
Lemma increment_in_window (t : nat) (l : CounterRateLimiter) :
  t < reset_time l -> (count l < rate_per_minute l)%Z ->
  increment t l
  = (true, {| rate_per_minute := rate_per_minute l; count := count l + 1;
              window_start := window_start l |}).
Proof.
  intros Ht Hc. unfold increment.
  replace (reset_time l <=? t)%nat with false
    by (symmetry; apply Nat.leb_gt; exact Ht).
  apply Z.ltb_lt in Hc. rewrite Hc. reflexivity.
Qed.

(** Within its window a limiter with no slot left denies the call and
    stays as it is. *)
Lemma increment_denied (t : nat) (l : CounterRateLimiter) :
  t < reset_time l -> (rate_per_minute l <= count l)%Z ->
  increment t l = (false, l).
Proof.
  intros Ht Hc. unfold increment.
  replace (reset_time l <=? t)%nat with false
    by (symmetry; apply Nat.leb_gt; exact Ht).
  replace (count l <? rate_per_minute l)%Z with false
    by (symmetry; apply Z.ltb_ge; exact Hc).
  reflexivity.
Qed.

(** What an admission leaves: one more slot taken in the window the
    limiter was in, or, that window having elapsed, the first slot of a
    window that starts at the admission. *)
Definition admitted_from (l : CounterRateLimiter) (t : nat)
  (l1 : CounterRateLimiter) : Prop :=
  (t < reset_time l /\ (count l < rate_per_minute l)%Z
   /\ l1 = {| rate_per_minute := rate_per_minute l; count := count l + 1;
              window_start := window_start l |})
  \/ (reset_time l <= t /\ (0 < rate_per_minute l)%Z
      /\ l1 = {| rate_per_minute := rate_per_minute l; count := 1;
                 window_start := t |}).

(** The wait loop ends in an admission only through a granted
    [increment], made at the instant the loop ends; the denials before it
    have left the limiter as it was. *)
Lemma rate_limit_wait_admitted (fuel : nat) (l : CounterRateLimiter)
  (w w' : World) :
  rate_limit_wait E fuel l w = Some (false, w') ->
  exists l1, rate_limit_counter w' = Some l1 /\ admitted_from l (now w') l1.
Proof.
  revert l w. induction fuel as [|fuel IH]; intros l w; [discriminate|].
  cbn [rate_limit_wait]. unfold increment.
  destruct (reset_time l <=? now w)%nat eqn:Hreset; cbn [count rate_per_minute].
  - apply Nat.leb_le in Hreset.
    destruct (0 <? rate_per_minute l)%Z eqn:Hrate.
    + intros H. injection H as <-. eexists. split; [reflexivity|].
      right. apply Z.ltb_lt in Hrate. cbn. repeat split; assumption.
    + cbn [now add_emitted set_rate_limit_counter].
      destruct (interrupted (scene_at E (now w))); [discriminate|].
      intros H. apply IH in H as (l1 & _ & [(_ & Hc & _)|(_ & Hc & _)]);
        cbn in Hc; apply Z.ltb_ge in Hrate; lia.
  - apply Nat.leb_gt in Hreset.
    destruct (count l <? rate_per_minute l)%Z eqn:Hrate.
    + intros H. injection H as <-. eexists. split; [reflexivity|].
      left. apply Z.ltb_lt in Hrate. cbn. repeat split; assumption.
    + cbn [now add_emitted set_rate_limit_counter].
      destruct (interrupted (scene_at E (now w))); [discriminate|].
      apply IH.
Qed.

End Cleanup.

(** C10 (as amended).  Once a dispatch is admitted and its attempt starts
    (scene active, client enabled), the call returns, whether the attempt
    succeeds, fails or is cancelled, and in every case the cleanup calls
    [increment] once more on the limiter that the admission left.  When
    that call falls into the window of the admission and a slot is left,
    it takes a second slot: a request admitted and cleaned up in the window
    the limiter was in, with two slots left, raises the count by two.  When
    no slot is left in the window, the call is denied and the limiter stays
    as the admission left it: the request has taken one slot. *)
Theorem cleanup_increments_again (E : Env) (self : ClientBase) (fuel : nat)
  (prompt kind : string) (retries : Z) (w w1 : World) (l : CounterRateLimiter)
  (cancel_requested : bool) :
  rate_limit_counter w = Some l ->
  rate_limit_gate E fuel w = Some (Ok tt, w1) ->
  scene_at E (now w1) = Scene true cancel_requested ->
  enabled self = true ->
  exists r w' l1,
    _send_prompt E self fuel prompt kind retries w = Some (r, w')
    /\ rate_limit_counter w1 = Some l1
    /\ admitted_from l (now w1) l1
    /\ rate_limit_counter w' = Some (snd (increment (now w') l1))
    /\ (now w' < reset_time l1 -> (count l1 < rate_per_minute l1)%Z ->
        rate_limit_counter w'
        = Some {| rate_per_minute := rate_per_minute l1; count := count l1 + 1;
                  window_start := window_start l1 |})
    /\ (now w' < reset_time l1 -> (rate_per_minute l1 <= count l1)%Z ->
        rate_limit_counter w' = Some l1)
    /\ (now w1 < reset_time l -> now w' < reset_time l ->
        (count l + 1 < rate_per_minute l)%Z ->
        rate_limit_counter w'
        = Some {| rate_per_minute := rate_per_minute l; count := count l + 2;
                  window_start := window_start l |}).
Proof.
  intros Hl Hgate Hscene Henabled.
  assert (Hadm : exists l1, rate_limit_counter w1 = Some l1
                            /\ admitted_from l (now w1) l1).
  { unfold rate_limit_gate in Hgate. rewrite Hl in Hgate.
    destruct (rate_limit_wait E fuel l w) as [[aborted w2]|] eqn:Hwait;
      [|discriminate].
    destruct aborted; [discriminate|].
    injection Hgate as <-.
    apply rate_limit_wait_admitted in Hwait as (l1 & Hl1 & Hfrom).
    exists l1. split; [exact Hl1|exact Hfrom]. }
  destruct Hadm as (l1 & Hl1 & Hfrom).
  unfold _send_prompt. rewrite Hgate, Hscene, Henabled. cbn [negb].
  unfold try_finally.
  pose proof (guarded_attempt_same_limiter E self prompt kind retries w1) as Hsame.
  destruct (try_except _ _ w1) as [r w2]. cbn [snd] in Hsame.
  unfold same_limiter in Hsame.
  exists r, (cleanup w2), l1.
  assert (Hnow : now (cleanup w2) = now w2).
  { unfold cleanup. cbn [rate_limit_counter add_emitted].
    destruct (rate_limit_counter w2); reflexivity. }
  assert (Hfinal : rate_limit_counter (cleanup w2)
                   = Some (snd (increment (now w2) l1))).
  { unfold cleanup. cbn [rate_limit_counter add_emitted now].
    rewrite Hsame, Hl1. reflexivity. }
  rewrite Hnow, Hfinal.
  split; [reflexivity|]. split; [exact Hl1|]. split; [exact Hfrom|].
  split; [reflexivity|].
  split; [intros Hwin Hroom; rewrite (increment_in_window _ _ Hwin Hroom);
          reflexivity|].
  split; [intros Hwin Hfull; rewrite (increment_denied _ _ Hwin Hfull);
          reflexivity|].
  intros Hw1 Hw2 Hroom.
  destruct Hfrom as [(_ & _ & ->)|(Hle & _)]; [|lia].
  rewrite increment_in_window by first [exact Hw2 | cbn; lia].
  cbn. replace (count l + 1 + 1)%Z with (count l + 2)%Z by lia. reflexivity.
Qed.

Lemma cleanup_increments_again_witness :
  exists r w' l1,
    _send_prompt (env 50) client 1 "The hero drew his sword." "conversation" 1
      (world 2 0) = Some (r, w')
    /\ rate_limit_counter admitted_world = Some l1
    /\ admitted_from
         {| rate_per_minute := 2; count := 0; window_start := 0%nat |}
         (now admitted_world) l1
    /\ rate_limit_counter w' = Some (snd (increment (now w') l1))
    /\ (now w' < reset_time l1 -> (count l1 < rate_per_minute l1)%Z ->
        rate_limit_counter w'
        = Some {| rate_per_minute := rate_per_minute l1; count := count l1 + 1;
                  window_start := window_start l1 |})
    /\ (now w' < reset_time l1 -> (rate_per_minute l1 <= count l1)%Z ->
        rate_limit_counter w' = Some l1)
    /\ (now admitted_world < reset_time
                               {| rate_per_minute := 2; count := 0;
                                  window_start := 0%nat |} ->
        now w' < reset_time {| rate_per_minute := 2; count := 0;
                               window_start := 0%nat |} ->
        (0 + 1 < 2)%Z ->
        rate_limit_counter w'
        = Some {| rate_per_minute := 2; count := 0 + 2;
                  window_start := 0%nat |}).
Proof.
  apply (cleanup_increments_again (env 50) client 1 "The hero drew his sword."
           "conversation" 1 (world 2 0) admitted_world
           {| rate_per_minute := 2; count := 0; window_start := 0%nat |} false).
  - reflexivity.
  - reflexivity.
  - reflexivity.
  - reflexivity.
Defined.

(** The request of the witness above ends with both slots of its window
    taken. *)
Example one_request_two_slots :
  (rate_limit_counter
     <$> final (_send_prompt (env 50) client 1 "The hero drew his sword."
                  "conversation" 1 (world 2 0)))
  = Some (Some {| rate_per_minute := 2; count := 2; window_start := 0%nat |}).
Proof. vm_compute. reflexivity. Qed.

(** C10 (as stated) fails when the admission takes the last slot: with a
    limit of one request per minute the second [increment] is denied, and
    the request ends with one slot taken, not two. *)
Lemma one_request_one_slot_at_limit_one :
  (fst <$> _send_prompt (env 50) client 1 "The hero drew his sword."
             "conversation" 1 (world 1 0))
  = Some (Ok "The hero drew his sword.")
  /\ (rate_limit_counter
        <$> final (_send_prompt (env 50) client 1 "The hero drew his sword."
                     "conversation" 1 (world 1 0)))
     = Some (Some {| rate_per_minute := 1; count := 1; window_start := 0%nat |})
  /\ (count <$> rate_limit_counter (world 1 0)) = Some 0%Z.
Proof. repeat split; vm_compute; reflexivity. Qed.

(** * Further properties *)

(** ** Strings *)

Section Strings.

Lemma str_append_cons (c : ascii) (a b : string) :
  String c a ++ b = String c (a ++ b).
Proof. reflexivity. Qed.

Lemma str_append_nil (b : string) : EmptyString ++ b = b.
Proof. reflexivity. Qed.

Lemma str_append_nil_r (a : string) : a ++ EmptyString = a.
Proof.
  induction a as [|c a IH]; [reflexivity|]. rewrite str_append_cons, IH. reflexivity.
Qed.

Lemma str_append_assoc (a b c : string) : (a ++ b) ++ c = a ++ b ++ c.
Proof.
  induction a as [|x a IH]; [reflexivity|].
  rewrite !str_append_cons, IH. reflexivity.
Qed.

Lemma str_prefix_cons (c d : ascii) (p s : string) :
  String.prefix (String c p) (String d s)
  = if ascii_dec c d then String.prefix p s else false.
Proof. reflexivity. Qed.

Lemma str_prefix_nil (s : string) : String.prefix EmptyString s = true.
Proof. destruct s; reflexivity. Qed.


Lemma str_prefix_split (p s : string) :
  String.prefix p s = true -> s = p ++ Py.drop (String.length p) s.
Proof.
  revert s. induction p as [|c p IH]; intros s H; [reflexivity|].
  destruct s as [|d s]; [discriminate|].
  rewrite str_prefix_cons in H.
  destruct (ascii_dec c d) as [->|_]; [|discriminate].
  rewrite str_append_cons. cbn [String.length Py.drop]. f_equal. apply IH, H.
Qed.

Lemma str_take_drop (n : nat) (s : string) : Py.take n s ++ Py.drop n s = s.
Proof.
  revert s. induction n as [|n IH]; intros s; [reflexivity|].
  destruct s as [|c s]; [reflexivity|].
  cbn [Py.take Py.drop]. rewrite str_append_cons. f_equal. apply IH.
Qed.

Lemma str_drop_drop (n m : nat) (s : string) :
  Py.drop m (Py.drop n s) = Py.drop (n + m) s.
Proof.
  revert s. induction n as [|n IH]; intros s; [reflexivity|].
  destruct s as [|c s]; cbn; [destruct m; reflexivity|apply IH].
Qed.

Lemma str_length_take (n : nat) (s : string) :
  n <= String.length s -> String.length (Py.take n s) = n.
Proof.
  revert s. induction n as [|n IH]; intros s H; [reflexivity|].
  destruct s as [|c s]; cbn in *; [lia|]. f_equal. apply IH. lia.
Qed.

Lemma str_length_append (a b : string) :
  String.length (a ++ b) = String.length a + String.length b.
Proof.
  induction a as [|c a IH]; [reflexivity|].
  rewrite str_append_cons. cbn [String.length]. rewrite IH. reflexivity.
Qed.

(** [find] yields the first index at which the pattern starts. *)
Lemma str_find_some (pat s : string) (i : nat) :
  Py.find pat s = Some i ->
  String.prefix pat (Py.drop i s) = true
  /\ i <= String.length s
  /\ forall j, j < i -> String.prefix pat (Py.drop j s) = false.
Proof.
  revert i. induction s as [|c s IH]; intros i; cbn [Py.find].
  - destruct (String.prefix pat EmptyString) eqn:Hp; [|discriminate].
    intros [= <-]. split; [exact Hp|]. split; [cbn; lia|]. intros j Hj. lia.
  - destruct (String.prefix pat (String c s)) eqn:Hp.
    + intros [= <-]. split; [exact Hp|]. split; [cbn; lia|]. intros j Hj. lia.
    + destruct (Py.find pat s) as [k|] eqn:Hf; [|discriminate].
      cbn. intros [= <-]. destruct (IH k eq_refl) as (H1 & H2 & H3).
      split; [exact H1|]. split; [lia|].
      intros [|j] Hj; [exact Hp|]. cbn. apply H3. lia.
Qed.

Lemma str_find_none (pat s : string) :
  Py.find pat s = None ->
  forall j, String.prefix pat (Py.drop j s) = false.
Proof.
  induction s as [|c s IH]; cbn [Py.find].
  - destruct (String.prefix pat EmptyString) eqn:Hp; [discriminate|].
    intros _ [|j]; exact Hp.
  - destruct (String.prefix pat (String c s)) eqn:Hp; [discriminate|].
    destruct (Py.find pat s) as [k|] eqn:Hf; [discriminate|].
    intros _ [|j]; [exact Hp|]. cbn. apply IH. reflexivity.
Qed.

Lemma str_find_prefix (pat s : string) (j : nat) :
  String.prefix pat (Py.drop j s) = true ->
  exists i, Py.find pat s = Some i /\ i <= j.
Proof.
  intros Hp. destruct (Py.find pat s) as [i|] eqn:Hf.
  - exists i. split; [reflexivity|].
    destruct (str_find_some _ _ _ Hf) as (_ & _ & Hfirst).
    destruct (le_lt_dec i j) as [Hle|Hlt]; [exact Hle|].
    rewrite (Hfirst j Hlt) in Hp. discriminate.
  - rewrite (str_find_none _ _ Hf j) in Hp. discriminate.
Qed.

(** [s.split(pat, 1)] cuts [s] around the first occurrence. *)
Lemma str_split1_some (pat s a b : string) :
  Py.split1 pat s = Some (a, b) -> s = a ++ pat ++ b.
Proof.
  unfold Py.split1. destruct (Py.find pat s) as [i|] eqn:Hf; [|discriminate].
  intros [= <- <-]. destruct (str_find_some _ _ _ Hf) as (Hp & _ & _).
  rewrite <- (str_take_drop i s) at 1. f_equal.
  rewrite (str_prefix_split _ _ Hp) at 1. f_equal. apply str_drop_drop.
Qed.

Lemma str_drop_app_length (a b : string) : Py.drop (String.length a) (a ++ b) = b.
Proof.
  induction a as [|c a IH]; [reflexivity|]. rewrite str_append_cons. exact IH.
Qed.

Lemma str_take_app_length (a b : string) : Py.take (String.length a) (a ++ b) = a.
Proof.
  induction a as [|c a IH]; [reflexivity|].
  rewrite str_append_cons. cbn [String.length Py.take]. f_equal. exact IH.
Qed.

Lemma str_drop_app_le (j : nat) (a b : string) :
  j <= String.length a -> Py.drop j (a ++ b) = Py.drop j a ++ b.
Proof.
  revert a. induction j as [|j IH]; intros a Hj; [reflexivity|].
  destruct a as [|c a]; cbn [String.length] in Hj; [lia|].
  rewrite str_append_cons. cbn [Py.drop]. apply IH. lia.
Qed.

Lemma str_prefix_app_l (p a b : string) :
  String.prefix p a = true -> String.prefix p (a ++ b) = true.
Proof.
  revert a. induction p as [|c p IH]; intros a H; [apply str_prefix_nil|].
  destruct a as [|d a]; [discriminate|].
  rewrite str_append_cons, str_prefix_cons. rewrite str_prefix_cons in H.
  destruct (ascii_dec c d); [apply IH, H|discriminate].
Qed.

End Strings.

(** ** Lines of a prompt *)

Section Lines.

Import Client.

(** The character [c] does not occur in [s]. *)
Fixpoint free_of (c : ascii) (s : string) : Prop :=
  match s with
  | EmptyString => True
  | String d s' => Ascii.eqb d c = false /\ free_of c s'
  end.

Lemma split_chr_nonempty (sep : ascii) (s : string) : Py.split_chr sep s <> [].
Proof.
  destruct s as [|c s]; cbn; [discriminate|].
  destruct (Ascii.eqb c sep); [discriminate|].
  destruct (Py.split_chr sep s); discriminate.
Qed.

Lemma join_cons (sep p q : string) (ps : list string) :
  Py.join sep (p :: q :: ps) = p ++ sep ++ Py.join sep (q :: ps).
Proof. reflexivity. Qed.

(** [sep.join(s.split(sep)) == s] *)
Lemma join_split (sep : ascii) (s : string) :
  Py.join (String sep EmptyString) (Py.split_chr sep s) = s.
Proof.
  induction s as [|c s IH]; [reflexivity|]. cbn [Py.split_chr].
  pose proof (split_chr_nonempty sep s) as Hne.
  destruct (Ascii.eqb c sep) eqn:Hc.
  - apply Ascii.eqb_eq in Hc as ->.
    destruct (Py.split_chr sep s) as [|w ws]; [contradiction|].
    rewrite join_cons, IH. reflexivity.
  - destruct (Py.split_chr sep s) as [|w ws]; [contradiction|].
    destruct ws as [|w' ws].
    + cbn in IH. cbn. rewrite IH. reflexivity.
    + rewrite join_cons in *. rewrite str_append_cons, IH. reflexivity.
Qed.

(** The first piece of [s.split(sep)] is a prefix of [s]. *)
Lemma split_chr_head (sep : ascii) (s w : string) (ws : list string) :
  Py.split_chr sep s = w :: ws -> exists rest, s = w ++ rest.
Proof.
  revert w ws. induction s as [|c s IH]; intros w ws; cbn [Py.split_chr].
  - intros [= <- <-]. exists EmptyString. reflexivity.
  - destruct (Ascii.eqb c sep).
    + intros [= <- <-]. eexists. reflexivity.
    + destruct (Py.split_chr sep s) as [|w' ws'] eqn:Hs.
      * intros [= <- <-]. destruct (split_chr_nonempty _ _ Hs).
      * intros [= <- <-]. destruct (IH _ _ eq_refl) as [rest ->].
        exists rest. reflexivity.
Qed.

(** A piece of [s.split(sep)] that starts with [pat] is an occurrence of
    [pat] in [s]. *)
Lemma split_chr_occurrence (sep : ascii) (pat s line : string) :
  In line (Py.split_chr sep s) -> String.prefix pat line = true ->
  Py.contains pat s = true.
Proof.
  intros Hin Hp.
  assert (H : exists j, String.prefix pat (Py.drop j s) = true).
  { revert line Hin Hp. induction s as [|c s IH]; intros line; cbn [Py.split_chr].
    - intros [<-|[]] Hp. exists 0%nat. exact Hp.
    - destruct (Ascii.eqb c sep).
      + intros [<-|Hin] Hp.
        * exists 0%nat. destruct pat; [reflexivity|discriminate].
        * destruct (IH _ Hin Hp) as [j Hj]. exists (S j). exact Hj.
      + destruct (Py.split_chr sep s) as [|w ws] eqn:Hs.
        { destruct (split_chr_nonempty _ _ Hs). }
        intros [<-|Hin] Hp.
        * destruct (split_chr_head _ _ _ _ Hs) as [rest ->].
          exists 0%nat. cbn [Py.drop]. rewrite <- str_append_cons.
          apply str_prefix_app_l, Hp.
        * destruct (IH line (or_intror Hin) Hp) as [j Hj].
          exists (S j). exact Hj. }
  destruct H as [j Hj]. destruct (str_find_prefix _ _ _ Hj) as (i & Hi & _).
  unfold Py.contains. rewrite Hi. reflexivity.
Qed.

Lemma map_id_on {A} (f : A -> A) (l : list A) :
  (forall a, In a l -> f a = a) -> map f l = l.
Proof.
  induction l as [|a l IH]; intros H; [reflexivity|]. cbn.
  rewrite (H a (or_introl eq_refl)), IH; [reflexivity|].
  intros b Hb. apply H. right. exact Hb.
Qed.

End Lines.

(** X1.  A prompt that does not contain the marker [[$REPETITION|] is
    returned unchanged by [repetition_adjustment], whether or not the
    response was found repetitive. *)
Theorem repetition_adjustment_without_marker (prompt : string) (is_repetitive : bool) :
  Py.contains "[$REPETITION|" prompt = false ->
  Client.repetition_adjustment prompt is_repetitive = prompt.
Proof.
  intros Hc. unfold Client.repetition_adjustment, Client.lines, Client.newline.
  rewrite map_id_on; [apply join_split|].
  intros line Hin. unfold Py.startswith.
  destruct (String.prefix "[$REPETITION|" line) eqn:Hp; [|reflexivity].
  rewrite (split_chr_occurrence _ _ _ _ Hin Hp) in Hc. discriminate.
Qed.

Lemma repetition_adjustment_without_marker_witness :
  Client.repetition_adjustment
    ("You are Kira." ++ Client.newline ++ "Kira: Hello there.") true
  = "You are Kira." ++ Client.newline ++ "Kira: Hello there.".
Proof.
  apply repetition_adjustment_without_marker. vm_compute. reflexivity.
Defined.

Section Adjusted.

Import Client.

Lemma split_chr_free (sep : ascii) (s : string) :
  Forall (free_of sep) (Py.split_chr sep s).
Proof.
  induction s as [|c s IH]; cbn [Py.split_chr].
  - repeat constructor.
  - destruct (Ascii.eqb c sep) eqn:Hc.
    + constructor; [exact I|exact IH].
    + destruct (Py.split_chr sep s) as [|w ws].
      * repeat constructor. exact Hc.
      * inversion IH; subst. constructor; [split; assumption|assumption].
Qed.

Lemma split_chr_free_other (c sep : ascii) (s : string) :
  free_of c s -> Forall (free_of c) (Py.split_chr sep s).
Proof.
  induction s as [|d s IH]; cbn [Py.split_chr free_of].
  - repeat constructor.
  - intros [Hd Hs]. specialize (IH Hs).
    destruct (Ascii.eqb d sep).
    + constructor; [exact I|exact IH].
    + destruct (Py.split_chr sep s) as [|w ws].
      * repeat constructor. exact Hd.
      * inversion IH; subst. constructor; [split; assumption|assumption].
Qed.

Lemma take_free (c : ascii) (n : nat) (s : string) :
  free_of c s -> free_of c (Py.take n s).
Proof.
  revert s. induction n as [|n IH]; intros s; [intros _; exact I|].
  destruct s as [|d s]; [intros _; exact I|].
  cbn [Py.take free_of]. intros [Hd Hs]. split; [exact Hd|apply IH, Hs].
Qed.

Lemma prefix_free (c : ascii) (pat s : string) :
  String.prefix pat s = true -> free_of c s -> free_of c pat.
Proof.
  revert s. induction pat as [|p pat IH]; intros s; [intros _ _; exact I|].
  destruct s as [|d s]; [discriminate|].
  rewrite str_prefix_cons. destruct (ascii_dec p d) as [->|_]; [|discriminate].
  cbn [free_of]. intros Hp [Hd Hs]. split; [exact Hd|exact (IH _ Hp Hs)].
Qed.

Lemma nth_free (c : ascii) (n : nat) (l : list string) :
  Forall (free_of c) l -> free_of c (nth n l EmptyString).
Proof.
  intros H. revert n. induction H as [|x l Hx Hl IH]; intros [|n]; cbn;
    try exact I; [exact Hx|apply IH].
Qed.

(** [s.split(sep)] undoes [sep.join] on pieces without [sep]. *)
Lemma split_join (sep : ascii) (ls : list string) :
  ls <> [] -> Forall (free_of sep) ls ->
  Py.split_chr sep (Py.join (String sep EmptyString) ls) = ls.
Proof.
  intros Hne H. induction H as [|l ls Hl Hls IH]; [contradiction|]. clear Hne.
  destruct ls as [|l' ls].
  - cbn [Py.join]. clear IH Hls. induction l as [|c l IHl]; [reflexivity|].
    destruct Hl as [Hc Hl]. cbn [Py.split_chr]. rewrite Hc, (IHl Hl). reflexivity.
  - rewrite join_cons. specialize (IH ltac:(discriminate)).
    induction l as [|c l IHl].
    + rewrite str_append_nil, str_append_cons, str_append_nil. cbn [Py.split_chr].
      rewrite Ascii.eqb_refl, IH. reflexivity.
    + destruct Hl as [Hc Hl]. rewrite str_append_cons. cbn [Py.split_chr].
      rewrite Hc, (IHl Hl). reflexivity.
Qed.

(** The line that replaces a marker line. *)
Definition adjusted_line (is_repetitive : bool) (line : string) : string :=
  if Py.startswith line "[$REPETITION|"
  then if is_repetitive
       then Py.drop_last (nth 1 (Py.split_chr "|" line) EmptyString)
       else EmptyString
  else line.

Lemma adjusted_line_free (is_repetitive : bool) (line : string) :
  free_of (ascii_of_nat 10) line ->
  free_of (ascii_of_nat 10) (adjusted_line is_repetitive line).
Proof.
  intros H. unfold adjusted_line.
  destruct (Py.startswith line "[$REPETITION|"); [|exact H].
  destruct is_repetitive; [|exact I].
  apply take_free, nth_free, split_chr_free_other, H.
Qed.

Lemma adjusted_line_unmarked (is_repetitive : bool) (line : string) :
  Py.startswith (adjusted_line is_repetitive line) "[$REPETITION|" = false.
Proof.
  unfold adjusted_line.
  destruct (Py.startswith line "[$REPETITION|") eqn:Hm; [|exact Hm].
  destruct is_repetitive; [|reflexivity].
  unfold Py.startswith.
  destruct (String.prefix _ _) eqn:Hp; [|reflexivity].
  assert (Hfree : free_of "|" "[$REPETITION|").
  { apply (prefix_free _ _ _ Hp), take_free, nth_free, split_chr_free. }
  cbn in Hfree. decompose [and] Hfree. discriminate.
Qed.

End Adjusted.

(** X2.  [repetition_adjustment] consumes every marker line: adjusting an
    adjusted prompt a second time, with either flag, changes nothing.  The
    prompt sent again by the repetition-break loop is therefore the same
    at every iteration after the first. *)
Theorem repetition_adjustment_idempotent (prompt : string) (first second : bool) :
  Client.repetition_adjustment (Client.repetition_adjustment prompt first) second
  = Client.repetition_adjustment prompt first.
Proof.
  unfold Client.repetition_adjustment at 1.
  unfold Client.repetition_adjustment at 1.
  change (fun line : string => if Py.startswith line "[$REPETITION|"
            then if first
                 then Py.drop_last (nth 1 (Py.split_chr "|" line) EmptyString)
                 else EmptyString
            else line) with (adjusted_line first).
  unfold Client.lines, Client.newline.
  rewrite split_join.
  - rewrite map_id_on; [reflexivity|].
    intros line Hin. apply in_map_iff in Hin as (l & <- & _).
    fold (adjusted_line second (adjusted_line first l)).
    unfold adjusted_line at 1. rewrite adjusted_line_unmarked. reflexivity.
  - pose proof (split_chr_nonempty (ascii_of_nat 10) prompt).
    destruct (Py.split_chr _ prompt); [contradiction|discriminate].
  - apply List.Forall_forall. intros line Hin.
    apply in_map_iff in Hin as (l & <- & Hl).
    apply adjusted_line_free.
    pose proof (split_chr_free (ascii_of_nat 10) prompt) as Hf.
    rewrite List.Forall_forall in Hf. apply Hf, Hl.
Qed.

(** ** The stopping-string cut *)

Section Stopping.

Import Client.

Lemma contains_app_l (pat a b : string) :
  Py.contains pat a = true -> Py.contains pat (a ++ b) = true.
Proof.
  unfold Py.contains. destruct (Py.find pat a) as [i|] eqn:Hf; [|discriminate].
  intros _. destruct (str_find_some _ _ _ Hf) as (Hp & Hi & _).
  assert (Hp' : String.prefix pat (Py.drop i (a ++ b)) = true).
  { rewrite str_drop_app_le by exact Hi. apply str_prefix_app_l, Hp. }
  destruct (str_find_prefix _ _ _ Hp') as (k & -> & _). reflexivity.
Qed.

Lemma str_drop_all (s : string) : Py.drop (String.length s) s = EmptyString.
Proof. induction s as [|c s IH]; [reflexivity|exact IH]. Qed.

(** The text before the first occurrence of a non-empty pattern does not
    contain the pattern. *)
Lemma split_head_excludes (pat s : string) :
  pat <> EmptyString -> Py.contains pat (Py.split_head pat s) = false.
Proof.
  intros Hne. unfold Py.split_head, Py.split1.
  destruct (Py.find pat s) as [i|] eqn:Hf.
  - destruct (str_find_some _ _ _ Hf) as (Hp & Hi & Hfirst).
    destruct (Py.contains pat (Py.take i s)) eqn:Hc; [|reflexivity].
    unfold Py.contains in Hc.
    destruct (Py.find pat (Py.take i s)) as [j|] eqn:Hj; [|discriminate].
    destruct (str_find_some _ _ _ Hj) as (Hpj & Hlen & _).
    rewrite str_length_take in Hlen by exact Hi.
    destruct (Nat.eq_dec j i) as [->|Hji].
    + rewrite <- (str_length_take i s Hi) in Hpj at 1. rewrite str_drop_all in Hpj.
      destruct pat; [contradiction|discriminate].
    + assert (Hps : String.prefix pat (Py.drop j s) = true).
      { rewrite <- (str_take_drop i s). rewrite str_drop_app_le.
        - apply str_prefix_app_l, Hpj.
        - rewrite str_length_take by exact Hi. exact Hlen. }
      rewrite Hfirst in Hps by lia. discriminate.
  - unfold Py.contains. rewrite Hf. reflexivity.
Qed.

Lemma split_head_prefix (pat s : string) :
  exists rest, s = Py.split_head pat s ++ rest.
Proof.
  unfold Py.split_head. destruct (Py.split1 pat s) as [[a b]|] eqn:Hs.
  - exists (pat ++ b). apply str_split1_some, Hs.
  - exists EmptyString. symmetry. apply str_append_nil_r.
Qed.

(** The cut yields a prefix of the response. *)
Lemma cut_prefix (stops : list string) (response cut : string) :
  cut_at_stopping_string stops response = Ok cut ->
  exists rest, response = cut ++ rest.
Proof.
  induction stops as [|s0 stops IH]; cbn [cut_at_stopping_string].
  - intros [= <-]. exists EmptyString. symmetry. apply str_append_nil_r.
  - destruct (Py.contains s0 response).
    + destruct s0 as [|c s0]; [discriminate|]. intros [= <-].
      apply split_head_prefix.
    + exact IH.
Qed.

End Stopping.

(** X3.  The stopping-string cut only ever truncates: the text it yields is
    a prefix of the response, and it is the whole response when none of
    the stopping strings occurs in it. *)
Theorem stopping_cut_truncates (stops : list string) (response cut : string) :
  Client.cut_at_stopping_string stops response = Ok cut ->
  (exists rest, response = cut ++ rest)
  /\ ((forall s, In s stops -> Py.contains s response = false) -> cut = response).
Proof.
  intros H. split; [exact (cut_prefix _ _ _ H)|].
  revert H. induction stops as [|s0 stops IH]; cbn [Client.cut_at_stopping_string].
  - intros [= <-] _. reflexivity.
  - intros H Hnone. rewrite (Hnone _ (or_introl eq_refl)) in H.
    apply IH; [exact H|]. intros s Hs. apply Hnone. right. exact Hs.
Qed.

Lemma stopping_cut_truncates_witness :
  (exists rest, "Hello.</s> and more" = "Hello." ++ rest)
  /\ ((forall s, In s Client.STOPPING_STRINGS ->
         Py.contains s "Hello.</s> and more" = false) ->
      "Hello." = "Hello.</s> and more").
Proof.
  apply (stopping_cut_truncates Client.STOPPING_STRINGS). vm_compute. reflexivity.
Defined.

(** X4.  Whatever further stopping strings a request adds, the text that
    survives the cut never contains the first stopping string of the
    list, which for [STOPPING_STRINGS] is the chat end-of-turn token. *)
Theorem stopping_cut_excludes_first (s0 : string) (stops : list string)
  (response cut : string) :
  Client.cut_at_stopping_string (s0 :: stops) response = Ok cut ->
  Py.contains s0 cut = false.
Proof.
  cbn [Client.cut_at_stopping_string].
  destruct (Py.contains s0 response) eqn:Hc.
  - destruct s0 as [|c s0]; [discriminate|]. intros [= <-].
    apply split_head_excludes. discriminate.
  - intros H. destruct (cut_prefix _ _ _ H) as [rest Hrest].
    destruct (Py.contains s0 cut) eqn:Hcut; [|reflexivity].
    rewrite Hrest, (contains_app_l _ _ rest Hcut) in Hc. discriminate.
Qed.

Lemma stopping_cut_excludes_first_witness :
  Py.contains "<|im_end|>" "Sure.</s>" = false.
Proof.
  apply (stopping_cut_excludes_first "<|im_end|>" ["</s>"; "Kira:"]
           "Sure.</s><|im_end|>Kira: and").
  vm_compute. reflexivity.
Defined.

(** ** What [_send_prompt] lets out *)

Section Outcomes.

Context (E : Env) (self : ClientBase).

(** The wait loop of the gate touches the limiter, the clock and the
    notifications only. *)
Lemma rate_limit_wait_quiet (fuel : nat) (l : CounterRateLimiter)
  (w w' : World) (aborted : bool) :
  rate_limit_wait E fuel l w = Some (aborted, w') ->
  calls w' = calls w /\ dispatched w' = dispatched w /\ heap w' = heap w
  /\ request_information w' = request_information w
  /\ forall ev, In ev (emitted w') -> In ev (emitted w) \/ is_rate_limited ev.
Proof.
  revert l w. induction fuel as [|fuel IH]; intros l w; [discriminate|].
  cbn [rate_limit_wait].
  destruct (increment (now w) l) as [[] l1].
  - intros [= <- <-]. cbn. repeat split. intros ev Hev. left. exact Hev.
  - cbn [now add_emitted set_rate_limit_counter].
    destruct (interrupted (scene_at E (now w))).
    + intros [= <- <-]. cbn. repeat split. intros ev Hev.
      apply in_app_or in Hev as [Hev|[<-|[]]]; [left; exact Hev|].
      right. eexists. reflexivity.
    + intros H. apply IH in H as (Hc & Hd & Hh & Hr & He). cbn in *.
      repeat split; try assumption. intros ev Hev.
      destruct (He ev Hev) as [Hin|Hrl]; [|right; exact Hrl].
      apply in_app_or in Hin as [Hin|[<-|[]]]; [left; exact Hin|].
      right. eexists. reflexivity.
Qed.

Lemma rate_limit_gate_quiet (fuel : nat) (w w' : World) (r : result unit) :
  rate_limit_gate E fuel w = Some (r, w') ->
  calls w' = calls w /\ dispatched w' = dispatched w /\ heap w' = heap w
  /\ request_information w' = request_information w
  /\ forall ev, In ev (emitted w') ->
       In ev (emitted w) \/ is_rate_limited ev \/ ev = rate_limit_reset.
Proof.
  unfold rate_limit_gate. destruct (rate_limit_counter w) as [l|].
  - destruct (rate_limit_wait E fuel l w) as [[aborted w1]|] eqn:Hw; [|discriminate].
    intros [= _ <-]. apply rate_limit_wait_quiet in Hw as (Hc & Hd & Hh & Hr & He).
    cbn. repeat split; try assumption. intros ev Hev.
    apply in_app_or in Hev as [Hev|[<-|[]]]; [|right; right; reflexivity].
    destruct (He ev Hev); [left|right; left]; assumption.
  - intros [= _ <-]. repeat split. intros ev Hev. left. exact Hev.
Qed.

(** The gate raises nothing but [GenerationCancelled]. *)
Lemma rate_limit_gate_raises (fuel : nat) (w w' : World) (e : exn) :
  rate_limit_gate E fuel w = Some (Raise e, w') -> e = GenerationCancelled.
Proof.
  unfold rate_limit_gate. destruct (rate_limit_counter w) as [l|]; [|discriminate].
  destruct (rate_limit_wait E fuel l w) as [[[] w1]|]; [| |discriminate].
  - intros [= <- _]. reflexivity.
  - discriminate.
Qed.

End Outcomes.

(** X5.  [_send_prompt] raises nothing but [GenerationCancelled],
    [SceneInactiveError] and [ClientDisabledError]: every other failure of
    the preparation, of the provider or of the repetition-break loop is
    turned into a returned value. *)
Theorem send_prompt_raises_only (E : Env) (self : ClientBase) (fuel : nat)
  (prompt kind : string) (retries : Z) (w w' : World) (e : exn) :
  _send_prompt E self fuel prompt kind retries w = Some (Raise e, w') ->
  e = GenerationCancelled \/ e = SceneInactiveError \/ e = ClientDisabledError.
Proof.
  unfold _send_prompt.
  destruct (rate_limit_gate E fuel w) as [[r w1]|] eqn:Hgate; [|discriminate].
  assert (Hbody :
    Some match scene_at E (now w1) with
         | NoScene => (Raise SceneInactiveError, w1)
         | Scene false _ => (Raise SceneInactiveError, w1)
         | Scene true _ =>
             if negb (enabled self) then (Raise ClientDisabledError, w1)
             else
               try_finally
                 (try_except (attempt E self prompt kind retries)
                    (emit (status_error "Error during generation (check logs)") ;;
                     ret EmptyString))
                 cleanup w1
         end = Some (Raise e, w') ->
    e = GenerationCancelled \/ e = SceneInactiveError \/ e = ClientDisabledError).
  { destruct (scene_at E (now w1)) as [|[] cancel_requested].
    - intros [= <- _]. auto.
    - destruct (negb (enabled self)); [intros [= <- _]; auto|].
      unfold try_finally, try_except.
      destruct (attempt E self prompt kind retries w1) as [[a|e1] w2].
      + discriminate.
      + destruct e1; cbn; first [discriminate | intros [= <- _]; auto].
    - intros [= <- _]. auto. }
  destruct r as [[]|e0]; [exact Hbody|].
  rewrite (rate_limit_gate_raises E _ _ _ _ Hgate). intros [= <- _]. auto.
Qed.

Lemma send_prompt_raises_only_witness :
  GenerationCancelled = GenerationCancelled
  \/ GenerationCancelled = SceneInactiveError
  \/ GenerationCancelled = ClientDisabledError.
Proof.
  apply (send_prompt_raises_only (env 5) client 1 "Once upon a time"
           "conversation" 1 (world 2 0)
           (cleanup (snd (attempt (env 5) client "Once upon a time"
                            "conversation" 1 admitted_world)))).
  vm_compute. reflexivity.
Defined.

(** X6.  When the preparation of a request raises anything but a
    cancellation (the parameter presets, the prompt template or a finalizer
    fail), [_send_prompt] returns the empty string.  The busy status has
    then been emitted twice, by [emit_status(processing=True)] and by
    [status()], followed by the error notification and the idle status;
    no provider call was issued or logged, no request record was opened
    and no parameter object was kept. *)
Theorem preparation_error_returns_empty_string (E : Env) (self : ClientBase)
  (fuel : nat) (prompt kind : string) (retries : Z) (w w1 : World)
  (cancel_requested : bool) (e : exn) :
  rate_limit_gate E fuel w = Some (Ok tt, w1) ->
  scene_at E (now w1) = Scene true cancel_requested ->
  enabled self = true ->
  prepare E kind prompt = Raise e ->
  e <> GenerationCancelled ->
  exists w',
    _send_prompt E self fuel prompt kind retries w = Some (Ok EmptyString, w')
    /\ emitted w'
       = (emitted w1
          ++ [client_status true; client_status true;
              status_error "Error during generation (check logs)";
              client_status false])%list
    /\ calls w' = calls w1
    /\ dispatched w' = dispatched w1
    /\ request_information w' = request_information w1
    /\ heap w' = heap w1.
Proof.
  intros Hgate Hscene Henabled Hprepare Hne.
  unfold _send_prompt. rewrite Hgate, Hscene, Henabled. cbn [negb].
  unfold try_finally, try_except, attempt, bind at 1, emit, modify.
  unfold bind at 1. unfold bind at 1, lift. rewrite Hprepare.
  eexists. split.
  - destruct e; try contradiction; reflexivity.
  - unfold cleanup.
    cbn [rate_limit_counter add_emitted set_rate_limit_counter].
    destruct (rate_limit_counter w1); cbn; repeat split; rewrite <- ?app_assoc;
      reflexivity.
Qed.

Lemma preparation_error_returns_empty_string_witness :
  exists w',
    _send_prompt Scenarios.failing_env client 1 "Once upon a time" "conversation" 1
      (world 2 0) = Some (Ok EmptyString, w')
    /\ emitted w'
       = (emitted admitted_world
          ++ [client_status true; client_status true;
              status_error "Error during generation (check logs)";
              client_status false])%list
    /\ calls w' = calls admitted_world
    /\ dispatched w' = dispatched admitted_world
    /\ request_information w' = request_information admitted_world
    /\ heap w' = heap admitted_world.
Proof.
  apply (preparation_error_returns_empty_string Scenarios.failing_env client 1
           "Once upon a time" "conversation" 1 (world 2 0) admitted_world false
           (KeyError "other_characters")).
  - reflexivity.
  - reflexivity.
  - reflexivity.
  - reflexivity.
  - discriminate.
Defined.

(** X7.  A disabled client never reaches the provider: [_send_prompt]
    raises, and no call is issued or logged. *)
Theorem disabled_client_never_dispatches (E : Env) (self : ClientBase)
  (fuel : nat) (prompt kind : string) (retries : Z) (w w' : World)
  (r : result string) :
  enabled self = false ->
  _send_prompt E self fuel prompt kind retries w = Some (r, w') ->
  (exists e, r = Raise e)
  /\ calls w' = calls w /\ dispatched w' = dispatched w.
Proof.
  intros Hoff. unfold _send_prompt.
  destruct (rate_limit_gate E fuel w) as [[g w1]|] eqn:Hgate; [|discriminate].
  destruct (rate_limit_gate_quiet E _ _ _ _ Hgate) as (Hc & Hd & _).
  rewrite Hoff. cbn [negb].
  assert (Hbody :
    Some match scene_at E (now w1) with
         | NoScene => (Raise SceneInactiveError, w1)
         | Scene false _ => (Raise SceneInactiveError, w1)
         | Scene true _ => (@Raise string ClientDisabledError, w1)
         end = Some (r, w') ->
    (exists e, r = Raise e)
    /\ calls w' = calls w /\ dispatched w' = dispatched w).
  { destruct (scene_at E (now w1)) as [|[] cancel_requested];
      intros [= <- <-]; (split; [eexists; reflexivity|split; assumption]). }
  destruct g as [[]|e0]; [exact Hbody|].
  destruct e0; try exact Hbody.
  intros [= <- <-]. split; [eexists; reflexivity|split; assumption].
Qed.

Lemma disabled_client_never_dispatches_witness :
  (exists e, @Raise string ClientDisabledError = Raise e)
  /\ calls admitted_world = calls (world 2 0)
  /\ dispatched admitted_world = dispatched (world 2 0).
Proof.
  apply (disabled_client_never_dispatches (env 50) Scenarios.disabled_client 1
           "Once upon a time" "conversation" 1 (world 2 0) admitted_world
           (Raise ClientDisabledError)).
  - reflexivity.
  - reflexivity.
Defined.

(** X8.  When [_send_prompt] raises [SceneInactiveError] or
    [ClientDisabledError], the request was rejected before its [try]
    block: no call was issued, no parameter object was built, no request
    record was opened, and the only notifications emitted are those of
    the rate-limit gate; neither status notification appears. *)
Theorem rejected_request_leaves_no_trace (E : Env) (self : ClientBase)
  (fuel : nat) (prompt kind : string) (retries : Z) (w w' : World) (e : exn) :
  _send_prompt E self fuel prompt kind retries w = Some (Raise e, w') ->
  e <> GenerationCancelled ->
  calls w' = calls w /\ heap w' = heap w
  /\ request_information w' = request_information w
  /\ forall ev, In ev (emitted w') ->
       In ev (emitted w) \/ is_rate_limited ev \/ ev = rate_limit_reset.
Proof.
  intros H Hne. unfold _send_prompt in H.
  destruct (rate_limit_gate E fuel w) as [[g w1]|] eqn:Hgate; [|discriminate].
  destruct (rate_limit_gate_quiet E _ _ _ _ Hgate) as (Hc & _ & Hh & Hr & He).
  assert (Hbody :
    Some match scene_at E (now w1) with
         | NoScene => (Raise SceneInactiveError, w1)
         | Scene false _ => (Raise SceneInactiveError, w1)
         | Scene true _ =>
             if negb (enabled self) then (Raise ClientDisabledError, w1)
             else
               try_finally
                 (try_except (attempt E self prompt kind retries)
                    (emit (status_error "Error during generation (check logs)") ;;
                     ret EmptyString))
                 cleanup w1
         end = Some (Raise e, w') -> w' = w1).
  { destruct (scene_at E (now w1)) as [|[] cancel_requested].
    - intros [= _ <-]. reflexivity.
    - destruct (negb (enabled self)); [intros [= _ <-]; reflexivity|].
      unfold try_finally, try_except.
      destruct (attempt E self prompt kind retries w1) as [[a|e1] w2].
      + discriminate.
      + destruct e1; cbn; first [discriminate | intros [= <- _]; contradiction].
    - intros [= _ <-]. reflexivity. }
  assert (Hw : w' = w1).
  { destruct g as [[]|e0]; [exact (Hbody H)|].
    destruct e0; try exact (Hbody H).
    injection H as <- _. contradiction. }
  subst w'. repeat split; assumption.
Qed.

Lemma rejected_request_leaves_no_trace_witness :
  calls admitted_world = calls (world 2 0)
  /\ heap admitted_world = heap (world 2 0)
  /\ request_information admitted_world = request_information (world 2 0)
  /\ forall ev, In ev (emitted admitted_world) ->
       In ev (emitted (world 2 0)) \/ is_rate_limited ev \/ ev = rate_limit_reset.
Proof.
  apply (rejected_request_leaves_no_trace (env 50) Scenarios.disabled_client 1
           "Once upon a time" "conversation" 1 (world 2 0) admitted_world
           ClientDisabledError).
  - reflexivity.
  - discriminate.
Defined.

(** ** Request records *)

Section Telemetry.

Context (E : Env).

Lemma poll_scan_bound (n t tp : nat) :
  poll_scan E n t = Some tp -> t <= tp <= t + 3 * n.
Proof.
  revert t. induction n as [|n IH]; intros t; cbn [poll_scan];
    destruct (interrupted (scene_at E t)).
  - intros [= <-]. lia.
  - discriminate.
  - intros [= <-]. lia.
  - intros H. apply IH in H. lia.
Qed.

(** Whenever the result of the generation task is the one picked, the
    wait ended at the instant generation completed. *)
Lemma asyncio_wait_generate_popped (t0 d t : nat) (done pending : list task) :
  asyncio_wait E t0 d = (t, done, pending) ->
  pop E done = task_generate -> t = t0 + d.
Proof.
  unfold asyncio_wait. destruct (poll_scan E (d / 3) t0) as [tp|] eqn:Hp.
  - apply poll_scan_bound in Hp. pose proof (Nat.Div0.mul_div_le d 3).
    destruct (tp <? t0 + d)%nat eqn:Hlt.
    + intros [= <- <- <-]. discriminate.
    + apply Nat.ltb_ge in Hlt. intros [= <- <- <-] _. lia.
  - intros [= <- <- <-] _. reflexivity.
Qed.

End Telemetry.

(** X9.  When the dispatch returns a text, the request record it leaves
    spans exactly the provider call: it starts at the instant of the
    dispatch and ends, at the instant the dispatch returns, after the
    duration of that call. *)
Theorem dispatch_times_request (E : Env) (prompt_sent : string)
  (prompt_param : loc) (kind : string) (w w' : World) (response : string) :
  dispatch E prompt_sent prompt_param kind w = (Ok response, w') ->
  request_information w'
  = Some {| start_time := now w; end_time := Some (now w') |}
  /\ now w' = now w + duration (reply E prompt_sent prompt_param w).
Proof.
  unfold dispatch, bind, new_request, end_request, modify, _cancelable_generate.
  change (reply E prompt_sent prompt_param (set_request_information _ w))
    with (reply E prompt_sent prompt_param w).
  cbn [now set_request_information].
  destruct (asyncio_wait E (now w) (duration (reply E prompt_sent prompt_param w)))
    as [[t done] pending] eqn:Hwait.
  destruct (pop E done) eqn:Hpop; [discriminate|].
  pose proof (asyncio_wait_generate_popped E _ _ _ _ _ Hwait Hpop) as ->.
  destruct (outcome (reply E prompt_sent prompt_param w)); [|discriminate].
  cbn. intros [= _ <-]. cbn. split; reflexivity.
Qed.

Lemma dispatch_times_request_witness :
  request_information
    (snd (dispatch (env 50) "Once upon a time" 0 "conversation" (world 2 0)))
  = Some {| start_time := now (world 2 0);
            end_time := Some (now (snd (dispatch (env 50) "Once upon a time" 0
                                          "conversation" (world 2 0)))) |}
  /\ now (snd (dispatch (env 50) "Once upon a time" 0 "conversation" (world 2 0)))
     = now (world 2 0)
       + duration (reply (env 50) "Once upon a time" 0 (world 2 0)).
Proof.
  apply (dispatch_times_request (env 50) "Once upon a time" 0 "conversation"
           (world 2 0) _ "The hero drew his sword.").
  vm_compute. reflexivity.
Defined.

(** ** The randomness jiggle *)

Section Jiggle.

Context (E : Env).

(** [random.uniform(a, b)] lies between its bounds when the draw lies in
    the unit interval. *)
Lemma uniform_between (a b r : Q) :
  (a <= b)%Q -> (0 <= r)%Q -> (r <= 1)%Q ->
  (a <= a + (b - a) * r)%Q /\ (a + (b - a) * r <= b)%Q.
Proof. intros Hab H0 H1. split; nra. Qed.

Lemma min_max_clamp (lo hi x : Q) :
  (lo <= hi)%Q ->
  (lo <= Num.min hi (Num.max lo x))%Q /\ (Num.min hi (Num.max lo x) <= hi)%Q.
Proof.
  intros Hle. unfold Num.min, Num.max.
  destruct (Num.ltb lo x) eqn:Hx.
  - apply ltb_lt in Hx. destruct (Num.ltb x hi) eqn:Hh.
    + apply ltb_lt in Hh. split; lra.
    + split; lra.
  - destruct (Num.ltb lo hi) eqn:Hh.
    + split; lra.
    + split; lra.
Qed.

End Jiggle.

(** X10.  On a parameter object whose temperature is a number, the base
    jiggle succeeds, replaces the temperature by one that lies between
    the old temperature plus 0.3 times the offset and the old temperature
    plus the offset, and leaves every other parameter as it was; so with
    a positive offset the temperature strictly rises at every retry. *)
Theorem base_jiggle_raises_temperature (E : Env) (prompt_config : loc)
  (offset : Q) (w : World) (d : dict) (v : pyval) (temp : Q) :
  heap w !! prompt_config = Some d ->
  d !! "temperature" = Some v ->
  as_float v = Ok temp ->
  (0 <= offset)%Q ->
  (0 <= random E (draws w))%Q -> (random E (draws w) <= 1)%Q ->
  exists t w',
    base_jiggle_randomness E prompt_config offset w = (Ok tt, w')
    /\ heap w' !! prompt_config = Some (<["temperature" := VFloat t]> d)
    /\ (temp + offset * (3 # 10) <= t)%Q /\ (t <= temp + offset)%Q.
Proof.
  intros Hd Hv Hf Hoff H0 H1.
  unfold base_jiggle_randomness, bind, getitem, lift, uniform, setitem.
  rewrite Hd, Hv, Hf. cbn [heap add_draw]. rewrite Hd.
  eexists. eexists. split; [reflexivity|].
  cbn [heap set_heap]. rewrite lookup_insert_eq. split; [reflexivity|].
  apply uniform_between; [lra|exact H0|exact H1].
Qed.

Lemma base_jiggle_raises_temperature_witness :
  exists t w',
    base_jiggle_randomness (env 50) 0 (5 # 10) world_with_parameters = (Ok tt, w')
    /\ heap w' !! 0%nat
       = Some (<["temperature" := VFloat t]>
                 ({[ "temperature" := VFloat (7 # 10);
                     "max_tokens" := VInt 100 ]} : dict))
    /\ ((7 # 10) + (5 # 10) * (3 # 10) <= t)%Q /\ (t <= (7 # 10) + (5 # 10))%Q.
Proof.
  apply (base_jiggle_raises_temperature (env 50) 0%nat (5 # 10)
           world_with_parameters _ (VFloat (7 # 10))).
  - reflexivity.
  - reflexivity.
  - reflexivity.
  - lra.
  - cbn. lra.
  - cbn. lra.
Defined.

(** X11.  On a parameter object whose temperature is a number and whose
    presence penalty is a number or absent, the TabbyAPI jiggle succeeds.
    It sets [min_p] between 0.05 and 0.15; a presence penalty that was
    present ends between 0.1 and 0.5 whatever its old value, the offset
    and the draw, and one that was absent stays absent. *)
Theorem tabbyapi_jiggle_bounds (E : Env) (prompt_config : loc) (offset : Q)
  (w : World) (d : dict) (v : pyval) (temp : Q) :
  heap w !! prompt_config = Some d ->
  d !! "temperature" = Some v ->
  as_float v = Ok temp ->
  match d !! "presence_penalty" with
  | Some vp => exists pp, as_float vp = Ok pp
  | None => True
  end ->
  (0 <= random E (S (draws w)))%Q -> (random E (S (draws w)) <= 1)%Q ->
  exists w' d' p,
    tabbyapi_jiggle_randomness E prompt_config offset w = (Ok tt, w')
    /\ heap w' !! prompt_config = Some d'
    /\ d' !! "min_p" = Some (VFloat p)
    /\ ((5 # 100) <= p)%Q /\ (p <= (15 # 100))%Q
    /\ match d !! "presence_penalty" with
       | Some _ =>
           exists q, d' !! "presence_penalty" = Some (VFloat q)
                     /\ ((1 # 10) <= q)%Q /\ (q <= (5 # 10))%Q
       | None => d' !! "presence_penalty" = None
       end.
Proof.
  intros Hd Hv Hf Hpp H0 H1.
  unfold tabbyapi_jiggle_randomness.
  unfold bind at 1, getitem at 1. rewrite Hd, Hv.
  unfold bind at 1, lift at 1. rewrite Hf.
  unfold bind at 1, uniform at 1.
  unfold bind at 1, setitem at 1. cbn [heap add_draw]. rewrite Hd.
  unfold bind at 1, uniform at 1.
  unfold bind at 1, setitem at 1. cbn [heap add_draw set_heap draws next_loc].
  rewrite lookup_insert_eq.
  unfold except_KeyError, bind at 1, getitem at 1.
  cbn [heap add_draw set_heap draws next_loc].
  rewrite lookup_insert_eq.
  rewrite lookup_insert_ne by discriminate.
  rewrite lookup_insert_ne by discriminate.
  destruct (d !! "presence_penalty") as [vp|] eqn:Hvp.
  - destruct Hpp as [pp Hpp].
    unfold bind at 1, lift at 1. rewrite Hpp.
    unfold bind at 1, uniform at 1, setitem.
    cbn [heap add_draw set_heap draws next_loc].
    rewrite lookup_insert_eq.
    eexists. eexists. eexists. split; [reflexivity|].
    cbn [heap set_heap]. rewrite lookup_insert_eq. split; [reflexivity|].
    rewrite lookup_insert_ne by discriminate. rewrite lookup_insert_eq.
    split; [reflexivity|].
    pose proof (uniform_between (5 # 100) (15 # 100)
                  (random E (S (draws w))) ltac:(lra) H0 H1) as [Ha Hb].
    split; [exact Ha|]. split; [exact Hb|].
    eexists. rewrite lookup_insert_eq. split; [reflexivity|].
    apply min_max_clamp. lra.
  - eexists. eexists. eexists. split; [reflexivity|].
    cbn [heap set_heap]. rewrite lookup_insert_eq. split; [reflexivity|].
    rewrite lookup_insert_eq. split; [reflexivity|].
    pose proof (uniform_between (5 # 100) (15 # 100)
                  (random E (S (draws w))) ltac:(lra) H0 H1) as [Ha Hb].
    split; [exact Ha|]. split; [exact Hb|].
    rewrite lookup_insert_ne by discriminate.
    rewrite lookup_insert_ne by discriminate. exact Hvp.
Qed.

Lemma tabbyapi_jiggle_bounds_witness :
  exists w' d' p,
    tabbyapi_jiggle_randomness (env 50) 0 (5 # 10) Scenarios.tabby_world
    = (Ok tt, w')
    /\ heap w' !! 0%nat = Some d'
    /\ d' !! "min_p" = Some (VFloat p)
    /\ ((5 # 100) <= p)%Q /\ (p <= (15 # 100))%Q
    /\ match Scenarios.tabby_parameters !! "presence_penalty" with
       | Some _ =>
           exists q, d' !! "presence_penalty" = Some (VFloat q)
                     /\ ((1 # 10) <= q)%Q /\ (q <= (5 # 10))%Q
       | None => d' !! "presence_penalty" = None
       end.
Proof.
  apply (tabbyapi_jiggle_bounds (env 50) 0%nat (5 # 10) Scenarios.tabby_world
           Scenarios.tabby_parameters (VFloat (7 # 10)) (7 # 10)).
  - reflexivity.
  - reflexivity.
  - reflexivity.
  - exists (2 # 10). reflexivity.
  - cbn. lra.
  - cbn. lra.
Defined.

(** X12.  The repetition-break loop needs a [temperature] among the
    sampling parameters: when a response is found repetitive, a retry is
    left and the parameter object has no such key, the loop raises
    [KeyError] before any further provider call, and nothing has changed;
    this holds for the base and the TabbyAPI jiggle alike. *)
Theorem retry_without_temperature_raises (E : Env) (self : ClientBase)
  (finalized_prompt : string) (prompt_param : loc) (response kind : string)
  (retries pad_max_tokens : Z) (w : World) (d : dict) (score : Q)
  (matched_line : string) :
  auto_break_repetition_enabled self = true ->
  Py.truthy (Py.strip response) = true ->
  jiggle_enabled_for E kind = true ->
  similarity_score E response (lines finalized_prompt) 80
  = (true, score, matched_line) ->
  (0 < retries)%Z ->
  heap w !! prompt_param = Some d ->
  d !! "temperature" = None ->
  auto_break_repetition E self finalized_prompt prompt_param response kind
    retries pad_max_tokens w
  = (Raise (KeyError "temperature"), w).
Proof.
  intros Hon Hresp Hjig Hsim Hret Hd Hnone.
  unfold auto_break_repetition. rewrite Hon, Hresp, Hjig, Hsim. cbn [negb orb].
  unfold bind at 1. rewrite retry_loop_unfold. cbn [st_is_repetition andb].
  apply Z.ltb_lt in Hret. rewrite Hret.
  assert (Hit : forall st,
    retry_iteration E self prompt_param kind pad_max_tokens st w
    = (Raise (KeyError "temperature"), w)).
  { intros st. unfold retry_iteration, bind at 1, jiggle_randomness.
    destruct (client_type self).
    - unfold base_jiggle_randomness, bind at 1, getitem. rewrite Hd, Hnone.
      reflexivity.
    - unfold tabbyapi_jiggle_randomness, bind at 1, getitem. rewrite Hd, Hnone.
      reflexivity. }
  rewrite Hit. reflexivity.
Qed.

Lemma retry_without_temperature_raises_witness :
  auto_break_repetition (env 50) client "The hero drew his sword." 0
    "The hero drew his sword." "conversation" 1 32 Scenarios.bare_world
  = (Raise (KeyError "temperature"), Scenarios.bare_world).
Proof.
  apply (retry_without_temperature_raises (env 50) client
           "The hero drew his sword." 0%nat "The hero drew his sword."
           "conversation" 1 32 Scenarios.bare_world
           ({[ "max_tokens" := VInt 100 ]} : dict) 100%Q
           "The hero drew his sword.").
  - reflexivity.
  - reflexivity.
  - reflexivity.
  - reflexivity.
  - lia.
  - reflexivity.
  - reflexivity.
Defined.

(** ** A repetition that persists *)

Section Exhaust.

Context (E : Env) (self : ClientBase) (L : loc).

Definition numeric (v : pyval) : Prop := exists q, as_float v = Ok q.

(** The parameters the loop reads are present and are numbers. *)
Definition ready (d : dict) : Prop :=
  (exists v, d !! "temperature" = Some v /\ numeric v)
  /\ (exists v, d !! max_tokens_param_name self = Some v /\ numeric v)
  /\ (forall v, d !! "presence_penalty" = Some v -> numeric v).

Definition loop_ready (w : World) : Prop :=
  exists d, heap w !! L = Some d /\ ready d.

Lemma numeric_float (q : Q) : numeric (VFloat q).
Proof. exists q. reflexivity. Qed.

Lemma numeric_add_int (v : pyval) (n : Z) :
  numeric v -> exists padded, add_int v n = Ok padded /\ numeric padded.
Proof.
  intros [q Hq]. destruct v; try discriminate; cbn; eexists;
    (split; [reflexivity|eexists; reflexivity]).
Qed.

Lemma ready_insert (d : dict) (key : string) (v : pyval) :
  ready d -> numeric v -> ready (<[key := v]> d).
Proof.
  intros (Ht & Hm & Hp) Hv.
  assert (Hkeep : forall k, (exists x, d !! k = Some x /\ numeric x) ->
                            exists x, <[key := v]> d !! k = Some x /\ numeric x).
  { intros k (x & Hx & Hnx). destruct (decide (key = k)) as [->|Hne].
    - exists v. rewrite lookup_insert_eq. split; [reflexivity|exact Hv].
    - exists x. rewrite lookup_insert_ne by exact Hne. split; assumption. }
  split; [apply Hkeep, Ht|]. split; [apply Hkeep, Hm|].
  intros x. destruct (decide (key = "presence_penalty")) as [->|Hne].
  - rewrite lookup_insert_eq. intros [= <-]. exact Hv.
  - rewrite lookup_insert_ne by exact Hne. apply Hp.
Qed.

Lemma jiggle_ready (offset : Q) (w : World) :
  loop_ready w ->
  exists w', jiggle_randomness E self L offset w = (Ok tt, w')
             /\ loop_ready w' /\ calls w' = calls w.
Proof.
  intros (d & Hd & Hr). pose proof Hr as ((v & Hv & q & Hq) & _ & Hp).
  unfold jiggle_randomness. destruct (client_type self).
  - unfold base_jiggle_randomness, bind, getitem, lift, uniform, setitem.
    rewrite Hd, Hv, Hq. cbn [heap add_draw]. rewrite Hd.
    eexists. split; [reflexivity|]. split; [|reflexivity].
    eexists. cbn [heap set_heap]. rewrite lookup_insert_eq.
    split; [reflexivity|]. apply ready_insert; [exact Hr|apply numeric_float].
  - unfold tabbyapi_jiggle_randomness.
    unfold bind at 1, getitem at 1. rewrite Hd, Hv.
    unfold bind at 1, lift at 1. rewrite Hq.
    unfold bind at 1, uniform at 1.
    unfold bind at 1, setitem at 1. cbn [heap add_draw]. rewrite Hd.
    unfold bind at 1, uniform at 1.
    unfold bind at 1, setitem at 1. cbn [heap add_draw set_heap draws next_loc].
    rewrite lookup_insert_eq.
    unfold except_KeyError, bind at 1, getitem at 1.
    cbn [heap add_draw set_heap draws next_loc].
    rewrite lookup_insert_eq.
    rewrite lookup_insert_ne by discriminate.
    rewrite lookup_insert_ne by discriminate.
    destruct (d !! "presence_penalty") as [vp|] eqn:Hvp.
    + destruct (Hp vp eq_refl) as [pp Hpp].
      unfold bind at 1, lift at 1. rewrite Hpp.
      unfold bind at 1, uniform at 1, setitem.
      cbn [heap add_draw set_heap draws next_loc].
      rewrite lookup_insert_eq.
      eexists. split; [reflexivity|]. split; [|reflexivity].
      eexists. cbn [heap set_heap]. rewrite lookup_insert_eq.
      split; [reflexivity|].
      repeat (apply ready_insert; [|apply numeric_float]). exact Hr.
    + eexists. split; [reflexivity|]. split; [|reflexivity].
      eexists. cbn [heap set_heap]. rewrite lookup_insert_eq.
      split; [reflexivity|].
      repeat (apply ready_insert; [|apply numeric_float]). exact Hr.
Qed.

Hypothesis provider_answers :
  forall k prompt content, exists text,
    outcome (provider E k prompt content) = Ok text.
Hypothesis always_repetitive :
  forall response ls, exists score matched_line,
    similarity_score E response ls 80 = (true, score, matched_line).

Lemma retry_iteration_ready (kind : string) (pad_max_tokens : Z)
  (st : retry_state) (w : World) :
  loop_ready w ->
  exists st' w',
    retry_iteration E self L kind pad_max_tokens st w = (Ok st', w')
    /\ loop_ready w' /\ calls w' = S (calls w)
    /\ st_is_repetition st' = true.
Proof.
  intros Hw. unfold retry_iteration. unfold bind at 1.
  destruct (jiggle_ready (5 # 10) w Hw) as (w1 & -> & (d & Hd & Hr) & Hc).
  pose proof Hr as (_ & (v & Hv & Hnv) & _).
  unfold bind at 1, getitem. rewrite Hd, Hv.
  destruct (numeric_add_int v pad_max_tokens Hnv) as (padded & Hpad & Hnp).
  unfold bind at 1, lift. rewrite Hpad.
  unfold bind at 1, setitem. rewrite Hd.
  unfold bind at 1, generate.
  match goal with
  | |- context [outcome ?g] =>
      destruct (provider_answers (calls w1)
                  (repetition_adjustment (st_finalized_prompt st) true)
                  (content_of L (set_heap (<[L := <[max_tokens_param_name self
                     := padded]> d]> (heap w1)) (next_loc w1) w1)))
        as [text Htext]
  end.
  unfold reply. cbn [calls set_heap]. rewrite Htext.
  match goal with
  | |- context [similarity_score E ?r ?ls 80] =>
      destruct (always_repetitive r ls) as (score & matched_line & ->)
  end.
  eexists. eexists. split; [reflexivity|].
  split; [|split; [cbn; rewrite Hc; reflexivity|reflexivity]].
  eexists. cbn [heap set_now add_dispatch set_heap].
  rewrite lookup_insert_eq. split; [reflexivity|].
  apply ready_insert; assumption.
Qed.

Lemma retry_loop_exhausts (kind : string) (pad_max_tokens retries : Z)
  (st : retry_state) (w : World) :
  loop_ready w -> st_is_repetition st = true ->
  exists st' w',
    retry_loop E self L kind pad_max_tokens retries st w = (Ok st', w')
    /\ calls w' = calls w + Z.to_nat retries
    /\ st_is_repetition st' = true.
Proof.
  remember (Z.to_nat retries) as n eqn:Hn.
  revert retries st w Hn. induction n as [|n IH]; intros retries st w Hn Hw Hst;
    rewrite retry_loop_unfold, Hst; cbn [andb].
  - replace (0 <? retries)%Z with false by (symmetry; apply Z.ltb_ge; lia).
    exists st, w. split; [reflexivity|]. split; [lia|exact Hst].
  - replace (0 <? retries)%Z with true by (symmetry; apply Z.ltb_lt; lia).
    destruct (retry_iteration_ready kind pad_max_tokens st w Hw)
      as (st1 & w1 & -> & Hw1 & Hc1 & Hst1).
    destruct (IH (retries - 1)%Z st1 w1 ltac:(lia) Hw1 Hst1)
      as (st' & w' & Hloop & Hc & Hst').
    exists st', w'. split; [exact Hloop|]. split; [lia|exact Hst'].
Qed.

End Exhaust.

(** X13.  When every retried response is judged repetitive again, the
    provider answers every call, and the temperature, the token limit and
    (if present) the presence penalty of the parameter object are numbers,
    the repetition-break loop spends its whole budget, one provider call
    per retry, and then returns a response all the same. *)
Theorem persistent_repetition_exhausts_budget (E : Env) (self : ClientBase)
  (finalized_prompt : string) (prompt_param : loc) (response kind : string)
  (retries pad_max_tokens : Z) (w : World) :
  auto_break_repetition_enabled self = true ->
  Py.truthy (Py.strip response) = true ->
  jiggle_enabled_for E kind = true ->
  (forall k prompt content, exists text,
      outcome (provider E k prompt content) = Ok text) ->
  (forall response ls, exists score matched_line,
      similarity_score E response ls 80 = (true, score, matched_line)) ->
  loop_ready self prompt_param w ->
  exists answer w',
    auto_break_repetition E self finalized_prompt prompt_param response kind
      retries pad_max_tokens w = (Ok answer, w')
    /\ calls w' = calls w + Z.to_nat retries.
Proof.
  intros Hon Hresp Hjig Hprov Hsim Hw.
  unfold auto_break_repetition. rewrite Hon, Hresp, Hjig. cbn [negb orb].
  destruct (Hsim response (lines finalized_prompt)) as (score & matched & ->).
  cbn [negb]. unfold bind.
  match goal with
  | |- context [retry_loop E self prompt_param kind pad_max_tokens retries ?st w] =>
      destruct (retry_loop_exhausts E self prompt_param Hprov Hsim kind
                  pad_max_tokens retries st w Hw eq_refl)
        as (st' & w' & -> & Hc & _)
  end.
  eexists. eexists. split; [reflexivity|exact Hc].
Qed.

Lemma persistent_repetition_exhausts_budget_witness :
  exists answer w',
    auto_break_repetition (env 50) client "The hero drew his sword." 0
      "The hero drew his sword." "conversation" 3 32 world_with_parameters
    = (Ok answer, w')
    /\ calls w' = calls world_with_parameters + Z.to_nat 3.
Proof.
  apply (persistent_repetition_exhausts_budget (env 50) client).
  - reflexivity.
  - reflexivity.
  - reflexivity.
  - intros k prompt content. eexists. reflexivity.
  - intros response ls. eexists. eexists. reflexivity.
  - eexists. split; [reflexivity|]. split; [|split].
    + eexists. split; [reflexivity|]. eexists. reflexivity.
    + eexists. split; [reflexivity|]. eexists. reflexivity.
    + intros v Hv. discriminate.
Defined.

(** ** Revision: speaker prefix and the regex detector *)

Section Prefix.

Context (self : Editor).


Lemma mapM_raises {A B} (f : A -> result B) (l : list A) (a : A) :
  In a l -> (exists e, f a = Raise e) -> exists e, mapM f l = Raise e.
Proof.
  induction l as [|x l IH]; intros Hin Ha; [destruct Hin|].
  cbn [mapM]. destruct (f x) as [b|e] eqn:Hx; cbn [rbind].
  - destruct Hin as [->|Hin].
    + destruct Ha as [e He]. congruence.
    + destruct (IH Hin Ha) as [e ->]. exists e. reflexivity.
  - exists e. reflexivity.
Qed.

End Prefix.


(** X15.  With comma splitting switched off the sentences handed to the
    regex detector are the pairs that [compile_text_to_sentences] yields,
    on which [pattern.search] raises.  So as soon as the writing style has
    one usable regex phrase classified as unwanted and the text has one
    sentence, bad-prose detection reports nothing at all, not even what
    the semantic comparison would have found. *)
Theorem bad_prose_detection_blind_without_comma_split (self : Editor)
  (text : string) (phrases : list PhraseDetection) (ph : PhraseDetection) :
  revision_split_on_comma self = false ->
  writing_style self = Some phrases ->
  In ph phrases ->
  phrase_usable ph = true ->
  match_method ph = "regex" ->
  Py.lower (classification ph) = "unwanted" ->
  compile_text_to_sentences self text <> [] ->
  revision_detect_bad_prose self text = [].
Proof.
  intros Hsplit Hstyle Hin Husable Hmethod Hclass Hsentences.
  unfold revision_detect_bad_prose, revision_detect_bad_prose_body.
  rewrite Hstyle, Hsplit.
  destruct phrases as [|p0 phrases]; [reflexivity|].
  match goal with
  | |- context [mapM ?f ?l] =>
      destruct (mapM_raises f l ph) as [e ->]
  end; [| |reflexivity].
  - apply list_elem_of_In, list_elem_of_filter. split; [exact Hmethod|].
    apply list_elem_of_filter. split; [exact Husable|].
    apply list_elem_of_In, Hin.
  - destruct (compile_text_to_sentences self text) as [|[s0 s1] rest];
      [contradiction|].
    apply (mapM_raises _ _ (STuple s0 s1)); [left; reflexivity|].
    unfold _revision_detect_bad_prose_regex. rewrite Hclass. cbn [String.eqb negb].
    replace (("unwanted" =? "unwanted")%string) with true by reflexivity.
    cbn [negb]. destruct (re_compile self (phrase ph)) as [pattern|e];
      cbn [rbind]; eexists; reflexivity.
Qed.


Lemma bad_prose_detection_blind_without_comma_split_witness :
  revision_detect_bad_prose Scenarios.strict_editor "The hero drew his sword." = [].
Proof.
  apply (bad_prose_detection_blind_without_comma_split Scenarios.strict_editor
           "The hero drew his sword." [unwanted "sword"] (unwanted "sword")).
  - reflexivity.
  - reflexivity.
  - left. reflexivity.
  - reflexivity.
  - reflexivity.
  - reflexivity.
  - discriminate.
Defined.

(** ** Cleaning the sampling parameters *)

Section Cleaning.

Import Parameters.

Lemma is_supported_In (supported_parameters : list parameter) (key : string) :
  is_supported supported_parameters key = true
  <-> exists param, In param supported_parameters /\ str param = key.
Proof.
  unfold is_supported. rewrite existsb_exists. split.
  - intros (param & Hin & Heq). apply String.eqb_eq in Heq. eauto.
  - intros (param & Hin & Heq). exists param. split; [exact Hin|].
    apply String.eqb_eq, Heq.
Qed.

Lemma apply_reroutes_names (supported_parameters : list parameter)
  (parameters : dict) :
  (forall param, In param supported_parameters -> exists name, param = Name name) ->
  apply_reroutes supported_parameters parameters = parameters.
Proof.
  unfold apply_reroutes. revert parameters.
  induction supported_parameters as [|param l IH]; intros parameters H;
    [reflexivity|].
  cbn [fold_left]. destruct (H param (or_introl eq_refl)) as [name ->].
  apply IH. intros p Hp. apply H. right. exact Hp.
Qed.

(** For a list of names, cleaning is the restriction to those names. *)
Lemma clean_prompt_parameters_names (supported_parameters : list parameter)
  (parameters : dict) (key : string) :
  (forall param, In param supported_parameters -> exists name, param = Name name) ->
  clean_prompt_parameters supported_parameters parameters !! key
  = if is_supported supported_parameters key then parameters !! key else None.
Proof.
  intros Hnames. unfold clean_prompt_parameters.
  rewrite (apply_reroutes_names _ _ Hnames).
  destruct (is_supported supported_parameters key) eqn:Hs.
  - destruct (parameters !! key) as [v|] eqn:Hv.
    + apply map_lookup_filter_Some. split; [exact Hv|exact Hs].
    + apply map_lookup_filter_None. left. exact Hv.
  - apply map_lookup_filter_None. right. intros v _. cbn. congruence.
Qed.

End Cleaning.

(** X16.  After [clean_prompt_parameters] every key of the parameter
    object is the name of a supported parameter.  For a client whose
    supported list holds names only, as the lists of the base, the OpenAI
    and the TabbyAPI client do, cleaning is exactly the restriction to the
    supported names: supported entries keep their values, all others are
    dropped. *)
Theorem clean_prompt_parameters_restricts
  (supported_parameters : list Parameters.parameter) (parameters : dict) :
  (forall key v,
      Parameters.clean_prompt_parameters supported_parameters parameters !! key
      = Some v ->
      exists param, In param supported_parameters /\ Parameters.str param = key)
  /\ ((forall param, In param supported_parameters ->
         exists name, param = Parameters.Name name) ->
      forall key,
        Parameters.clean_prompt_parameters supported_parameters parameters !! key
        = if Parameters.is_supported supported_parameters key
          then parameters !! key else None).
Proof.
  unfold Parameters.clean_prompt_parameters. split.
  - intros key v H. apply map_lookup_filter_Some in H as [_ H].
    apply is_supported_In, H.
  - intros Hnames key.
    exact (clean_prompt_parameters_names _ _ key Hnames).
Qed.

Lemma clean_prompt_parameters_restricts_witness :
  Parameters.clean_prompt_parameters Parameters.openai_supported_parameters
    Scenarios.tabby_parameters !! "presence_penalty"
  = if Parameters.is_supported Parameters.openai_supported_parameters
         "presence_penalty"
    then Scenarios.tabby_parameters !! "presence_penalty" else None.
Proof.
  apply (proj2 (clean_prompt_parameters_restricts
                  Parameters.openai_supported_parameters
                  Scenarios.tabby_parameters)).
  intros param Hin. cbn in Hin.
  destruct Hin as [<-|[<-|[<-|[<-|[]]]]]; eexists; reflexivity.
Defined.

Section Rerouting.

Import Parameters.

Context (talemate_parameter client_parameter : string).

Lemma reroute_absent (parameters : dict) :
  parameters !! talemate_parameter = None ->
  reroute talemate_parameter client_parameter parameters = parameters.
Proof. intros H. unfold reroute. rewrite H. reflexivity. Qed.

Lemma reroute_removes (parameters : dict) :
  reroute talemate_parameter client_parameter parameters !! talemate_parameter
  = None.
Proof.
  unfold reroute. destruct (parameters !! talemate_parameter) eqn:H.
  - apply lookup_delete_eq.
  - exact H.
Qed.

(** Once the one reroute of the list has been applied, the rest of the
    first loop changes nothing. *)
Lemma apply_reroutes_done (supported_parameters : list parameter)
  (parameters : dict) :
  (forall param, In param supported_parameters ->
     param = ParameterReroute talemate_parameter client_parameter
     \/ exists name, param = Name name) ->
  parameters !! talemate_parameter = None ->
  apply_reroutes supported_parameters parameters = parameters.
Proof.
  unfold apply_reroutes.
  induction supported_parameters as [|param l IH]; intros H Habsent;
    [reflexivity|].
  cbn [fold_left].
  destruct (H param (or_introl eq_refl)) as [->|[name ->]].
  - rewrite reroute_absent by exact Habsent.
    apply IH; [|exact Habsent]. intros p Hp. apply H. right. exact Hp.
  - apply IH; [|exact Habsent]. intros p Hp. apply H. right. exact Hp.
Qed.

Lemma apply_reroutes_single (supported_parameters : list parameter)
  (parameters : dict) :
  In (ParameterReroute talemate_parameter client_parameter) supported_parameters ->
  (forall param, In param supported_parameters ->
     param = ParameterReroute talemate_parameter client_parameter
     \/ exists name, param = Name name) ->
  apply_reroutes supported_parameters parameters
  = reroute talemate_parameter client_parameter parameters.
Proof.
  induction supported_parameters as [|param l IH]; intros Hin H; [destruct Hin|].
  assert (Hl : forall p, In p l ->
                 p = ParameterReroute talemate_parameter client_parameter
                 \/ exists name, p = Name name).
  { intros p Hp. apply H. right. exact Hp. }
  change (apply_reroutes (param :: l) parameters)
    with (apply_reroutes l
            match param with
            | ParameterReroute t c => reroute t c parameters
            | Name _ => parameters
            end).
  destruct (H param (or_introl eq_refl)) as [->|[name ->]].
  - apply apply_reroutes_done; [exact Hl|apply reroute_removes].
  - destruct Hin as [Hin|Hin]; [discriminate|]. apply IH; assumption.
Qed.

End Rerouting.

(** X17.  A client that supports a parameter under another name, through
    one [ParameterReroute] from [talemate_parameter] to a different
    [client_parameter], finds after cleaning the value under the client's
    name and nothing under the original one. *)
Theorem clean_prompt_parameters_reroutes
  (supported_parameters : list Parameters.parameter) (parameters : dict)
  (talemate_parameter client_parameter : string) (v : pyval) :
  In (Parameters.ParameterReroute talemate_parameter client_parameter)
     supported_parameters ->
  (forall param, In param supported_parameters ->
     param = Parameters.ParameterReroute talemate_parameter client_parameter
     \/ exists name, param = Parameters.Name name) ->
  talemate_parameter <> client_parameter ->
  parameters !! talemate_parameter = Some v ->
  Parameters.clean_prompt_parameters supported_parameters parameters
    !! client_parameter = Some v
  /\ Parameters.clean_prompt_parameters supported_parameters parameters
       !! talemate_parameter = None.
Proof.
  intros Hin Hsingle Hne Hv. unfold Parameters.clean_prompt_parameters.
  rewrite (apply_reroutes_single _ _ _ _ Hin Hsingle). split.
  - apply map_lookup_filter_Some. split.
    + unfold Parameters.reroute. rewrite Hv.
      rewrite lookup_delete_ne by exact Hne. apply lookup_insert_eq.
    + apply is_supported_In. eexists. split; [exact Hin|reflexivity].
  - apply map_lookup_filter_None. left. apply reroute_removes.
Qed.

Lemma clean_prompt_parameters_reroutes_witness :
  Parameters.clean_prompt_parameters Scenarios.rerouting_supported_parameters
    Scenarios.tabby_parameters !! "max_new_tokens" = Some (VInt 100)
  /\ Parameters.clean_prompt_parameters Scenarios.rerouting_supported_parameters
       Scenarios.tabby_parameters !! "max_tokens" = None.
Proof.
  apply clean_prompt_parameters_reroutes.
  - right. left. reflexivity.
  - intros param Hin. cbn in Hin. destruct Hin as [<-|[<-|[]]].
    + right. eexists. reflexivity.
    + left. reflexivity.
  - discriminate.
  - reflexivity.
Defined.

(** ** Generation contexts and automatic revision *)

Section Contexts.

Lemma contains_chr_free (c : ascii) (s : string) :
  Py.contains (String c EmptyString) s = false -> free_of c s.
Proof.
  unfold Py.contains. induction s as [|x s IH]; [intros _; exact I|].
  cbn [Py.find]. rewrite str_prefix_cons, str_prefix_nil.
  destruct (ascii_dec c x) as [->|Hne]; [discriminate|].
  destruct (Py.find (String c EmptyString) s); [discriminate|].
  intros _. split; [|apply IH; reflexivity].
  apply Ascii.eqb_neq. congruence.
Qed.

Lemma find_chr_app (c : ascii) (a b : string) :
  free_of c a ->
  Py.find (String c EmptyString) (a ++ String c b) = Some (String.length a).
Proof.
  induction a as [|x a IH].
  - intros _. rewrite str_append_nil. cbn [Py.find]. rewrite str_prefix_cons, str_prefix_nil.
    destruct (ascii_dec c c); [reflexivity|contradiction].
  - intros [Hx Ha]. rewrite str_append_cons. cbn [Py.find].
    rewrite str_prefix_cons.
    destruct (ascii_dec c x) as [->|_].
    + rewrite Ascii.eqb_refl in Hx. discriminate.
    + rewrite (IH Ha). reflexivity.
Qed.

Lemma split1_chr_app (c : ascii) (a b : string) :
  free_of c a ->
  Py.split1 (String c EmptyString) (a ++ String c b) = Some (a, b).
Proof.
  intros Ha. unfold Py.split1. rewrite (find_chr_app c a b Ha).
  rewrite str_take_app_length. rewrite <- str_drop_drop, str_drop_app_length. reflexivity.
Qed.

Lemma computed_context_app (typ name : string) :
  Py.contains ":" typ = false ->
  Assistant.computed_context (typ ++ ":" ++ name) = Ok (typ, name).
Proof.
  intros H. unfold Assistant.computed_context.
  change (":" ++ name) with (String ":" name).
  rewrite (split1_chr_app ":" typ name (contains_chr_free _ _ H)). reflexivity.
Qed.

End Contexts.

(** X18.  A generation context is decoded the way it was built: split at
    its first colon, a context made of a type without a colon, a colon and
    a name yields that type and that name, whatever colons the name itself
    contains.  So the attribute and detail names handed to
    [generate_character_attribute] and [generate_character_detail] reach
    the template verbatim. *)
Theorem computed_context_round_trip (typ name : string) :
  Py.contains ":" typ = false ->
  Assistant.computed_context (typ ++ ":" ++ name) = Ok (typ, name).
Proof. exact (computed_context_app typ name). Qed.

Lemma computed_context_round_trip_witness :
  Assistant.computed_context ("character attribute" ++ ":" ++ "eyes: left")
  = Ok ("character attribute", "eyes: left").
Proof.
  apply computed_context_round_trip. reflexivity.
Defined.

(** X19.  Contextual generations are revised for the four listed context
    types only: an emission of the contextual generator whose context type
    is none of them, such as a thematic list or a character dialogue,
    leaves the handler with its response untouched, whatever the
    settings. *)
Theorem contextual_revision_only_for_listed_types (self : Editor)
  (settings : Automatic.Settings) (emission : Automatic.Emission)
  (typ name : string) :
  Automatic.class emission = Automatic.ContextualGenerateEmission ->
  Automatic.context emission = typ ++ ":" ++ name ->
  Py.contains ":" typ = false ->
  Automatic.mem typ Automatic.CONTEXTUAL_GENERATION_TYPES = false ->
  Automatic.revision_on_generation self settings emission
  = Ok (Automatic.response emission).
Proof.
  intros Hclass Hcontext Htyp Hmem.
  unfold Automatic.revision_on_generation, Automatic.context_of,
    Automatic.is_class.
  rewrite Hclass, Hcontext, (computed_context_app typ name Htyp).
  cbn [rbind andb orb]. rewrite Hmem. cbn [negb].
  repeat match goal with
         | |- (if ?b then _ else _) = _ => destruct b; [reflexivity|]
         end.
  reflexivity.
Qed.

Lemma contextual_revision_only_for_listed_types_witness :
  Automatic.revision_on_generation
    (editor unslop [] "<FIX>Swords, shields, spears</FIX>" [] 0)
    Scenarios.revise_everything Scenarios.thematic_list_emission
  = Ok (Automatic.response Scenarios.thematic_list_emission).
Proof.
  apply (contextual_revision_only_for_listed_types _ _ _ "list" EmptyString).
  - reflexivity.
  - reflexivity.
  - reflexivity.
  - reflexivity.
Defined.

(** X20.  What [generate_character_attribute] produces is revised: with
    automatic revision switched on for contextual generation and not
    disabled by the context, the emission made for its context leaves the
    handler with the text that [revision_revise] gives for a revision of
    context type [character attribute] whose context name is the
    attribute name. *)
Theorem character_attribute_is_revised (self : Editor)
  (settings : Automatic.Settings) (emission : Automatic.Emission)
  (attribute_name : string) :
  Automatic.class emission = Automatic.ContextualGenerateEmission ->
  Automatic.context emission
  = Assistant.character_attribute_context attribute_name ->
  Automatic.revision_enabled settings = true ->
  Automatic.revision_automatic_enabled settings = true ->
  Automatic.mem "contextual_generation"
    (Automatic.revision_automatic_targets settings) = true ->
  Automatic.revision_disabled settings = false ->
  Automatic.revision_on_generation self settings emission
  = Ok (revision_revise self
          {| text := Automatic.response emission;
             character := Automatic.emission_character emission;
             context_type := Some "character attribute";
             context_name := Some attribute_name;
             summarization_history := None |}).
Proof.
  intros Hclass Hcontext Hon Hauto Htarget Hoff.
  unfold Automatic.revision_on_generation, Automatic.context_of,
    Automatic.is_class.
  rewrite Hclass, Hcontext, Hon, Hauto, Htarget, Hoff.
  unfold Assistant.character_attribute_context.
  change ("character attribute:" ++ attribute_name)
    with ("character attribute" ++ ":" ++ attribute_name).
  rewrite (computed_context_app "character attribute" attribute_name eq_refl).
  reflexivity.
Qed.

Lemma character_attribute_is_revised_witness :
  Automatic.revision_on_generation
    (editor unslop [] "<FIX>Green, flecked with gold.</FIX>" [] 0)
    Scenarios.revise_everything Scenarios.eye_colour_emission
  = Ok (revision_revise
          (editor unslop [] "<FIX>Green, flecked with gold.</FIX>" [] 0)
          {| text := Automatic.response Scenarios.eye_colour_emission;
             character := Automatic.emission_character Scenarios.eye_colour_emission;
             context_type := Some "character attribute";
             context_name := Some "eyes: colour";
             summarization_history := None |}).
Proof.
  apply character_attribute_is_revised; reflexivity.
Defined.

(** X21.  Event summaries are never revised.  For a summary of any type
    other than [dialogue] the list of automatic targets is not consulted:
    two settings that differ in that list only give the same result. *)
Theorem summary_revision_gating (self : Editor) (emission : Automatic.Emission) :
  Automatic.class emission = Automatic.SummarizeEmission ->
  (Automatic.summarization_type emission = "events" ->
   forall settings,
     Automatic.revision_on_generation self settings emission
     = Ok (Automatic.response emission))
  /\ (Automatic.summarization_type emission <> "dialogue" ->
      forall settings settings',
        Automatic.revision_enabled settings' = Automatic.revision_enabled settings ->
        Automatic.revision_automatic_enabled settings'
        = Automatic.revision_automatic_enabled settings ->
        Automatic.revision_disabled settings' = Automatic.revision_disabled settings ->
        Automatic.revision_on_generation self settings' emission
        = Automatic.revision_on_generation self settings emission).
Proof.
  intros Hclass. split.
  - intros Hevents settings.
    unfold Automatic.revision_on_generation, Automatic.is_class.
    rewrite Hclass, Hevents. cbn [andb orb negb].
    replace (("events" =? "dialogue")%string) with false by reflexivity.
    replace (("events" =? "events")%string) with true by reflexivity.
    cbn [andb orb]. destruct (_ || _); reflexivity.
  - intros Hother settings settings' Hon Hauto Hoff.
    unfold Automatic.revision_on_generation, Automatic.context_of,
      Automatic.is_class.
    rewrite Hclass, Hon, Hauto, Hoff. cbn [andb orb negb].
    apply String.eqb_neq in Hother. rewrite Hother. cbn [andb orb].
    reflexivity.
Qed.

Lemma summary_revision_gating_witness :
  Automatic.revision_on_generation
    (editor unslop [] "<FIX>They met at dawn.</FIX>" [] 0)
    Scenarios.revise_everything Scenarios.events_summary_emission
  = Ok (Automatic.response Scenarios.events_summary_emission).
Proof.
  apply (proj1 (summary_revision_gating _ Scenarios.events_summary_emission
                  eq_refl) eq_refl).
Defined.

(** ** The director's dynamic actions *)

Section Choices.

Import Director.

(** Nothing but messages of other classes. *)
Definition only_other (l : list message) : Prop :=
  Forall (fun m => m = OtherMessage) l.

Lemma scan_backwards_spec (reversed : list message) :
  scan_backwards reversed = true
  <-> exists later earlier,
        reversed = (later ++ CharacterMessage "player" :: earlier)%list
        /\ only_other later.
Proof.
  induction reversed as [|m reversed IH]; cbn [scan_backwards].
  - split; [discriminate|]. intros (later & earlier & H & _).
    destruct later; discriminate.
  - destruct m as [|source|].
    + split; [discriminate|]. intros (later & earlier & H & Hl).
      destruct later as [|m later]; [discriminate|].
      injection H as <- _. inversion Hl; subst. discriminate.
    + split.
      * intros H. apply String.eqb_eq in H as ->.
        exists [], reversed. split; [reflexivity|constructor].
      * intros (later & earlier & H & Hl).
        destruct later as [|m later].
        -- injection H as -> _. reflexivity.
        -- injection H as <- _. inversion Hl; subst. discriminate.
    + rewrite IH. split.
      * intros (later & earlier & -> & Hl).
        exists (OtherMessage :: later), earlier.
        split; [reflexivity|constructor; [reflexivity|exact Hl]].
      * intros (later & earlier & H & Hl).
        destruct later as [|m later]; [discriminate|].
        injection H as _ ->. inversion Hl; subst.
        exists later, earlier. split; [reflexivity|assumption].
Qed.

Lemma only_other_rev (l : list message) : only_other l -> only_other (rev l).
Proof.
  unfold only_other. rewrite !List.Forall_forall. intros H m Hm.
  apply H, in_rev, Hm.
Qed.

End Choices.

(** X22.  On an enabled director with dynamic actions switched on and a
    draw below the configured chance, choices are withheld exactly when
    the history ends with a message of the player's character followed
    by nothing but messages that are neither narration nor dialogue. *)
Theorem choices_withheld_after_player_message (history : list Director.message)
  (generate_choices_chance draw : Q) :
  Num.ltb draw generate_choices_chance = true ->
  (Director.on_player_turn_start true true history generate_choices_chance draw
   = false
   <-> exists before after,
         history = (before ++ Director.CharacterMessage "player" :: after)%list
         /\ only_other after).
Proof.
  intros Hdraw. unfold Director.on_player_turn_start. cbn [negb]. rewrite Hdraw.
  split.
  - destruct (Director.scan_backwards (rev history)) eqn:Hscan; [|discriminate].
    intros _. apply scan_backwards_spec in Hscan as (later & earlier & Hrev & Hl).
    exists (rev earlier), (rev later). split.
    + rewrite <- (rev_involutive history), Hrev, rev_app_distr. cbn [rev].
      rewrite <- app_assoc. reflexivity.
    + apply only_other_rev, Hl.
  - intros (before & after & -> & Ha).
    assert (Hscan : Director.scan_backwards
                      (rev (before ++ Director.CharacterMessage "player" :: after))
                    = true).
    { apply scan_backwards_spec. exists (rev after), (rev before). split.
      - rewrite rev_app_distr. cbn [rev]. rewrite <- app_assoc. reflexivity.
      - apply only_other_rev, Ha. }
    rewrite Hscan. reflexivity.
Qed.

Lemma choices_withheld_after_player_message_witness :
  Director.on_player_turn_start true true
    [Director.NarratorMessage; Director.CharacterMessage "player";
     Director.OtherMessage] 1 (1 # 2) = false
  <-> exists before after,
        [Director.NarratorMessage; Director.CharacterMessage "player";
         Director.OtherMessage]
        = (before ++ Director.CharacterMessage "player" :: after)%list
        /\ only_other after.
Proof.
  apply choices_withheld_after_player_message. reflexivity.
Defined.

Section Trimmed.

Import Director.

Definition first_chr (s : string) : option ascii :=
  match s with
  | EmptyString => None
  | String x _ => Some x
  end.

Fixpoint last_chr (s : string) : option ascii :=
  match s with
  | EmptyString => None
  | String x EmptyString => Some x
  | String _ s' => last_chr s'
  end.

Lemma lstrip_chr_first (c : ascii) (s : string) :
  first_chr (lstrip_chr c s) <> Some c.
Proof.
  induction s as [|x s IH]; cbn [lstrip_chr]; [discriminate|].
  destruct (Ascii.eqb x c) eqn:Hx; [exact IH|].
  cbn. intros [= ->]. rewrite Ascii.eqb_refl in Hx. discriminate.
Qed.

Lemma rstrip_chr_first (c : ascii) (s : string) :
  first_chr (rstrip_chr c s) = None \/ first_chr (rstrip_chr c s) = first_chr s.
Proof.
  destruct s as [|x s]; [left; reflexivity|]. cbn [rstrip_chr].
  destruct (rstrip_chr c s).
  - destruct (Ascii.eqb x c); [left|right]; reflexivity.
  - right. reflexivity.
Qed.

Lemma rstrip_chr_last (c : ascii) (s : string) :
  last_chr (rstrip_chr c s) <> Some c.
Proof.
  induction s as [|x s IH]; cbn [rstrip_chr]; [discriminate|].
  destruct (rstrip_chr c s) as [|y r] eqn:Hr.
  - destruct (Ascii.eqb x c) eqn:Hx; [discriminate|].
    cbn. intros [= ->]. rewrite Ascii.eqb_refl in Hx. discriminate.
  - exact IH.
Qed.

Lemma strip_chr_trimmed (c : ascii) (s : string) :
  first_chr (strip_chr c s) <> Some c /\ last_chr (strip_chr c s) <> Some c.
Proof.
  unfold strip_chr. split; [|apply rstrip_chr_last].
  destruct (rstrip_chr_first c (lstrip_chr c s)) as [-> | ->];
    [discriminate|apply lstrip_chr_first].
Qed.

Lemma slice_to_In {A} (l : list A) (n : Z) (a : A) :
  In a (slice_to l n) -> In a l.
Proof.
  unfold slice_to. destruct (n <? 0)%Z; intros H;
    apply list_elem_of_In in H; apply list_elem_of_In;
    exact (subseteq_take _ _ _ H).
Qed.

Lemma slice_to_length {A} (l : list A) (n : Z) :
  (0 <= n)%Z -> (Z.of_nat (length (slice_to l n)) <= n)%Z.
Proof.
  intros Hn. unfold slice_to.
  replace (n <? 0)%Z with false by (symmetry; apply Z.ltb_ge; exact Hn).
  rewrite length_take. lia.
Qed.

End Trimmed.

(** X23.  The choices that [generate_choices] hands to the player are at
    most as many as configured, and none of them starts or ends with a
    double quote. *)
Theorem generated_choices_are_trimmed
  (extract_list : string -> result (list string))
  (generate_choices_num_choices : Z) (response : string) (choices : list string) :
  (0 <= generate_choices_num_choices)%Z ->
  Director.generate_choices extract_list generate_choices_num_choices response
  = Some choices ->
  (Z.of_nat (length choices) <= generate_choices_num_choices)%Z
  /\ forall choice, In choice choices ->
       first_chr choice <> Some Director.quote
       /\ last_chr choice <> Some Director.quote.
Proof.
  intros Hn. unfold Director.generate_choices.
  destruct (Py.split1 "ACTIONS:" response) as [[before choice_text]|];
    [|discriminate].
  destruct (extract_list choice_text) as [extracted|e]; [|discriminate].
  intros [= <-]. split; [apply slice_to_length, Hn|].
  intros choice Hin. apply slice_to_In, in_map_iff in Hin as (raw & <- & _).
  apply strip_chr_trimmed.
Qed.

Lemma generated_choices_are_trimmed_witness :
  (Z.of_nat (length ["Run"; "Hide"]) <= 2)%Z
  /\ forall choice, In choice ["Run"; "Hide"] ->
       first_chr choice <> Some Director.quote
       /\ last_chr choice <> Some Director.quote.
Proof.
  apply (generated_choices_are_trimmed (fun t => Ok (Py.split_chr "," t)) 2
           "Sure. ACTIONS:Run, Hide,Fight").
  - lia.
  - reflexivity.
Defined.

Section Reasoning.

Import Parameters.

(** What the adjustment for the models without system message leaves in
    the parameter object. *)
Lemma reasoning_model_parameters_lookup (parameters : dict) (key : string)
  (v : pyval) :
  reasoning_model_parameters parameters !! key = Some v ->
  (key = "temperature" /\ v = VInt 1)
  \/ (key = "max_completion_tokens" /\ parameters !! "max_tokens" = Some v)
  \/ (key <> "temperature" /\ key <> "max_tokens" /\ key <> "top_p"
      /\ key <> "presence_penalty" /\ parameters !! key = Some v).
Proof.
  unfold reasoning_model_parameters. cbn [fold_left].
  destruct (decide (key = "top_p")) as [->|Htop];
    [rewrite lookup_delete_eq; discriminate|].
  rewrite lookup_delete_ne by congruence.
  destruct (decide (key = "presence_penalty")) as [->|Hpp];
    [rewrite lookup_delete_eq; discriminate|].
  rewrite lookup_delete_ne by congruence.
  set (renamed := match parameters !! "max_tokens" with
                  | Some v => <["max_completion_tokens" := v]>
                                (delete "max_tokens" parameters)
                  | None => parameters
                  end).
  assert (Hrenamed : forall v,
             renamed !! key = Some v ->
             (key = "max_completion_tokens" /\ parameters !! "max_tokens" = Some v)
             \/ (key <> "max_tokens" /\ parameters !! key = Some v)).
  { intros v0. unfold renamed.
    destruct (parameters !! "max_tokens") as [tokens|] eqn:Htokens.
    - destruct (decide (key = "max_completion_tokens")) as [->|Hk].
      + rewrite lookup_insert_eq. intros [= <-]. left. split; reflexivity.
      + rewrite lookup_insert_ne by congruence.
        destruct (decide (key = "max_tokens")) as [->|Hm];
          [rewrite lookup_delete_eq; discriminate|].
        rewrite lookup_delete_ne by congruence. intros H. right. split; assumption.
    - intros H. right. split; [|exact H]. intros ->. congruence. }
  destruct (renamed !! "temperature") as [temp|] eqn:Htemp.
  - destruct (decide (key = "temperature")) as [->|Ht].
    + rewrite lookup_insert_eq. intros [= <-]. left. split; reflexivity.
    + rewrite lookup_insert_ne by congruence. intros H.
      destruct (Hrenamed v H) as [Hr|[Hm Hr]]; [right; left; exact Hr|].
      right. right. repeat split; assumption.
  - intros H.
    destruct (decide (key = "temperature")) as [->|Ht]; [congruence|].
    destruct (Hrenamed v H) as [Hr|[Hm Hr]]; [right; left; exact Hr|].
    right. right. repeat split; assumption.
Qed.

(** What the first step adds to the parameter object. *)
Lemma response_format_parameters_lookup (model_name prompt : string)
  (parameters : dict) (key : string) (v : pyval) :
  response_format_parameters model_name prompt parameters !! key = Some v ->
  (key = "response_format" /\ v = json_object
   /\ supports_json_object model_name = true
   /\ exists expected, expected_response prompt = Some expected
                       /\ Py.startswith expected "{" = true)
  \/ parameters !! key = Some v.
Proof.
  unfold response_format_parameters.
  destruct (expected_response prompt) as [expected|]; [|right; assumption].
  destruct (Py.startswith expected "{") eqn:Hbrace; cbn [andb];
    [|right; assumption].
  destruct (supports_json_object model_name) eqn:Hjson; [|right; assumption].
  destruct (decide (key = "response_format")) as [->|Hk].
  - rewrite lookup_insert_eq. intros [= <-]. left.
    repeat split. exists expected. split; [reflexivity|exact Hbrace].
  - rewrite lookup_insert_ne by congruence. right. assumption.
Qed.

End Reasoning.

(** X24.  What reaches the API for an OpenAI model whose name contains
    [o1] or [o3], after cleaning and the steps of [OpenAIClient.generate]:
    at most a temperature, which is then 1, a [max_completion_tokens],
    which is then the [max_tokens] the request started with, and a
    [response_format] asking for a JSON object, which is there only for a
    model that can be held to one and a prompt whose expected response
    starts with a brace; no [max_tokens], [top_p] or [presence_penalty]. *)
Theorem reasoning_model_request_parameters (model_name prompt : string)
  (parameters : dict) (key : string) (v : pyval) :
  Parameters.is_reasoning_model model_name = true ->
  Parameters.openai_request_parameters model_name prompt
    (Parameters.clean_prompt_parameters Parameters.openai_supported_parameters
       parameters) !! key = Some v ->
  (key = "temperature" /\ v = VInt 1)
  \/ (key = "max_completion_tokens" /\ parameters !! "max_tokens" = Some v)
  \/ (key = "response_format" /\ v = Parameters.json_object
      /\ Parameters.supports_json_object model_name = true
      /\ exists expected,
           Parameters.expected_response prompt = Some expected
           /\ Py.startswith expected "{" = true).
Proof.
  intros Hmodel. unfold Parameters.openai_request_parameters. rewrite Hmodel.
  assert (Hnames : forall param,
             In param Parameters.openai_supported_parameters ->
             exists name, param = Parameters.Name name).
  { intros param Hin. cbn in Hin.
    destruct Hin as [<-|[<-|[<-|[<-|[]]]]]; eexists; reflexivity. }
  pose proof (fun k => clean_prompt_parameters_names
                         Parameters.openai_supported_parameters parameters k Hnames)
    as Hclean.
  set (cleaned := Parameters.clean_prompt_parameters _ parameters) in *.
  assert (Hcleaned : forall k x,
             Parameters.response_format_parameters model_name prompt cleaned !! k
             = Some x ->
             k <> "response_format" ->
             parameters !! k = Some x
             /\ (k = "temperature" \/ k = "top_p" \/ k = "presence_penalty"
                 \/ k = "max_tokens")).
  { intros k x Hk Hne.
    apply response_format_parameters_lookup in Hk as [(Hk & _)|Hk];
      [contradiction|].
    rewrite Hclean in Hk.
    destruct (Parameters.is_supported Parameters.openai_supported_parameters k)
      eqn:Hs; [|discriminate].
    split; [exact Hk|].
    apply is_supported_In in Hs as (param & Hin & Heq). cbn in Hin.
    destruct Hin as [<-|[<-|[<-|[<-|[]]]]]; cbn in Heq; auto. }
  intros H. apply reasoning_model_parameters_lookup in H
    as [Ht|[(-> & Hm)|(H1 & H2 & H3 & H4 & Hk)]].
  - left. exact Ht.
  - right. left. split; [reflexivity|].
    apply (Hcleaned "max_tokens" v Hm). discriminate.
  - destruct (decide (key = "response_format")) as [->|Hne].
    + apply response_format_parameters_lookup in Hk as [Hk|Hk];
        [right; right; exact Hk|].
      rewrite Hclean in Hk. discriminate.
    + destruct (Hcleaned key v Hk Hne) as [_ [Hc|[Hc|[Hc|Hc]]]]; congruence.
Qed.

Lemma reasoning_model_request_parameters_witness :
  ("max_completion_tokens" = "temperature" /\ VInt 100 = VInt 1)
  \/ ("max_completion_tokens" = "max_completion_tokens"
      /\ Scenarios.tabby_parameters !! "max_tokens" = Some (VInt 100))
  \/ ("max_completion_tokens" = "response_format"
      /\ VInt 100 = Parameters.json_object
      /\ Parameters.supports_json_object "gpt-4-o1" = true
      /\ exists expected,
           Parameters.expected_response Scenarios.json_prompt = Some expected
           /\ Py.startswith expected "{" = true).
Proof.
  apply (reasoning_model_request_parameters "gpt-4-o1" Scenarios.json_prompt
           Scenarios.tabby_parameters).
  - reflexivity.
  - vm_compute. reflexivity.
Defined.

(** The request of a model that is held to a JSON object and takes no
    system message carries three parameters. *)
Example reasoning_model_json_request :
  map_to_list
    (Parameters.openai_request_parameters "gpt-4-o1" Scenarios.json_prompt
       (Parameters.clean_prompt_parameters Parameters.openai_supported_parameters
          Scenarios.tabby_parameters))
  ≡ₚ [("temperature", VInt 1); ("max_completion_tokens", VInt 100);
      ("response_format", Parameters.json_object)].
Proof. vm_compute. solve_Permutation. Qed.

(** ** The status of a request *)

Section Status.

Import Telemetry.

Lemma rate_zero (r : RequestInformation) (now : Q) :
  (1 < duration r now)%Q ->
  Qeq_bool (rate r now) 0 = true <-> tokens r = 0%Z.
Proof.
  intros Hd. unfold rate, duration in *.
  set (elapsed := (end_time_or r now - start_time r)%Q) in *.
  destruct (Qeq_bool elapsed 0) eqn:He.
  - apply Qeq_bool_eq in He. lra.
  - rewrite Qeq_bool_iff. split.
    + intros H.
      assert (Hz : inject_Z (tokens r) == 0).
      { assert (Hmul : inject_Z (tokens r) == inject_Z (tokens r) / elapsed * elapsed)
          by (field; lra).
        rewrite Hmul, H. ring. }
      unfold Qeq in Hz. cbn in Hz. lia.
    + intros ->. unfold Qdiv. change (inject_Z 0) with 0%Q. ring.
Qed.

End Status.

(** X25.  A request is reported as [stopped] exactly when it has no end
    time, has a start time, has been running for more than a second and
    has received no token at all: once a token has been counted, an open
    request is never shown as stopped. *)
Theorem stopped_means_no_tokens (r : Telemetry.RequestInformation) (now : Q) :
  Telemetry.status r now = "stopped"
  <-> Telemetry.truthy_opt (Telemetry.end_time r) = false
      /\ Telemetry.truthy (Telemetry.start_time r) = true
      /\ (1 < now - Telemetry.start_time r)%Q
      /\ Telemetry.tokens r = 0%Z.
Proof.
  unfold Telemetry.status.
  destruct (Telemetry.truthy_opt (Telemetry.end_time r)) eqn:Hend.
  { split; [discriminate|]. intros (H & _). discriminate. }
  assert (Hnow : Telemetry.end_time_or r now = now).
  { unfold Telemetry.end_time_or. unfold Telemetry.truthy_opt in Hend.
    destruct (Telemetry.end_time r) as [e|]; [|reflexivity].
    rewrite Hend. reflexivity. }
  destruct (Telemetry.truthy (Telemetry.start_time r)).
  - destruct (Num.ltb 1 (Telemetry.duration r now)) eqn:Hd.
    + apply ltb_lt in Hd. pose proof (rate_zero r now Hd) as Hrate.
      unfold Telemetry.duration in Hd. rewrite Hnow in Hd.
      destruct (Qeq_bool (Telemetry.rate r now) 0).
      * split; [|reflexivity]. intros _. repeat split; [exact Hd|].
        apply Hrate. reflexivity.
      * split; [discriminate|]. intros (_ & _ & _ & Ht).
        apply Hrate in Ht. discriminate.
    + apply ltb_ge in Hd. unfold Telemetry.duration in Hd. rewrite Hnow in Hd.
      split; [discriminate|]. intros (_ & _ & Hlt & _). lra.
  - split; [discriminate|]. intros (_ & H & _). discriminate.
Qed.
